(** * Paynless framework: chat continuation loop, Anthropic adapter,
      canonical path parameters, wallet store and message sending

    A shallow embedding of

    - [supabase/functions/chat/continue.ts] ([handleContinuationLoop]),
    - [supabase/functions/_shared/ai_service/anthropic_adapter.ts]
      ([AnthropicAdapter.sendMessage], [AnthropicAdapter.listModels]),
    - the canonical path builder ([createCanonicalPathParams]),
    - [packages/store/src/walletStore.ts] ([determineChatWallet], the
      consent setters, [_handleWalletUpdateNotification]),
    - [packages/store/src/ai.SendMessage.ts] ([coreMessageProcessing],
      [handleSendMessage]).

    Conventions of the embedding.

    - JavaScript strings are Rocq [string]s holding their UTF-8
      encoding, one [ascii] per byte (a string with an unpaired surrogate
      has none and is not represented); [undefined]/[null] is [None].
    - Token counts are JavaScript numbers holding integers; they are
      modelled as [Z] (no rounding below 2^53, [NaN] is not represented).
    - A function that may [throw] returns a [result]; an [async] function
      that talks to the outside world threads an explicit world state and
      records every outgoing call in a log, oldest call first.
    - Calls to the logger have no effect on any value and are left out. *)

From Stdlib Require Import ZArith String Ascii List Lia.
From stdpp Require Import base option list strings sorting.
From stdpp Require Import gmap.

Local Open Scope Z_scope.

(** ** Results of code that may throw *)

Inductive result (E A : Type) : Type :=
| Ok (a : A)
| Err (e : E).
Arguments Ok {E A} a.
Arguments Err {E A} e.

(** JavaScript truthiness of a string-valued optional field:
    [undefined], [null] and the empty string are falsy. *)
Definition truthy (o : option string) : bool :=
  match o with
  | Some s => negb (String.eqb s "")
  | None => false
  end.

(** [x || 0] on an optional number. *)
Definition or_zero (o : option Z) : Z :=
  match o with
  | Some n => n
  | None => 0
  end.

(** ** Shared types ([_shared/types.ts], as used by the two modules) *)

Record ChatMessage : Type := mkChatMessage {
  role : string;
  content : string
}.

Record ChatApiRequest : Type := mkChatApiRequest {
  message : option string;
  providerId : option string;
  promptId : option string;
  messages : option (list ChatMessage);
  max_tokens_to_generate : option Z
}.

Record TokenUsage : Type := mkTokenUsage {
  prompt_tokens : option Z;
  completion_tokens : option Z;
  total_tokens : option Z;
  tu_finish_reason : option string
}.

Record AdapterResponsePayload : Type := mkAdapterResponsePayload {
  resp_role : string;
  resp_content : string;
  ai_provider_id : option string;
  system_prompt_id : option string;
  token_usage : option TokenUsage;
  finish_reason : option string
}.

(** ** [chat/continue.ts] *)

Module Continue.

Definition MAX_CONTINUATIONS : nat := 4.

(** What the function can throw: whatever the adapter threw, or its own
    "AI provider did not return a response in the continuation loop." *)
Inductive LoopError (E : Type) : Type :=
| AdapterThrew (e : E)
| NoResponseError.
Arguments AdapterThrew {E} e.
Arguments NoResponseError {E}.

(** One call of [adapter.sendMessage]: the request it was handed and what
    came back. *)
Record Call (E : Type) : Type := mkCall {
  call_request : ChatApiRequest;
  call_result : result E AdapterResponsePayload
}.
Arguments mkCall {E} _ _.
Arguments call_request {E} _.
Arguments call_result {E} _.

(** The local variables of the function. *)
Record LoopState : Type := mkLoopState {
  accumulatedContent : string;
  acc_prompt_tokens : Z;
  acc_completion_tokens : Z;
  currentRequest : ChatApiRequest;
  continuationCount : nat;
  lastResponse : option AdapterResponsePayload
}.

(** [{ ...initialApiRequest }] followed by the [messages] default. *)
Definition initial_request (initialApiRequest : ChatApiRequest) : ChatApiRequest :=
  {| message := message initialApiRequest;
     providerId := providerId initialApiRequest;
     promptId := promptId initialApiRequest;
     messages := Some (default [] (messages initialApiRequest));
     max_tokens_to_generate := max_tokens_to_generate initialApiRequest |}.

Definition initial_state (initialApiRequest : ChatApiRequest) : LoopState :=
  {| accumulatedContent := "";
     acc_prompt_tokens := 0;
     acc_completion_tokens := 0;
     currentRequest := initial_request initialApiRequest;
     continuationCount := 0;
     lastResponse := None |}.

(** [currentRequest.messages.push({ role: "assistant", content })].  The
    array is the one of [initialApiRequest] when that had one (the copy
    is shallow); the model follows the value the adapter is handed. *)
Definition push_assistant (r : ChatApiRequest) (c : string) : ChatApiRequest :=
  {| message := message r;
     providerId := providerId r;
     promptId := promptId r;
     messages := Some (default [] (messages r) ++ [mkChatMessage "assistant" c]);
     max_tokens_to_generate := max_tokens_to_generate r |}.

(** [token_usage?.finish_reason]: the reason the loop inspects lives
    inside the response's [token_usage] object. *)
Definition finishReason_of (response : AdapterResponsePayload) : option string :=
  token_usage response ≫= tu_finish_reason.

(** [finishReason !== "length"]. *)
Definition is_not_length (fr : option string) : bool :=
  match fr with
  | Some s => negb (String.eqb s "length")
  | None => true
  end.

(** The contribution of one response to the two running sums. *)
Definition prompt_of (response : AdapterResponsePayload) : Z :=
  match token_usage response with
  | Some tu => or_zero (prompt_tokens tu)
  | None => 0
  end.

Definition completion_of (response : AdapterResponsePayload) : Z :=
  match token_usage response with
  | Some tu => or_zero (completion_tokens tu)
  | None => 0
  end.

(** Lines 58-67: the state after a response has been taken in. *)
Definition accumulate (s : LoopState) (response : AdapterResponsePayload) : LoopState :=
  {| accumulatedContent := (accumulatedContent s +:+ resp_content response)%string;
     acc_prompt_tokens := acc_prompt_tokens s + prompt_of response;
     acc_completion_tokens := acc_completion_tokens s + completion_of response;
     currentRequest := currentRequest s;
     continuationCount := continuationCount s;
     lastResponse := Some response |}.

(** Lines 81-85: count the continuation and extend the history. *)
Definition advance (s : LoopState) (response : AdapterResponsePayload) : LoopState :=
  {| accumulatedContent := accumulatedContent s;
     acc_prompt_tokens := acc_prompt_tokens s;
     acc_completion_tokens := acc_completion_tokens s;
     currentRequest := push_assistant (currentRequest s) (resp_content response);
     continuationCount := S (continuationCount s);
     lastResponse := lastResponse s |}.

(** Lines 88-110: the invariant check and the combined payload. *)
Definition finalize {E : Type} (s : LoopState) : result (LoopError E) AdapterResponsePayload :=
  match lastResponse s with
  | None => Err NoResponseError
  | Some last =>
      Ok {| resp_role := resp_role last;
            resp_content := accumulatedContent s;
            ai_provider_id := ai_provider_id last;
            system_prompt_id := system_prompt_id last;
            token_usage :=
              Some {| prompt_tokens := Some (acc_prompt_tokens s);
                      completion_tokens := Some (acc_completion_tokens s);
                      total_tokens := Some (acc_prompt_tokens s + acc_completion_tokens s);
                      tu_finish_reason := Some "stop" |};
            finish_reason := finish_reason last |}
  end.

(** How the [while] statement is left. *)
Inductive LoopExit (E : Type) : Type :=
| Finished (s : LoopState)
| Threw (e : E).
Arguments Finished {E} s.
Arguments Threw {E} e.

(** What an execution of [handleContinuationLoop] leaves behind. *)
Record Run (E St : Type) : Type := mkRun {
  outcome : result (LoopError E) AdapterResponsePayload;
  calls : list (Call E);
  world : St
}.
Arguments mkRun {E St} _ _ _.
Arguments outcome {E St} _.
Arguments calls {E St} _.
Arguments world {E St} _.

Section Loop.
(** The adapter: any state-passing function; [St] is everything the
    provider may depend on or change. *)
Context {E St : Type}.
Variable sendMessage :
  ChatApiRequest -> string -> string -> St -> result E AdapterResponsePayload * St.
Variables providerApiIdentifier apiKey : string.

(** The [while] loop of lines 47-86.  [fuel] bounds the number of
    iterations the model may unfold; [None] means it was too small. *)
Fixpoint loop (fuel : nat) (s : LoopState) (log : list (Call E)) (w : St)
  : option (LoopExit E * list (Call E) * St) :=
  match fuel with
  | O => None
  | S fuel' =>
      if (continuationCount s <=? MAX_CONTINUATIONS)%nat then
        let '(r, w') := sendMessage (currentRequest s) providerApiIdentifier apiKey w in
        let log' := log ++ [mkCall (currentRequest s) r] in
        match r with
        | Err e => Some (Threw e, log', w')
        | Ok response =>
            let s1 := accumulate s response in
            if is_not_length (finishReason_of response)
               || (MAX_CONTINUATIONS <=? continuationCount s1)%nat
            then Some (Finished s1, log', w')
            else loop fuel' (advance s1 response) log' w'
        end
      else Some (Finished s, log, w)
  end.

Definition handleContinuationLoop (initialApiRequest : ChatApiRequest) (w : St)
  : option (Run E St) :=
  match loop (S MAX_CONTINUATIONS) (initial_state initialApiRequest) [] w with
  | None => None
  | Some (Finished s, log, w') => Some (mkRun (finalize s) log w')
  | Some (Threw e, log, w') => Some (mkRun (Err (AdapterThrew e)) log w')
  end.
End Loop.

(** The responses an execution received, in order. *)
Definition responses {E : Type} (log : list (Call E)) : list AdapterResponsePayload :=
  omap (fun c => match call_result c with Ok r => Some r | Err _ => None end) log.

Definition concat_contents (rs : list AdapterResponsePayload) : string :=
  foldr (fun r acc => (resp_content r +:+ acc)%string) "" rs.

Definition sum_prompt (rs : list AdapterResponsePayload) : Z :=
  foldr (fun r acc => prompt_of r + acc) 0 rs.

Definition sum_completion (rs : list AdapterResponsePayload) : Z :=
  foldr (fun r acc => completion_of r + acc) 0 rs.

(** A call that came back with a response whose inspected reason is
    ["length"]. *)
Definition call_reports_length {E : Type} (c : Call E) : bool :=
  match call_result c with
  | Ok r => negb (is_not_length (finishReason_of r))
  | Err _ => false
  end.

Definition call_returned {E : Type} (c : Call E) : bool :=
  match call_result c with
  | Ok _ => true
  | Err _ => false
  end.

(** The two fields the combined payload overrides. *)
Definition with_content (p : AdapterResponsePayload) (c : string) : AdapterResponsePayload :=
  {| resp_role := resp_role p;
     resp_content := c;
     ai_provider_id := ai_provider_id p;
     system_prompt_id := system_prompt_id p;
     token_usage := token_usage p;
     finish_reason := finish_reason p |}.

Definition with_token_usage (p : AdapterResponsePayload) (tu : option TokenUsage)
  : AdapterResponsePayload :=
  {| resp_role := resp_role p;
     resp_content := resp_content p;
     ai_provider_id := ai_provider_id p;
     system_prompt_id := system_prompt_id p;
     token_usage := tu;
     finish_reason := finish_reason p |}.

(** The token usage the combined payload reports for the responses [rs]. *)
Definition combined_usage (rs : list AdapterResponsePayload) : TokenUsage :=
  {| prompt_tokens := Some (sum_prompt rs);
     completion_tokens := Some (sum_completion rs);
     total_tokens := Some (sum_prompt rs + sum_completion rs);
     tu_finish_reason := Some "stop" |}.

(** A test adapter that plays back a script: each call consumes the next
    entry, and an exhausted script throws. *)
Definition scripted (r : ChatApiRequest) (p k : string)
    (script : list (result unit AdapterResponsePayload))
  : result unit AdapterResponsePayload * list (result unit AdapterResponsePayload) :=
  match script with
  | x :: rest => (x, rest)
  | [] => (Err tt, [])
  end.

(** A test adapter that always returns the same response. *)
Definition constant (resp : AdapterResponsePayload) (r : ChatApiRequest) (p k : string)
    (w : unit) : result unit AdapterResponsePayload * unit :=
  (Ok resp, w).

(** A response with the given content, token counts and reasons. *)
Definition response_of (c : string) (pt ct : Z) (inner outer : option string)
  : AdapterResponsePayload :=
  {| resp_role := "assistant";
     resp_content := c;
     ai_provider_id := Some "provider";
     system_prompt_id := None;
     token_usage := Some (mkTokenUsage (Some pt) (Some ct) (Some (pt + ct)) inner);
     finish_reason := outer |}.

Definition empty_request : ChatApiRequest :=
  mkChatApiRequest (Some "hi") (Some "provider") None None None.

End Continue.

(** ** [_shared/ai_service/anthropic_adapter.ts] *)

Module Anthropic.

Definition ANTHROPIC_API_BASE : string := "https://api.anthropic.com/v1".
Definition ANTHROPIC_VERSION : string := "2023-06-01".

(** The body of the POST request. *)
Record AnthropicPayload : Type := mkAnthropicPayload {
  model : string;
  system : option string;
  payload_messages : list ChatMessage;
  max_tokens : Z
}.

(** The arguments of [fetch]. *)
Record FetchInit : Type := mkFetchInit {
  fetch_url : string;
  fetch_method : string;
  header_content_type : string;
  header_x_api_key : string;
  header_anthropic_version : string;
  body : AnthropicPayload
}.

Record ContentBlock : Type := mkContentBlock {
  block_type : option string;
  block_text : string
}.

Record Usage : Type := mkUsage {
  input_tokens : option Z;
  output_tokens : option Z
}.

(** The part of the provider's JSON answer the adapter reads. *)
Record AnthropicJson : Type := mkAnthropicJson {
  json_content : option (list ContentBlock);
  usage : option Usage;
  stop_reason : option string
}.

(** What [fetch] resolves to; [json = None] stands for a body that
    [response.json()] rejects. *)
Record HttpResponse : Type := mkHttpResponse {
  ok : bool;
  status : Z;
  statusText : string;
  json : option AnthropicJson
}.

(** The errors [sendMessage] throws, in the order of the source:
    - "Cannot send request to Anthropic: No valid messages to send."
    - "Cannot send request to Anthropic: message history format invalid."
    - the rejection of [fetch] (no answer from the network)
    - "Anthropic API request failed: <status> <statusText>"
    - the rejection of [response.json()]
    - "Received empty response from Anthropic." *)
Inductive AdapterError : Type :=
| NoValidMessages
| HistoryFormatInvalid
| FetchRejected
| ApiRequestFailed (status : Z) (statusText : string)
| InvalidJson
| EmptyResponse.

(** *** String helpers *)

Definition ascii_lower (c : ascii) : ascii :=
  let n := N_of_ascii c in
  if ((65 <=? n) && (n <=? 90))%N then ascii_of_N (n + 32) else c.

Fixpoint has_prefix_ci (p s : string) : option string :=
  match p, s with
  | EmptyString, _ => Some s
  | String a p', String b s' =>
      if Ascii.eqb (ascii_lower a) (ascii_lower b) then has_prefix_ci p' s' else None
  | String _ _, EmptyString => None
  end.

(** [modelIdentifier.replace(/^anthropic-/i, '')]. *)
Definition strip_anthropic_prefix (modelIdentifier : string) : string :=
  match has_prefix_ci "anthropic-" modelIdentifier with
  | Some rest => rest
  | None => modelIdentifier
  end.

(** [String.prototype.trim] removes the white space and line terminators
    of ECMAScript from both ends: TAB, LF, VT, FF, CR, SPACE, U+00A0,
    U+1680, U+2000 to U+200A, U+2028, U+2029, U+202F, U+205F, U+3000 and
    U+FEFF.  In the UTF-8 encoding the strings hold, these are the
    following sequences of one, two or three bytes. *)

(** One byte: 09 to 0D and 20. *)
Definition is_space (c : ascii) : bool :=
  let n := N_of_ascii c in
  ((9 <=? n) && (n <=? 13) || (n =? 32))%N.

(** Two bytes: U+00A0 is C2 A0. *)
Definition is_space2 (a b : ascii) : bool :=
  ((N_of_ascii a =? 194) && (N_of_ascii b =? 160))%N.

(** Three bytes: U+1680 is E1 9A 80; U+2000 to U+200A are E2 80 80 to
    E2 80 8A; U+2028, U+2029 and U+202F are E2 80 A8, E2 80 A9 and
    E2 80 AF; U+205F is E2 81 9F; U+3000 is E3 80 80; U+FEFF is
    EF BB BF. *)
Definition is_space3 (a b c : ascii) : bool :=
  let x := N_of_ascii a in
  let y := N_of_ascii b in
  let z := N_of_ascii c in
  ((x =? 225) && (y =? 154) && (z =? 128)
   || (x =? 226) && (y =? 128)
      && ((128 <=? z) && (z <=? 138) || (z =? 168) || (z =? 169) || (z =? 175))
   || (x =? 226) && (y =? 129) && (z =? 159)
   || (x =? 227) && (y =? 128) && (z =? 128)
   || (x =? 239) && (y =? 187) && (z =? 191))%N.

(** The string is exactly one white-space character. *)
Definition is_white_space (s : string) : bool :=
  match s with
  | String a EmptyString => is_space a
  | String a (String b EmptyString) => is_space2 a b
  | String a (String b (String c EmptyString)) => is_space3 a b c
  | _ => false
  end.

(** Drop white-space characters while the string starts with one. *)
Fixpoint trim_start (s : string) : string :=
  match s with
  | EmptyString => EmptyString
  | String a s1 =>
      if is_space a then trim_start s1 else
      match s1 with
      | String b s2 =>
          if is_space2 a b then trim_start s2 else
          match s2 with
          | String c s3 => if is_space3 a b c then trim_start s3 else s
          | EmptyString => s
          end
      | EmptyString => s
      end
  end.

(** Drop white-space characters while the string ends with one: what is
    left of [String c s'] is [c] followed by what is left of [s'], unless
    that is a single white-space character. *)
Fixpoint trim_end (s : string) : string :=
  match s with
  | EmptyString => EmptyString
  | String c s' =>
      if is_white_space (String c (trim_end s')) then EmptyString
      else String c (trim_end s')
  end.

Definition trim (s : string) : string := trim_end (trim_start s).

(** *** Building the request (lines 50-95) *)

(** [[...(request.messages ?? [])]] plus the new message when truthy. *)
Definition combinedMessages (request : ChatApiRequest) : list ChatMessage :=
  default [] (messages request) ++
  match message request with
  | Some m => if negb (String.eqb m "") then [mkChatMessage "user" m] else []
  | None => []
  end.

(** The first [for] loop: the last non-empty system message becomes the
    system prompt, user and assistant messages are kept in order, and
    everything else is dropped. *)
Fixpoint scan (ms : list ChatMessage) (systemPrompt : string)
    (preliminaryMessages : list ChatMessage) : string * list ChatMessage :=
  match ms with
  | [] => (systemPrompt, preliminaryMessages)
  | m :: ms' =>
      if String.eqb (role m) "system" && negb (String.eqb (content m) "") then
        scan ms' (content m) preliminaryMessages
      else if String.eqb (role m) "user" || String.eqb (role m) "assistant" then
        scan ms' systemPrompt (preliminaryMessages ++ [mkChatMessage (role m) (content m)])
      else scan ms' systemPrompt preliminaryMessages
  end.

Definition flip_role (expectedRole : string) : string :=
  if String.eqb expectedRole "user" then "assistant" else "user".

(** The second [for] loop: keep a message only when it has the expected
    role, then expect the other one. *)
Fixpoint alternate (ms : list ChatMessage) (expectedRole : string)
    (anthropicMessages : list ChatMessage) : list ChatMessage :=
  match ms with
  | [] => anthropicMessages
  | m :: ms' =>
      if String.eqb (role m) expectedRole then
        alternate ms' (flip_role expectedRole) (anthropicMessages ++ [m])
      else alternate ms' expectedRole anthropicMessages
  end.

Definition anthropicMessages_of (request : ChatApiRequest) : list ChatMessage :=
  alternate (snd (scan (combinedMessages request) "" [])) "user" [].

(** [(m && m > 0) ? m : 4096]. *)
Definition maxTokensForPayload (request : ChatApiRequest) : Z :=
  match max_tokens_to_generate request with
  | Some m => if (m =? 0) then 4096 else if (0 <? m) then m else 4096
  | None => 4096
  end.

Definition buildPayload (request : ChatApiRequest) (modelIdentifier : string)
  : result AdapterError AnthropicPayload :=
  let modelApiName := strip_anthropic_prefix modelIdentifier in
  let systemPrompt := fst (scan (combinedMessages request) "" []) in
  let anthropicMessages := anthropicMessages_of request in
  match last anthropicMessages with
  | None => Err NoValidMessages
  | Some lastMessage =>
      if negb (String.eqb (role lastMessage) "user") then Err HistoryFormatInvalid
      else
        Ok {| model := modelApiName;
              system := if String.eqb systemPrompt "" then None else Some systemPrompt;
              payload_messages := anthropicMessages;
              max_tokens := maxTokensForPayload request |}
  end.

Definition fetchInit (apiKey : string) (p : AnthropicPayload) : FetchInit :=
  {| fetch_url := (ANTHROPIC_API_BASE +:+ "/messages")%string;
     fetch_method := "POST";
     header_content_type := "application/json";
     header_x_api_key := apiKey;
     header_anthropic_version := ANTHROPIC_VERSION;
     body := p |}.

(** *** Reading the answer (lines 111-156) *)

(** [jsonResponse.content?.[0]?.type === 'text' ? ...text.trim() : '']. *)
Definition assistantMessageContent (j : AnthropicJson) : string :=
  match json_content j with
  | Some (b :: _) =>
      match block_type b with
      | Some t => if String.eqb t "text" then trim (block_text b) else ""
      | None => ""
      end
  | _ => ""
  end.

Definition tokenUsage_of (j : AnthropicJson) : option TokenUsage :=
  match usage j with
  | Some u =>
      Some {| prompt_tokens := input_tokens u;
              completion_tokens := output_tokens u;
              total_tokens := Some (or_zero (input_tokens u) + or_zero (output_tokens u));
              tu_finish_reason := None |}
  | None => None
  end.

(** The [switch] on [stop_reason], entered only when it is truthy. *)
Definition standardize_finish_reason (stop_reason : option string) : string :=
  if truthy stop_reason then
    match stop_reason with
    | Some s =>
        if String.eqb s "end_turn" then "stop"
        else if String.eqb s "stop_sequence" then "stop"
        else if String.eqb s "max_tokens" then "length"
        else if String.eqb s "tool_use" then "tool_calls"
        else "unknown"
    | None => "unknown"
    end
  else "unknown".

Definition readResponse (request : ChatApiRequest) (j : AnthropicJson)
  : result AdapterError AdapterResponsePayload :=
  let c := assistantMessageContent j in
  if String.eqb c "" then Err EmptyResponse
  else
    Ok {| resp_role := "assistant";
          resp_content := c;
          ai_provider_id := providerId request;
          system_prompt_id :=
            match promptId request with
            | Some p => if String.eqb p "__none__" then None else Some p
            | None => None
            end;
          token_usage := tokenUsage_of j;
          finish_reason := Some (standardize_finish_reason (stop_reason j)) |}.

(** What one call of [sendMessage] leaves behind: its result, the
    requests that went out, and the world after it. *)
Record Exchange (W : Type) : Type := mkExchange {
  returned : result AdapterError AdapterResponsePayload;
  sent : list FetchInit;
  after : W
}.
Arguments mkExchange {W} _ _ _.
Arguments returned {W} _.
Arguments sent {W} _.
Arguments after {W} _.

Section Adapter.
Context {W : Type}.
(** The network: [fetch] as a state-passing function; [None] is a
    rejected promise. *)
Variable fetch : FetchInit -> W -> option HttpResponse * W.
(** The constructor argument [apiKey]. *)
Variable apiKey : string.

Definition sendMessage (request : ChatApiRequest) (modelIdentifier : string) (w : W)
  : Exchange W :=
  match buildPayload request modelIdentifier with
  | Err e => mkExchange (Err e) [] w
  | Ok anthropicPayload =>
      let init := fetchInit apiKey anthropicPayload in
      match fetch init w with
      | (None, w') => mkExchange (Err FetchRejected) [init] w'
      | (Some response, w') =>
          if negb (ok response) then
            mkExchange (Err (ApiRequestFailed (status response) (statusText response)))
              [init] w'
          else
            match json response with
            | None => mkExchange (Err InvalidJson) [init] w'
            | Some jsonResponse => mkExchange (readResponse request jsonResponse) [init] w'
            end
      end
  end.
End Adapter.

(** *** Well-formed message sequences *)

(** Roles alternate, the first one being [expected]. *)
Fixpoint alternates_from (expected : string) (ms : list ChatMessage) : bool :=
  match ms with
  | [] => true
  | m :: ms' => String.eqb (role m) expected && alternates_from (flip_role expected) ms'
  end.

Definition is_user_or_assistant (m : ChatMessage) : bool :=
  String.eqb (role m) "user" || String.eqb (role m) "assistant".

Definition starts_with_user (ms : list ChatMessage) : bool :=
  match ms with
  | m :: _ => String.eqb (role m) "user"
  | [] => false
  end.

Definition ends_with_user (ms : list ChatMessage) : bool :=
  match last ms with
  | Some m => String.eqb (role m) "user"
  | None => false
  end.


(** *** The claims' vocabulary, written after the specification *)





(** The specification's rule for [max_tokens]: 4096 when the request's
    value is undefined, zero or negative, the value itself when it is
    positive. *)
Definition spec_max_tokens (requested : option Z) : Z :=
  match requested with
  | None => 4096
  | Some m => if (m <=? 0) then 4096 else m
  end.

(** "An adapter with this way of counting tokens and this budget never
    sends a prompt that is over the budget": what an input-budget check
    in [sendMessage] would guarantee. *)
Definition enforces_input_budget (countTokens : AnthropicPayload -> Z)
    (context_window_tokens : Z) : Prop :=
  forall (fetch : FetchInit -> unit -> option HttpResponse * unit) (apiKey : string)
         (request : ChatApiRequest) (modelIdentifier : string) (p : AnthropicPayload),
    buildPayload request modelIdentifier = Ok p ->
    countTokens p > context_window_tokens ->
    sent (sendMessage fetch apiKey request modelIdentifier tt) = [] /\
    exists e, returned (sendMessage fetch apiKey request modelIdentifier tt) = Err e.

(** A provider that answers every request with the same text. *)
Definition echo_fetch (text : string) (stop : option string) (init : FetchInit) (w : unit)
  : option HttpResponse * unit :=
  (Some (mkHttpResponse true 200 "OK"
           (Some (mkAnthropicJson (Some [mkContentBlock (Some "text") text])
                    (Some (mkUsage (Some 10) (Some 5))) stop))), w).

Definition request_of (history : list ChatMessage) (m : option string) (mt : option Z)
  : ChatApiRequest :=
  mkChatApiRequest m (Some "provider") (Some "__none__") (Some history) mt.

End Anthropic.

(** ** The canonical path builder *)

Module Canonical.

Record SourceDocument : Type := mkSourceDocument {
  id : string;
  contribution_type : string;
  model_name : string;
  document_relationships : list (string * string)
}.

Record CanonicalPathParams : Type := mkCanonicalPathParams {
  contributionType : string;
  sourceModelSlugs : option (list string);
  sourceAnchorType : option string;
  sourceAnchorModelSlug : option string;
  pairedModelSlug : option string
}.

(** Modelled from the spec: the slug list of [createCanonicalPathParams],
    which is not among the sources: "collects every distinct model slug
    across sourceDocs, deduplicates, sorts lexicographically ascending".
    The order is that of [String.compare], character code by character
    code. *)
Definition slugs_of (sourceDocs : list SourceDocument) : list string :=
  merge_sort String.le (remove_dups (map model_name sourceDocs)).

(** Modelled from the spec: [createCanonicalPathParams] of
    [dialectic-worker/strategies/canonical_context_builder.ts], which is
    not among the sources.  The slugs are [slugs_of]; the anchor gives
    the two anchor fields; when exactly one document other than the
    anchor takes part, its slug is the paired slug. *)
Definition createCanonicalPathParams (sourceDocs : list SourceDocument)
    (outputType : string) (anchorDoc : SourceDocument) : CanonicalPathParams :=
  {| contributionType := outputType;
     sourceModelSlugs := Some (slugs_of sourceDocs);
     sourceAnchorType := Some (contribution_type anchorDoc);
     sourceAnchorModelSlug := Some (model_name anchorDoc);
     pairedModelSlug :=
       match filter (fun d => id d <> id anchorDoc) sourceDocs with
       | [d] => Some (model_name d)
       | _ => None
       end |}.

End Canonical.

(** ** More of [chat/continue.ts]: the requests and the adapter state *)

Module ContinueTrace.
Import Continue.

(** The request after the partial answers [cs] have been pushed onto its
    history, oldest first. *)
Definition pushed (r : ChatApiRequest) (cs : list string) : ChatApiRequest :=
  foldl push_assistant r cs.

(** The requests of successive iterations: the current one, then the one
    after each partial answer. *)
Fixpoint requests_from (r : ChatApiRequest) (cs : list string) : list ChatApiRequest :=
  r :: match cs with
       | [] => []
       | c :: cs' => requests_from (push_assistant r c) cs'
       end.

Section Replay.
Context {E St : Type}.
Variable sendMessage :
  ChatApiRequest -> string -> string -> St -> result E AdapterResponsePayload * St.
Variables providerApiIdentifier apiKey : string.

(** Handing the requests [reqs] to the adapter one after the other, each
    in the state the previous call left. *)
Fixpoint replay (reqs : list ChatApiRequest) (w : St) : list (Call E) * St :=
  match reqs with
  | [] => ([], w)
  | r :: rest =>
      let '(res, w') := sendMessage r providerApiIdentifier apiKey w in
      let '(cs, w'') := replay rest w' in
      (mkCall r res :: cs, w'')
  end.
End Replay.

End ContinueTrace.

(** ** More of [anthropic_adapter.ts]: [listModels] and helpers *)

Module AnthropicModels.
Import Anthropic.

(** An entry of the provider's model list ([AnthropicModelItem]). *)
Record AnthropicModelItem : Type := mkAnthropicModelItem {
  item_id : string;
  item_name : option string
}.

Record ProviderModelInfo : Type := mkProviderModelInfo {
  api_identifier : string;
  name : string;
  description : option string
}.

(** The arguments of the GET request. *)
Record FetchModelsInit : Type := mkFetchModelsInit {
  models_url : string;
  models_method : string;
  models_x_api_key : string;
  models_anthropic_version : string
}.

(** What [fetch] resolves to for the model list; [models_json = None] is
    a body [response.json()] rejects, and [data = None] a body without a
    [data] array. *)
Record ModelsJson : Type := mkModelsJson {
  data : option (list AnthropicModelItem)
}.

Record ModelsResponse : Type := mkModelsResponse {
  models_ok : bool;
  models_status : Z;
  models_statusText : string;
  models_json : option ModelsJson
}.

(** The errors of [listModels]:
    - the rejection of [fetch]
    - "Anthropic API request failed fetching models: <status> <statusText>"
    - the rejection of [response.json()]
    - "Invalid response format received from Anthropic models API." *)
Inductive ListModelsError : Type :=
| ModelsFetchRejected
| ModelsRequestFailed (status : Z) (statusText : string)
| ModelsInvalidJson
| ModelsInvalidFormat.

Definition modelsInit (apiKey : string) : FetchModelsInit :=
  {| models_url := (ANTHROPIC_API_BASE +:+ "/models")%string;
     models_method := "GET";
     models_x_api_key := apiKey;
     models_anthropic_version := ANTHROPIC_VERSION |}.

(** The [map] callback of lines 193-198. *)
Definition to_model_info (item : AnthropicModelItem) : ProviderModelInfo :=
  {| api_identifier := ("anthropic-" +:+ item_id item)%string;
     name := if truthy (item_name item) then default "" (item_name item) else item_id item;
     description := None |}.

Section ListModels.
Context {W : Type}.
Variable fetchModels : FetchModelsInit -> W -> option ModelsResponse * W.
Variable apiKey : string.

Definition listModels (w : W) : result ListModelsError (list ProviderModelInfo) * W :=
  match fetchModels (modelsInit apiKey) w with
  | (None, w') => (Err ModelsFetchRejected, w')
  | (Some response, w') =>
      if negb (models_ok response) then
        (Err (ModelsRequestFailed (models_status response) (models_statusText response)), w')
      else
        match models_json response with
        | None => (Err ModelsInvalidJson, w')
        | Some jsonResponse =>
            match data jsonResponse with
            | None => (Err ModelsInvalidFormat, w')
            | Some items => (Ok (map to_model_info items), w')
            end
        end
  end.
End ListModels.

(** *** Vocabulary for the properties of [sendMessage] *)

(** The string consists of white-space characters only. *)
Fixpoint all_space (s : string) : bool :=
  match s with
  | EmptyString => true
  | String a s1 =>
      if is_space a then all_space s1 else
      match s1 with
      | String b s2 =>
          if is_space2 a b then all_space s2 else
          match s2 with
          | String c s3 => is_space3 a b c && all_space s3
          | EmptyString => false
          end
      | EmptyString => false
      end
  end.

Definition is_system_prompt (m : ChatMessage) : bool :=
  String.eqb (role m) "system" && negb (String.eqb (content m) "").

Definition is_user (m : ChatMessage) : bool := String.eqb (role m) "user".

(** A provider answering the model list. *)
Definition models_fetch (items : list AnthropicModelItem) (init : FetchModelsInit) (w : unit)
  : option ModelsResponse * unit :=
  (Some (mkModelsResponse true 200 "OK" (Some (mkModelsJson (Some items)))), w).

End AnthropicModels.

(** ** The continuation loop driven by the Anthropic adapter *)

Module Compose.
Import Continue Anthropic.

(** [AnthropicAdapter.sendMessage] as the [adapter.sendMessage] of the
    loop: the third argument of the call is ignored by the two-parameter
    method; the state is the network's together with the requests that
    went out. *)
Definition as_adapter {W : Type} (fetch : FetchInit -> W -> option HttpResponse * W)
    (constructorApiKey : string)
    (request : ChatApiRequest) (providerApiIdentifier apiKey : string)
    (st : W * list FetchInit)
  : result AdapterError AdapterResponsePayload * (W * list FetchInit) :=
  let x := sendMessage fetch constructorApiKey request providerApiIdentifier (fst st) in
  (returned x, (after x, snd st ++ sent x)).

End Compose.

(** ** [packages/store/src/walletStore.ts] *)

Module Wallet.

Record Organization : Type := mkOrganization {
  org_id : string;
  org_name : string;
  token_usage_policy : option string
}.

(** What [useOrganizationStore.getState()] gives. *)
Record OrgStoreState : Type := mkOrgStoreState {
  userOrganizations : list Organization;
  currentOrganizationId : option string;
  org_isLoading : bool
}.

Inductive WalletDecisionOutcome : Type :=
| use_personal_wallet
| loading
| error (message : string)
| org_wallet_not_available_policy_org (orgId : string)
| user_consent_required (orgId : string)
| use_personal_wallet_for_org (orgId : string)
| user_consent_refused (orgId : string).

Record TokenWallet : Type := mkTokenWallet {
  walletId : string;
  balance : string;
  currency : string;
  updatedAt : Z
}.

(** A JavaScript object used as a dictionary with string keys that are
    not array indices: its entries in insertion order. *)
Definition Dict (V : Type) : Type := list (string * V).

Fixpoint dict_get {V : Type} (d : Dict V) (k : string) : option V :=
  match d with
  | [] => None
  | (k', v) :: d' => if String.eqb k' k then Some v else dict_get d' k
  end.

(** [{ ...d, [k]: v }]: an existing key keeps its place. *)
Fixpoint dict_set {V : Type} (d : Dict V) (k : string) (v : V) : Dict V :=
  match d with
  | [] => [(k, v)]
  | (k', v') :: d' => if String.eqb k' k then (k', v) :: d' else (k', v') :: dict_set d' k v
  end.

(** The part of the store's state the functions below use.  In
    [userOrgTokenConsent] an absent key is [undefined] and [None] as a
    value is [null]. *)
Record WalletState : Type := mkWalletState {
  personalWallet : option TokenWallet;
  organizationWallets : Dict (option TokenWallet);
  userOrgTokenConsent : Dict (option bool);
  isConsentModalOpen : bool;
  currentChatWalletDecision : option WalletDecisionOutcome
}.

Definition setUserOrgTokenConsent (orgId : string) (consent : bool) (st : WalletState)
  : WalletState :=
  {| personalWallet := personalWallet st;
     organizationWallets := organizationWallets st;
     userOrgTokenConsent := dict_set (userOrgTokenConsent st) orgId (Some consent);
     isConsentModalOpen := isConsentModalOpen st;
     currentChatWalletDecision := currentChatWalletDecision st |}.

Definition clearUserOrgTokenConsent (orgId : string) (st : WalletState) : WalletState :=
  {| personalWallet := personalWallet st;
     organizationWallets := organizationWallets st;
     userOrgTokenConsent := dict_set (userOrgTokenConsent st) orgId None;
     isConsentModalOpen := isConsentModalOpen st;
     currentChatWalletDecision := currentChatWalletDecision st |}.

(** [userOrganizations.find(org => org.id === id)]. *)
Definition find_org (orgs : list Organization) (id : string) : option Organization :=
  List.find (fun org => String.eqb (org_id org) id) orgs.

Definition determineChatWallet (orgStoreState : OrgStoreState) (st : WalletState)
    (newChatContextOrgId : option string) : WalletDecisionOutcome :=
  let relevantOrgDetails :=
    match newChatContextOrgId with
    | Some ctx =>
        if negb (String.eqb ctx "") && negb (String.eqb ctx "personal")
        then find_org (userOrganizations orgStoreState) ctx
        else None
    | None => None
    end in
  let currentConsentState := userOrgTokenConsent st in
  match newChatContextOrgId with
  | None => use_personal_wallet
  | Some ctx =>
      if String.eqb ctx "personal" || String.eqb ctx "" then use_personal_wallet
      else
        match relevantOrgDetails with
        | None =>
            if match currentOrganizationId orgStoreState with
               | Some cur => String.eqb cur ctx
               | None => false
               end && org_isLoading orgStoreState
            then loading
            else error ("Organization details for " +:+ ctx +:+
                        " are not available in the current list.")
        | Some details =>
            let orgTokenPolicy :=
              if truthy (token_usage_policy details)
              then default "" (token_usage_policy details)
              else "member_tokens" in
            if String.eqb orgTokenPolicy "organization_tokens" then
              org_wallet_not_available_policy_org ctx
            else if String.eqb orgTokenPolicy "member_tokens" then
              match dict_get currentConsentState ctx with
              | None => user_consent_required ctx
              | Some (Some true) => use_personal_wallet_for_org ctx
              | Some (Some false) => user_consent_refused ctx
              | Some None => user_consent_required ctx
              end
            else if negb (String.eqb orgTokenPolicy "member_tokens")
                    && negb (String.eqb orgTokenPolicy "organization_tokens") then
              error ("Unexpected token usage policy for " +:+ ctx +:+ ": " +:+ orgTokenPolicy)
            else
              error ("Unhandled wallet determination case for org " +:+ ctx +:+ ".")
        end
  end.

(** [Object.entries(wallets).find(([, wallet]) => wallet?.walletId === id)]. *)
Definition find_org_wallet (wallets : Dict (option TokenWallet)) (id : string)
  : option (string * option TokenWallet) :=
  List.find (fun entry => match snd entry with
                          | Some wallet => String.eqb (walletId wallet) id
                          | None => false
                          end) wallets.

Definition with_balance (wallet : TokenWallet) (newBalance : string) (now : Z) : TokenWallet :=
  {| walletId := walletId wallet;
     balance := newBalance;
     currency := currency wallet;
     updatedAt := now |}.

(** The second half of [_handleWalletUpdateNotification]: the first
    organization wallet with that id, if any. *)
Definition update_org_wallet (id newBalance : string) (now : Z) (st : WalletState)
  : WalletState :=
  match find_org_wallet (organizationWallets st) id with
  | Some (orgId, Some orgWallet) =>
      {| personalWallet := personalWallet st;
         organizationWallets :=
           dict_set (organizationWallets st) orgId
             (Some (with_balance orgWallet newBalance now));
         userOrgTokenConsent := userOrgTokenConsent st;
         isConsentModalOpen := isConsentModalOpen st;
         currentChatWalletDecision := currentChatWalletDecision st |}
  | _ => st
  end.

(** [_handleWalletUpdateNotification]; [now] is [new Date()]. *)
Definition handleWalletUpdateNotification (id newBalance : string) (now : Z)
    (st : WalletState) : WalletState :=
  match personalWallet st with
  | Some wallet =>
      if String.eqb (walletId wallet) id then
        {| personalWallet := Some (with_balance wallet newBalance now);
           organizationWallets := organizationWallets st;
           userOrgTokenConsent := userOrgTokenConsent st;
           isConsentModalOpen := isConsentModalOpen st;
           currentChatWalletDecision := currentChatWalletDecision st |}
      else update_org_wallet id newBalance now st
  | None => update_org_wallet id newBalance now st
  end.

(** The wallet ids held in the state. *)
Definition org_wallet_ids (wallets : Dict (option TokenWallet)) : list string :=
  omap (fun entry => walletId <$> snd entry) wallets.

Definition initialWalletState : WalletState :=
  mkWalletState None [] [] false None.

End Wallet.

(** ** [packages/store/src/ai.SendMessage.ts] *)

Module Store.

(** A JSON value, as far as [typeof] and truthiness tell values apart. *)
Inductive Json : Type :=
| JNull
| JBool (b : bool)
| JNumber (n : Z)
| JString (s : string)
| JArray
| JObject.

Definition json_truthy (j : Json) : bool :=
  match j with
  | JNull => false
  | JBool b => b
  | JNumber n => negb (n =? 0)
  | JString s => negb (String.eqb s "")
  | JArray | JObject => true
  end.

Definition json_typeof (j : Json) : string :=
  match j with
  | JNull | JArray | JObject => "object"
  | JBool _ => "boolean"
  | JNumber _ => "number"
  | JString _ => "string"
  end.

(** [a || d] on strings. *)
Definition or_else (a : option string) (d : string) : string :=
  match a with
  | Some s => if String.eqb s "" then d else s
  | None => d
  end.

(** A chat message of the store ([ChatMessage] of [@paynless/types]). *)
Record StoreMessage : Type := mkStoreMessage {
  sm_id : string;
  sm_chat_id : option string;
  sm_role : string;
  sm_content : string;
  sm_status : option string;
  sm_token_usage : option Json
}.

(** The UTF-16 code units of a string, which is how JavaScript sees it:
    [length] counts them and [substring] cuts between them.  A character
    of one, two or three bytes is one code unit, a character of four
    bytes is a surrogate pair. *)
Fixpoint utf16 (s : string) : list N :=
  match s with
  | EmptyString => []
  | String a s1 =>
      let x := N_of_ascii a in
      if (x <? 128)%N then x :: utf16 s1
      else
        match s1 with
        | String b s2 =>
            let y := (N_of_ascii b mod 64)%N in
            if (x <? 224)%N then ((x mod 32) * 64 + y)%N :: utf16 s2
            else
              match s2 with
              | String c s3 =>
                  let z := (N_of_ascii c mod 64)%N in
                  if (x <? 240)%N then ((x mod 16) * 4096 + y * 64 + z)%N :: utf16 s3
                  else
                    match s3 with
                    | String d s4 =>
                        let u := (N_of_ascii d mod 64)%N in
                        let v := ((x mod 8) * 262144 + y * 4096 + z * 64 + u - 65536)%N in
                        (55296 + v / 1024)%N :: (56320 + v mod 1024)%N :: utf16 s4
                    | EmptyString => []
                    end
              | EmptyString => []
              end
        | EmptyString => []
        end
  end.

(** A chat of the chat lists.  The title is cut out of a message by
    [substring], possibly in the middle of a surrogate pair, so it is
    kept as its code units. *)
Record Chat : Type := mkChat {
  chat_id : string;
  title : list N;
  user_id : option string;
  organization_id : option string;
  created_at : string;
  updated_at : string;
  chat_system_prompt_id : option string
}.

(** The request of the store to the chat API.  The optional fields are
    present only when the spread put them in. *)
Record ApiRequest : Type := mkApiRequest {
  req_message : string;
  req_providerId : string;
  req_promptId : string;
  req_chatId : option string;
  req_organizationId : option string;
  req_rewindFromMessageId : option string;
  req_contextMessages : option (list ChatMessage);
  req_continue_until_complete : option bool
}.

Record ApiError : Type := mkApiError {
  err_message : option string;
  err_code : option string
}.

Record ChatSuccess : Type := mkChatSuccess {
  userMessage : option StoreMessage;
  assistantMessage : option StoreMessage;
  data_chatId : option string;
  isRewind : option bool
}.

Record ApiResponse : Type := mkApiResponse {
  resp_error : option ApiError;
  resp_data : option ChatSuccess
}.

Record InternalProcessResult : Type := mkInternalProcessResult {
  success : bool;
  ipr_error : option string;
  errorCode : option string;
  finalUserMessage : option StoreMessage;
  ipr_assistantMessage : option StoreMessage;
  newlyCreatedChatId : option string;
  actualCostWalletTokens : option Z;
  wasRewind : option bool
}.

Record CoreParams : Type := mkCoreParams {
  messageContent : string;
  targetProviderId : string;
  targetPromptId : option string;
  targetChatId : option string;
  selectedContextMessages : option (list ChatMessage);
  effectiveOrganizationId : option string;
  token : string;
  cp_rewindTargetMessageId : option string;
  cp_continueUntilComplete : option bool
}.

(** Lines 38-47. *)
Definition build_apiRequest (params : CoreParams) : ApiRequest :=
  {| req_message := messageContent params;
     req_providerId := targetProviderId params;
     req_promptId := or_else (targetPromptId params) "__none__";
     req_chatId := if truthy (targetChatId params) then targetChatId params else None;
     req_organizationId :=
       if truthy (effectiveOrganizationId params) then effectiveOrganizationId params else None;
     req_rewindFromMessageId :=
       if truthy (cp_rewindTargetMessageId params) then cp_rewindTargetMessageId params
       else None;
     req_contextMessages := selectedContextMessages params;
     req_continue_until_complete :=
       match cp_continueUntilComplete params with
       | Some true => Some true
       | _ => None
       end |}.

(** Lines 75-83: the cost read off the assistant message. *)
Definition cost_of (assistant : option StoreMessage) : option Z :=
  match assistant with
  | Some a =>
      match sm_token_usage a with
      | Some usage =>
          if json_truthy usage && String.eqb (json_typeof usage) "object" then
            if json_truthy usage && String.eqb (json_typeof usage) "number" then
              match usage with
              | JNumber n => Some n
              | _ => None
              end
            else None
          else None
      | None => None
      end
  | None => None
  end.

Definition failure (msg : string) (code : string) : InternalProcessResult :=
  {| success := false;
     ipr_error := Some msg;
     errorCode := Some code;
     finalUserMessage := None;
     ipr_assistantMessage := None;
     newlyCreatedChatId := None;
     actualCostWalletTokens := None;
     wasRewind := None |}.

Section Core.
(** [callChatApi]: the request and the [Authorization] header in, a
    response or the message of what was thrown out. *)
Variable callChatApi : ApiRequest -> string -> result string ApiResponse.

Definition coreMessageProcessing (params : CoreParams) : InternalProcessResult :=
  let apiRequest := build_apiRequest params in
  match callChatApi apiRequest ("Bearer " +:+ token params) with
  | Err thrown => failure thrown "UNEXPECTED_PROCESSING_ERROR"
  | Ok response =>
      match resp_error response, resp_data response with
      | Some e, _ => failure (or_else (err_message e) "API error") (or_else (err_code e) "API_ERROR")
      | None, None => failure "API error" "API_ERROR"
      | None, Some d =>
          {| success := true;
             ipr_error := None;
             errorCode := None;
             finalUserMessage := userMessage d;
             ipr_assistantMessage := assistantMessage d;
             newlyCreatedChatId := data_chatId d;
             actualCostWalletTokens := cost_of (assistantMessage d);
             wasRewind := isRewind d |}
      end
  end.
End Core.

(** *** The state of the AI store *)

Record ChatsByContext : Type := mkChatsByContext {
  personal : option (list Chat);
  orgs : gmap string (list Chat)
}.

Record AiState : Type := mkAiState {
  currentChatId : option string;
  rewindTargetMessageId : option string;
  newChatContext : option string;
  selectedProviderId : option string;
  selectedPromptId : option string;
  messagesByChatId : gmap string (list StoreMessage);
  selectedMessagesMap : gmap string (gmap string bool);
  continueUntilComplete : option bool;
  isLoadingAiResponse : bool;
  aiError : option string;
  pendingAction : option string;
  chatsByContext : ChatsByContext
}.

Record ActiveWalletInfo : Type := mkActiveWalletInfo {
  wallet_status : string;
  wallet_type : option string;
  wallet_orgId : option string;
  wallet_message : option string
}.

Record PendingActionDetails : Type := mkPendingActionDetails {
  endpoint : string;
  pa_method : string;
  pa_body : ApiRequest;
  returnPath : string
}.

(** Everything [handleSendMessage] can change or do. *)
Record World : Type := mkWorld {
  aiState : AiState;
  loginNavigations : nat;
  localStorage : list (string * PendingActionDetails);
  apiCalls : list (ApiRequest * string)
}.

Record SendData : Type := mkSendData {
  sd_message : string;
  sd_chatId : option string;
  sd_contextMessages : option (list ChatMessage)
}.

(** [setAiState] with the three keys most calls give. *)
Definition set_status (st : AiState) (loading : bool) (err : option string)
    (pending : option string) : AiState :=
  {| currentChatId := currentChatId st;
     rewindTargetMessageId := rewindTargetMessageId st;
     newChatContext := newChatContext st;
     selectedProviderId := selectedProviderId st;
     selectedPromptId := selectedPromptId st;
     messagesByChatId := messagesByChatId st;
     selectedMessagesMap := selectedMessagesMap st;
     continueUntilComplete := continueUntilComplete st;
     isLoadingAiResponse := loading;
     aiError := err;
     pendingAction := pending;
     chatsByContext := chatsByContext st |}.

Definition with_messages (st : AiState) (m : gmap string (list StoreMessage)) : AiState :=
  {| currentChatId := currentChatId st;
     rewindTargetMessageId := rewindTargetMessageId st;
     newChatContext := newChatContext st;
     selectedProviderId := selectedProviderId st;
     selectedPromptId := selectedPromptId st;
     messagesByChatId := m;
     selectedMessagesMap := selectedMessagesMap st;
     continueUntilComplete := continueUntilComplete st;
     isLoadingAiResponse := isLoadingAiResponse st;
     aiError := aiError st;
     pendingAction := pendingAction st;
     chatsByContext := chatsByContext st |}.

(** Lines 237-239 and 253-255: the optimistic message is taken out of
    its chat (the key is written even when it was absent). *)
Definition remove_temp (st : AiState) (optimisticMessageChatId tempUserMessageId : string)
  : gmap string (list StoreMessage) :=
  <[optimisticMessageChatId :=
      List.filter (fun msg => negb (String.eqb (sm_id msg) tempUserMessageId))
        (default [] (messagesByChatId st !! optimisticMessageChatId))]>
    (messagesByChatId st).

(** Lines 180-202: the context sent along, from the state as read at the
    start of the call. *)
Definition finalContextMessages (isChatRole : string -> bool) (st0 : AiState)
    (provided : option (list ChatMessage))
    (optimisticMessageChatId tempUserMessageId : string) : list ChatMessage :=
  match provided with
  | Some (m :: ms) => m :: ms
  | _ =>
      if negb (String.eqb optimisticMessageChatId "") then
        match messagesByChatId st0 !! optimisticMessageChatId with
        | Some (m :: ms) =>
            let currentSelections :=
              default ∅ (selectedMessagesMap st0 !! optimisticMessageChatId) in
            map (fun msg => mkChatMessage (sm_role msg) (sm_content msg))
              (List.filter (fun msg => isChatRole (sm_role msg))
                 (List.filter
                    (fun msg => negb (String.eqb (sm_id msg) tempUserMessageId)
                                && default false (currentSelections !! sm_id msg))
                    (m :: ms)))
        | _ => []
        end
      else []
  end.

(** [a ?? b] and the first truthy of two strings. *)
Definition first_truthy (a b : option string) : option string :=
  if truthy a then a else if truthy b then b else None.

(** [message.substring(0, 50) + (message.length > 50 ? '...' : '')]. *)
Definition chat_title (message : string) : list N :=
  take 50 (utf16 message) ++
  (if (50 <? length (utf16 message))%nat then utf16 "..." else []).

(** [{ ...m, status: 'sent' }] and [{ ...m, chat_id, status: 'sent' }]. *)
Definition as_sent (m : StoreMessage) : StoreMessage :=
  {| sm_id := sm_id m; sm_chat_id := sm_chat_id m; sm_role := sm_role m;
     sm_content := sm_content m; sm_status := Some "sent";
     sm_token_usage := sm_token_usage m |}.

Definition as_sent_in (m : StoreMessage) (chatId : string) : StoreMessage :=
  {| sm_id := sm_id m; sm_chat_id := Some chatId; sm_role := sm_role m;
     sm_content := sm_content m; sm_status := Some "sent";
     sm_token_usage := sm_token_usage m |}.

(** Lines 276 and 278: what the [map] makes of a message of the
    optimistic chat.  The temporary message becomes the user message of
    the API, or itself in the new chat, marked as sent. *)
Definition processed_message (finalUser : option StoreMessage)
    (tempUserMessageId actualNewChatId : string) (msg : StoreMessage) : StoreMessage :=
  if String.eqb (sm_id msg) tempUserMessageId then
    match finalUser with
    | Some fu => as_sent fu
    | None => as_sent_in msg actualNewChatId
    end
  else msg.

(** [m.id === other?.id]. *)
Definition has_id_of (m : StoreMessage) (other : option StoreMessage) : bool :=
  match other with
  | Some o => String.eqb (sm_id m) (sm_id o)
  | None => false
  end.

(** [list.slice(0, list.findIndex(p))] when the index is not -1. *)
Fixpoint before_first {A : Type} (p : A -> bool) (l : list A) : option (list A) :=
  match l with
  | [] => None
  | a :: l' => if p a then Some [] else (fun pre => a :: pre) <$> before_first p l'
  end.

(** What the success update needs from the call. *)
Record SendContext : Type := mkSendContext {
  sc_message : string;
  sc_inputChatId : option string;
  sc_currentRewindTargetId : option string;
  sc_tempUserMessageId : string;
  sc_optimisticMessageChatId : string;
  sc_organizationIdForApi : option string;
  sc_apiPromptId : string;
  sc_currentUserId : option string;
  sc_now : string
}.

(** Lines 274-298: the messages of the chat after the answer. *)
Definition messagesForChat (ctx : SendContext) (state : AiState)
    (finalUser : option StoreMessage) (assistant : StoreMessage)
    (isActualRewind : bool) (actualNewChatId : string) : list StoreMessage :=
  let tempId := sc_tempUserMessageId ctx in
  let opt := sc_optimisticMessageChatId ctx in
  let current := default [] (messagesByChatId state !! opt) in
  let replaced :=
    match finalUser with
    | Some fu => map (fun msg => if String.eqb (sm_id msg) tempId then as_sent fu else msg) current
    | None =>
        map (fun msg => if String.eqb (sm_id msg) tempId
                        then as_sent_in msg actualNewChatId else msg) current
    end in
  if isActualRewind then
    let processedUserMsgForRewind :=
      List.find (fun m => String.eqb (sm_role m) "user"
                          && (has_id_of m finalUser || String.eqb (sm_id m) tempId)) replaced in
    let newBranchMessages :=
      match processedUserMsgForRewind with
      | Some u => [u; assistant]
      | None => [assistant]
      end in
    let inActual := default [] (messagesByChatId state !! actualNewChatId) in
    let baseHistory :=
      match before_first
              (fun m => match sc_currentRewindTargetId ctx with
                        | Some t => String.eqb (sm_id m) t
                        | None => false
                        end) inActual with
      | Some pre => pre
      | None => List.filter (fun m => negb (String.eqb (sm_id m) tempId)) current
      end in
    List.filter (fun m => negb (String.eqb (sm_id m) tempId) && negb (has_id_of m finalUser))
      baseHistory ++ newBranchMessages
  else if existsb (fun msg => String.eqb (sm_id msg) (sm_id assistant)) replaced
       then replaced
       else replaced ++ [assistant].

(** Lines 266-386: the state update after a successful call. *)
Definition success_update (ctx : SendContext) (finalUser : option StoreMessage)
    (assistant : StoreMessage) (newlyCreated : option string) (wasRewind : option bool)
    (state : AiState) : AiState :=
  let tempId := sc_tempUserMessageId ctx in
  let opt := sc_optimisticMessageChatId ctx in
  let isActualRewind :=
    match wasRewind with
    | Some b => b
    | None => truthy (sc_inputChatId ctx) && truthy (sc_currentRewindTargetId ctx)
    end in
  match first_truthy newlyCreated (sm_chat_id assistant) with
  | None => set_status state false (Some "Internal error: Chat ID missing.") (pendingAction state)
  | Some actualNewChatId =>
      let msgs := messagesForChat ctx state finalUser assistant isActualRewind actualNewChatId in
      let moved := negb (String.eqb opt actualNewChatId) in
      let newMessagesByChatId :=
        if moved && bool_decide (is_Some (messagesByChatId state !! opt))
        then delete opt (<[actualNewChatId := msgs]> (messagesByChatId state))
        else <[actualNewChatId := msgs]> (messagesByChatId state) in
      let selectedAfterDelete :=
        if moved && bool_decide (is_Some (selectedMessagesMap state !! opt))
        then delete opt (selectedMessagesMap state)
        else selectedMessagesMap state in
      let newSelectedMessagesMap :=
        if isActualRewind then
          <[actualNewChatId :=
              foldl (fun sel msg => <[sm_id msg := true]> sel) ∅ msgs]> selectedAfterDelete
        else
          let selections := default ∅ (selectedAfterDelete !! actualNewChatId) in
          let idToSelect :=
            match finalUser with
            | Some fu => if String.eqb (sm_id fu) "" then None else Some (sm_id fu)
            | None => None
            end in
          let idToSelect :=
            match idToSelect with
            | Some i => Some i
            | None =>
                sm_id <$> List.find (fun msg => String.eqb (sm_role msg) "user"
                                                && String.eqb (sm_id msg) tempId) msgs
            end in
          let selections :=
            if truthy idToSelect then <[default "" idToSelect := true]> selections
            else selections in
          <[actualNewChatId := <[sm_id assistant := true]> selections]> selectedAfterDelete in
      let updatedChatsByContext :=
        if moved then
          let newChatEntry :=
            {| chat_id := actualNewChatId;
               title := chat_title (sc_message ctx);
               user_id := sc_currentUserId ctx;
               organization_id := sc_organizationIdForApi ctx;
               created_at := sc_now ctx;
               updated_at := sc_now ctx;
               chat_system_prompt_id :=
                 if String.eqb (sc_apiPromptId ctx) "__none__" then None
                 else Some (sc_apiPromptId ctx) |} in
          match sc_organizationIdForApi ctx with
          | Some org =>
              if negb (String.eqb org "") && negb (String.eqb org "personal") then
                {| personal := personal (chatsByContext state);
                   orgs := <[org := default [] (orgs (chatsByContext state) !! org)
                                      ++ [newChatEntry]]> (orgs (chatsByContext state)) |}
              else
                {| personal := Some (default [] (personal (chatsByContext state))
                                     ++ [newChatEntry]);
                   orgs := orgs (chatsByContext state) |}
          | None =>
              {| personal := Some (default [] (personal (chatsByContext state))
                                   ++ [newChatEntry]);
                 orgs := orgs (chatsByContext state) |}
          end
        else chatsByContext state in
      {| currentChatId := Some actualNewChatId;
         rewindTargetMessageId :=
           if isActualRewind then None else rewindTargetMessageId state;
         newChatContext := if moved then None else newChatContext state;
         selectedProviderId := selectedProviderId state;
         selectedPromptId := selectedPromptId state;
         messagesByChatId := newMessagesByChatId;
         selectedMessagesMap := newSelectedMessagesMap;
         continueUntilComplete := continueUntilComplete state;
         isLoadingAiResponse := false;
         aiError := None;
         pendingAction := pendingAction state;
         chatsByContext := updatedChatsByContext |}
  end.

Section Handle.
Variable callChatApi : ApiRequest -> string -> result string ApiResponse.
(** [aiStateService.addOptimisticUserMessage]: the temporary id, the
    chat it used, and the state after it. *)
Variable addOptimisticUserMessage :
  string -> option string -> AiState -> (string * string) * AiState.
(** [isChatRole] of [@paynless/utils]. *)
Variable isChatRole : string -> bool.
(** What the other services answer: the wallet info, the id of the
    current user, the session's access token, and the clock. *)
Variable activeWalletInfo : ActiveWalletInfo.
Variable currentUserId : option (option string).
Variable accessToken : option string.
Variable now : string.
(** Whether [localStorage.setItem] goes through. *)
Variable storageWorks : bool.

Definition update_state (w : World) (st : AiState) : World :=
  {| aiState := st;
     loginNavigations := loginNavigations w;
     localStorage := localStorage w;
     apiCalls := apiCalls w |}.

Definition request_login (w : World) : World :=
  {| aiState := aiState w;
     loginNavigations := S (loginNavigations w);
     localStorage := localStorage w;
     apiCalls := apiCalls w |}.

(** The wallet switch of lines 131-153: [None] lets the call go on,
    [Some w] is the world it ends in. *)
Definition wallet_gate (w : World) : option World :=
  let st := aiState w in
  let msg := wallet_message activeWalletInfo in
  let status := wallet_status activeWalletInfo in
  if String.eqb status "ok" then None
  else if String.eqb status "loading" then
    match currentUserId with
    | Some _ =>
        Some (update_state w (set_status st false (Some (or_else msg "Wallet loading.")) None))
    | None =>
        Some (request_login
                (update_state w (set_status st false (Some "Auth required.")
                                   (Some "SEND_MESSAGE"))))
    end
  else if String.eqb status "error" then
    Some (update_state w
            (set_status st false (Some ("Wallet Error: " +:+ or_else msg "Unknown"))
               (pendingAction st)))
  else if String.eqb status "consent_required" then
    Some (update_state w
            (set_status st false
               (Some (or_else msg
                        "Please accept or decline the use of personal tokens for this organization chat."))
               (pendingAction st)))
  else if String.eqb status "consent_refused" then
    Some (update_state w
            (set_status st false
               (Some (or_else msg "Chat disabled. Consent to use personal tokens was refused."))
               (pendingAction st)))
  else if String.eqb status "policy_org_wallet_unavailable" then
    Some (update_state w
            (set_status st false
               (Some (or_else msg
                        "Organization wallet is selected by policy, but not yet available."))
               (pendingAction st)))
  else
    Some (update_state w
            (set_status st false (Some (or_else msg "Wallet issue.")) (pendingAction st))).

Definition handleSendMessage (data : SendData) (w : World) : option StoreMessage * World :=
  let st0 := aiState w in
  match wallet_gate w with
  | Some w' => (None, w')
  | None =>
      if negb (truthy accessToken) then
        (None, request_login
                 (update_state w (set_status st0 false (Some "Auth required.")
                                    (Some "SEND_MESSAGE"))))
      else
        match selectedProviderId st0 with
        | None =>
            (None, update_state w
                     (set_status st0 false (Some "No AI provider selected.")
                        (pendingAction st0)))
        | Some provider =>
            if String.eqb provider "" then
              (None, update_state w
                       (set_status st0 false (Some "No AI provider selected.")
                          (pendingAction st0)))
            else
              let '((tempId, optChatId), st1) :=
                addOptimisticUserMessage (sd_message data) (sd_chatId data) st0 in
              let effectiveChatIdForApi :=
                match sd_chatId data with
                | Some c => Some c
                | None => currentChatId st0
                end in
              let organizationIdForApi :=
                if negb (truthy effectiveChatIdForApi) then
                  match newChatContext st0 with
                  | Some c =>
                      if negb (String.eqb c "") && negb (String.eqb c "personal")
                      then Some c else None
                  | None => None
                  end
                else
                  match wallet_type activeWalletInfo with
                  | Some t =>
                      if String.eqb t "organization" && truthy (wallet_orgId activeWalletInfo)
                      then wallet_orgId activeWalletInfo else None
                  | None => None
                  end in
              let apiPromptId :=
                match selectedPromptId st0 with
                | Some p => if String.eqb p "__none__" then "__none__" else p
                | None => "__none__"
                end in
              let context :=
                finalContextMessages isChatRole st0 (sd_contextMessages data) optChatId tempId in
              let st2 := set_status st1 true None (pendingAction st1) in
              let params :=
                {| messageContent := sd_message data;
                   targetProviderId := provider;
                   targetPromptId := Some apiPromptId;
                   targetChatId := effectiveChatIdForApi;
                   selectedContextMessages := Some context;
                   effectiveOrganizationId := organizationIdForApi;
                   token := default "" accessToken;
                   cp_rewindTargetMessageId := rewindTargetMessageId st0;
                   cp_continueUntilComplete := continueUntilComplete st0 |} in
              let processingResult := coreMessageProcessing callChatApi params in
              let w2 :=
                {| aiState := st2;
                   loginNavigations := loginNavigations w;
                   localStorage := localStorage w;
                   apiCalls := apiCalls w ++
                     [(build_apiRequest params, ("Bearer " +:+ token params)%string)] |} in
              match (if success processingResult then ipr_assistantMessage processingResult
                     else None) with
              | None =>
                  let code := errorCode processingResult in
                  if match code with
                     | Some c => String.eqb c "AUTH_REQUIRED" || String.eqb c "TOKEN_EXPIRED"
                     | None => false
                     end
                  then
                    let st3 :=
                      set_status (with_messages st2 (remove_temp st2 optChatId tempId)) false
                        (Some (or_else (ipr_error processingResult) "Authentication required."))
                        (Some "SEND_MESSAGE") in
                    let details :=
                      {| endpoint := "chat";
                         pa_method := "POST";
                         pa_body :=
                           {| req_message := sd_message data;
                              req_providerId := provider;
                              req_promptId := apiPromptId;
                              req_chatId := effectiveChatIdForApi;
                              req_organizationId :=
                                if truthy (newChatContext st0) then newChatContext st0 else None;
                              req_rewindFromMessageId := None;
                              req_contextMessages := Some context;
                              req_continue_until_complete := None |};
                         returnPath := "chat" |} in
                    (None,
                     {| aiState := st3;
                        loginNavigations := S (loginNavigations w2);
                        localStorage :=
                          if storageWorks
                          then localStorage w2 ++ [("pendingActionDetails", details)]
                          else localStorage w2;
                        apiCalls := apiCalls w2 |})
                  else
                    (None,
                     update_state w2
                       (set_status (with_messages st2 (remove_temp st2 optChatId tempId)) false
                          (Some (or_else (ipr_error processingResult) "Failed to send message."))
                          (pendingAction st2)))
              | Some assistant =>
                  let ctx :=
                    {| sc_message := sd_message data;
                       sc_inputChatId := sd_chatId data;
                       sc_currentRewindTargetId := rewindTargetMessageId st0;
                       sc_tempUserMessageId := tempId;
                       sc_optimisticMessageChatId := optChatId;
                       sc_organizationIdForApi := organizationIdForApi;
                       sc_apiPromptId := apiPromptId;
                       sc_currentUserId :=
                         match currentUserId with
                         | Some (Some u) => if String.eqb u "" then None else Some u
                         | _ => None
                         end;
                       sc_now := now |} in
                  (Some assistant,
                   update_state w2
                     (success_update ctx (finalUserMessage processingResult) assistant
                        (newlyCreatedChatId processingResult) (wasRewind processingResult)
                        st2))
              end
        end
  end.
End Handle.

(** The usual [addOptimisticUserMessage], for examples: the message is
    appended to the given chat, or to the chat ["temp-chat"], under the
    id ["temp-1"]. *)
Definition append_optimistic (message : string) (chatId : option string) (st : AiState)
  : (string * string) * AiState :=
  let c := default "temp-chat" chatId in
  (("temp-1", c),
   with_messages st
     (<[c := default [] (messagesByChatId st !! c)
             ++ [mkStoreMessage "temp-1" chatId "user" message (Some "pending") None]]>
        (messagesByChatId st))).

Definition emptyAiState : AiState :=
  mkAiState None None None (Some "provider") None ∅ ∅ None false None None
    (mkChatsByContext None ∅).

Definition emptyWorld : World := mkWorld emptyAiState 0 [] [].

End Store.

(** ** Facts about strings and the loop's helpers *)

Lemma string_app_nil_r (s : string) : (s +:+ "")%string = s.
Proof.
  induction s as [|a s IH]; [reflexivity|].
  change (String a (s +:+ "") = String a s). now rewrite IH.
Qed.

Lemma string_app_assoc (s1 s2 s3 : string) :
  (s1 +:+ s2 +:+ s3)%string = ((s1 +:+ s2) +:+ s3)%string.
Proof.
  induction s1 as [|a s1 IH]; [reflexivity|].
  change (String a (s1 +:+ s2 +:+ s3) = String a ((s1 +:+ s2) +:+ s3)).
  now rewrite IH.
Qed.

(** Where [find] finds its element. *)
Lemma find_split {A : Type} (f : A -> bool) (l : list A) (x : A) :
  List.find f l = Some x ->
  exists before after,
    l = before ++ x :: after /\ Forall (fun y => f y = false) before /\ f x = true.
Proof.
  induction l as [|y l IH]; cbn [List.find]; [discriminate|].
  destruct (f y) eqn:Hy.
  - intros H. injection H as <-. exists [], l. repeat split; [constructor | exact Hy].
  - intros H. destruct (IH H) as (before & after & -> & Hb & Hx).
    exists (y :: before), after. repeat split; [constructor; assumption | exact Hx].
Qed.

Module ContinueFacts.
Import Continue.

Lemma is_not_length_false (fr : option string) :
  is_not_length fr = false <-> fr = Some "length".
Proof.
  destruct fr as [s|]; cbn; [|split; discriminate].
  rewrite negb_false_iff, String.eqb_eq. split; congruence.
Qed.

Lemma responses_app {E : Type} (l1 l2 : list (Call E)) :
  responses (l1 ++ l2) = responses l1 ++ responses l2.
Proof. apply omap_app. Qed.

Lemma responses_cons {E : Type} (c : Call E) (l : list (Call E)) :
  responses (c :: l) =
  match call_result c with
  | Ok r => r :: responses l
  | Err _ => responses l
  end.
Proof. unfold responses. cbn. destruct (call_result c); reflexivity. Qed.

(** When every call returned, there is one response per call. *)
Lemma responses_length_returned {E : Type} (l : list (Call E)) :
  forallb call_returned l = true -> length (responses l) = length l.
Proof.
  induction l as [|c l IH]; [reflexivity|].
  cbn [forallb]. intros H. apply andb_true_iff in H as [Hc Hl].
  rewrite responses_cons. unfold call_returned in Hc.
  destruct (call_result c); [|discriminate]. cbn. now rewrite IH.
Qed.

Lemma concat_contents_cons r rs :
  concat_contents (r :: rs) = (resp_content r +:+ concat_contents rs)%string.
Proof. reflexivity. Qed.

Section LoopFacts.
Context {E St : Type}.
Variable sendMessage :
  ChatApiRequest -> string -> string -> St -> result E AdapterResponsePayload * St.
Variables providerApiIdentifier apiKey : string.

Abbreviation loop := (loop sendMessage providerApiIdentifier apiKey).

Ltac count_lia :=
  unfold MAX_CONTINUATIONS in *;
  cbn [continuationCount advance accumulate length] in *; lia.

(** One unfolding of the loop, as an equation. *)
Lemma loop_S fuel s log w :
  loop (S fuel) s log w =
  if (continuationCount s <=? MAX_CONTINUATIONS)%nat then
    let '(r, w') := sendMessage (currentRequest s) providerApiIdentifier apiKey w in
    let log' := log ++ [mkCall (currentRequest s) r] in
    match r with
    | Err e => Some (Threw e, log', w')
    | Ok response =>
        let s1 := accumulate s response in
        if is_not_length (finishReason_of response)
           || (MAX_CONTINUATIONS <=? continuationCount s1)%nat
        then Some (Finished s1, log', w')
        else loop fuel (advance s1 response) log' w'
    end
  else Some (Finished s, log, w).
Proof. reflexivity. Qed.

(** Enough fuel: one unit per iteration still allowed by the counter. *)
Lemma loop_total fuel s log w :
  (1 <= fuel)%nat ->
  (S MAX_CONTINUATIONS - continuationCount s <= fuel)%nat ->
  is_Some (loop fuel s log w).
Proof.
  revert s log w. induction fuel as [|fuel IH]; intros s log w H1 H2; [count_lia|].
  rewrite loop_S.
  destruct (continuationCount s <=? MAX_CONTINUATIONS)%nat eqn:Hc; [|eauto].
  destruct (sendMessage _ _ _ w) as [[response|e] w']; cbn zeta; [|eauto].
  destruct (is_not_length _ || _) eqn:Hb; [eauto|].
  apply orb_false_iff in Hb as [_ Hb].
  apply Nat.leb_gt in Hb. cbn in Hb.
  apply IH; count_lia.
Qed.

(** What one run of the loop does to the log and to the locals. *)
Lemma loop_inv fuel s log w ex log' w' :
  loop fuel s log w = Some (ex, log', w') ->
  (continuationCount s <= MAX_CONTINUATIONS)%nat ->
  exists new,
    log' = log ++ new /\
    (1 <= length new)%nat /\
    (length new + continuationCount s <= S MAX_CONTINUATIONS)%nat /\
    match ex with
    | Finished s' =>
        forallb call_returned new = true /\
        accumulatedContent s' =
          (accumulatedContent s +:+ concat_contents (responses new))%string /\
        acc_prompt_tokens s' = acc_prompt_tokens s + sum_prompt (responses new) /\
        acc_completion_tokens s' =
          acc_completion_tokens s + sum_completion (responses new) /\
        is_Some (lastResponse s') /\
        lastResponse s' = last (responses new) /\
        (forallb call_reports_length new = true ->
         (length new + continuationCount s = S MAX_CONTINUATIONS)%nat)
    | Threw e =>
        exists req, last new = Some (mkCall req (Err e))
    end.
Proof.
  revert s log w. induction fuel as [|fuel IH]; intros s log w Hrun Hc; [discriminate|].
  rewrite loop_S in Hrun.
  apply Nat.leb_le in Hc as Hc'. rewrite Hc' in Hrun. clear Hc'.
  destruct (sendMessage _ _ _ w) as [[response|e] w1]; cbn zeta in Hrun.
  - destruct (is_not_length _ || _) eqn:Hb.
    + (* break *)
      injection Hrun as <- <- <-.
      exists [mkCall (currentRequest s) (Ok response)].
      split; [reflexivity|]. split; [count_lia|]. split; [count_lia|].
      cbn. rewrite string_app_nil_r, !Z.add_0_r.
      repeat split; eauto.
      intros Hlen. rewrite andb_true_r in Hlen.
      unfold call_reports_length in Hlen. cbn in Hlen.
      apply negb_true_iff in Hlen. rewrite Hlen, orb_false_l in Hb.
      apply Nat.leb_le in Hb. count_lia.
    + (* continue *)
      apply orb_false_iff in Hb as [Hlen Hb].
      apply Nat.leb_gt in Hb. cbn in Hb.
      apply IH in Hrun; [|count_lia].
      destruct Hrun as (new & -> & Hn1 & Hn2 & Hex).
      exists (mkCall (currentRequest s) (Ok response) :: new).
      split; [now rewrite <- app_assoc|].
      split; [count_lia|]. split; [count_lia|].
      destruct ex as [s'|e].
      * destruct Hex as (Hall & Hcont & Hp & Hcm & Hsome & Hlast & Hfive).
        cbn in Hcont, Hp, Hcm, Hfive.
        cbn [forallb call_returned call_result andb].
        split; [exact Hall|].
        change (responses (mkCall (currentRequest s) (Ok response) :: new))
          with (response :: responses new).
        cbn [sum_prompt sum_completion foldr].
        rewrite concat_contents_cons, string_app_assoc.
        split; [exact Hcont|]. split; [fold (sum_prompt (responses new)); count_lia|].
        split; [fold (sum_completion (responses new)); count_lia|].
        split; [exact Hsome|].
        split.
        { rewrite Hlast. destruct (responses new) as [|r rs] eqn:Hrs; [|reflexivity].
          rewrite Hlast in Hsome. destruct Hsome as [? Hsome]. discriminate. }
        intros Hl. apply andb_true_iff in Hl as [_ Hl].
        specialize (Hfive Hl). cbn. count_lia.
      * destruct Hex as [req Hreq]. exists req.
        destruct new as [|c new]; [discriminate|]. exact Hreq.
  - injection Hrun as <- <- <-.
    exists [mkCall (currentRequest s) (Err e)].
    split; [reflexivity|]. split; [count_lia|]. split; [count_lia|].
    eexists. reflexivity.
Qed.
End LoopFacts.

End ContinueFacts.

(** ** What the loop hands to the adapter, and in which state *)

Module ContinueTraceFacts.
Import Continue ContinueFacts ContinueTrace.

Lemma pushed_fields (r : ChatApiRequest) (cs : list string) :
  message (pushed r cs) = message r /\
  providerId (pushed r cs) = providerId r /\
  promptId (pushed r cs) = promptId r /\
  max_tokens_to_generate (pushed r cs) = max_tokens_to_generate r /\
  messages (pushed r cs) =
    match cs with
    | [] => messages r
    | _ => Some (default [] (messages r) ++ map (mkChatMessage "assistant") cs)
    end.
Proof.
  revert r. induction cs as [|c cs IH]; intros r; [easy|].
  unfold pushed in *. cbn [foldl].
  destruct (IH (push_assistant r c)) as (H1 & H2 & H3 & H4 & H5).
  rewrite H1, H2, H3, H4, H5. repeat split.
  destruct cs as [|c' cs]; [reflexivity|].
  change (default [] (messages (push_assistant r c)))
    with (default [] (messages r) ++ [mkChatMessage "assistant" c]).
  now rewrite <- app_assoc.
Qed.

Lemma requests_from_lookup (r : ChatApiRequest) (cs : list string) (i : nat) :
  (i <= length cs)%nat -> requests_from r cs !! i = Some (pushed r (take i cs)).
Proof.
  revert r cs. induction i as [|i IH]; intros r cs Hi.
  - destruct cs; reflexivity.
  - destruct cs as [|c cs]; [cbn in Hi; lia|].
    cbn [requests_from]. rewrite lookup_cons. cbn [take].
    apply IH. cbn in Hi. lia.
Qed.

Lemma requests_from_length (r : ChatApiRequest) (cs : list string) :
  length (requests_from r cs) = S (length cs).
Proof. revert r. induction cs as [|c cs IH]; intros r; cbn; [|rewrite IH]; reflexivity. Qed.

Lemma responses_length_le {E : Type} (log : list (Call E)) :
  (length (responses log) <= length log)%nat.
Proof.
  induction log as [|c log IH]; [reflexivity|].
  unfold responses in *. rewrite (omap_app _ [c] log), length_app.
  cbn. destruct (call_result c); cbn; lia.
Qed.

Section TraceFacts.
Context {E St : Type}.
Variable sendMessage :
  ChatApiRequest -> string -> string -> St -> result E AdapterResponsePayload * St.
Variables providerApiIdentifier apiKey : string.

Abbreviation run_body := (loop sendMessage providerApiIdentifier apiKey).
Abbreviation replay_calls := (replay sendMessage providerApiIdentifier apiKey).

(** What the loop hands to the adapter, in which state, and when it goes
    on. *)
Lemma loop_trace fuel s log w ex log' w' :
  run_body fuel s log w = Some (ex, log', w') ->
  (continuationCount s <= MAX_CONTINUATIONS)%nat ->
  exists init lastc,
    log' = log ++ init ++ [lastc] /\
    map call_request (init ++ [lastc]) =
      take (S (length init))
        (requests_from (currentRequest s) (map resp_content (responses (init ++ [lastc])))) /\
    replay_calls (map call_request (init ++ [lastc])) w = (init ++ [lastc], w') /\
    forallb call_reports_length init = true /\
    (call_reports_length lastc = true ->
     (S (length init) + continuationCount s = S MAX_CONTINUATIONS)%nat).
Proof.
  revert s log w. induction fuel as [|fuel IH]; intros s log w Hrun Hc; [discriminate|].
  rewrite loop_S in Hrun.
  apply Nat.leb_le in Hc as Hc'. rewrite Hc' in Hrun. clear Hc'.
  destruct (sendMessage _ _ _ w) as [[response|e] w1] eqn:Hsend; cbn zeta in Hrun.
  - destruct (is_not_length _ || _) eqn:Hb.
    + injection Hrun as <- <- <-.
      exists [], (mkCall (currentRequest s) (Ok response)).
      split; [reflexivity|]. split; [reflexivity|].
      split; [cbn; now rewrite Hsend|]. split; [reflexivity|].
      unfold call_reports_length. cbn [call_result]. intros Hlen.
      apply negb_true_iff in Hlen. rewrite Hlen, orb_false_l in Hb.
      apply Nat.leb_le in Hb.
      cbn [continuationCount accumulate length] in *.
      unfold MAX_CONTINUATIONS in *. lia.
    + apply orb_false_iff in Hb as [Hlen Hb].
      apply Nat.leb_gt in Hb. cbn [continuationCount accumulate] in Hb.
      apply IH in Hrun; [|cbn; unfold MAX_CONTINUATIONS in *; lia].
      destruct Hrun as (init & lastc & -> & Hreqs & Hrep & Hall & Hcap).
      exists (mkCall (currentRequest s) (Ok response) :: init), lastc.
      split; [now rewrite <- !app_assoc|].
      cbn [currentRequest advance accumulate continuationCount] in Hreqs, Hcap.
      split.
      { change ((mkCall (currentRequest s) (Ok response) :: init) ++ [lastc])
          with (mkCall (currentRequest s) (Ok response) :: (init ++ [lastc])).
        change (responses (mkCall (currentRequest s) (Ok response) :: (init ++ [lastc])))
          with (response :: responses (init ++ [lastc])).
        cbn [map call_request length requests_from take]. now rewrite Hreqs. }
      split.
      { change ((mkCall (currentRequest s) (Ok response) :: init) ++ [lastc])
          with (mkCall (currentRequest s) (Ok response) :: (init ++ [lastc])).
        cbn [map call_request replay]. rewrite Hsend. now rewrite Hrep. }
      split.
      { cbn [forallb]. rewrite Hall, andb_true_r.
        unfold call_reports_length. cbn. now rewrite Hlen. }
      intros Hl. specialize (Hcap Hl). cbn [length]. lia.
  - injection Hrun as <- <- <-.
    exists [], (mkCall (currentRequest s) (Err e)).
    split; [reflexivity|]. split; [reflexivity|].
    split; [cbn; now rewrite Hsend|]. split; [reflexivity|].
    unfold call_reports_length. cbn. discriminate.
Qed.

(** The same at the top: an execution as a whole. *)
Lemma run_trace (initialApiRequest : ChatApiRequest) (w : St) :
  exists run init lastc,
    handleContinuationLoop sendMessage providerApiIdentifier apiKey initialApiRequest w
      = Some run /\
    calls run = init ++ [lastc] /\
    map call_request (calls run) =
      take (length (calls run))
        (requests_from (initial_request initialApiRequest)
           (map resp_content (responses (calls run)))) /\
    replay_calls (map call_request (calls run)) w = (calls run, world run) /\
    forallb call_reports_length init = true /\
    (call_reports_length lastc = true -> length (calls run) = S MAX_CONTINUATIONS).
Proof.
  destruct (loop_total sendMessage providerApiIdentifier apiKey
              (S MAX_CONTINUATIONS) (initial_state initialApiRequest) [] w)
    as [[[ex new] w'] Hrun]; [unfold MAX_CONTINUATIONS; lia | cbn; lia |].
  pose proof Hrun as Htr.
  apply loop_trace in Htr; [|cbn; unfold MAX_CONTINUATIONS; lia].
  destruct Htr as (init & lastc & Hnew & Hreqs & Hrep & Hall & Hcap).
  cbn [app] in Hnew. subst new.
  cbn [continuationCount currentRequest initial_state] in Hreqs, Hcap.
  exists (mkRun (match ex with
                 | Finished s => finalize s
                 | Threw e => Err (AdapterThrew e)
                 end) (init ++ [lastc]) w'), init, lastc.
  split.
  { unfold handleContinuationLoop. rewrite Hrun. destruct ex; reflexivity. }
  cbn [calls world]. split; [reflexivity|].
  split; [rewrite Hreqs, length_app; cbn; f_equal; lia|].
  split; [exact Hrep|]. split; [exact Hall|].
  intros Hl. specialize (Hcap Hl). rewrite length_app. cbn. lia.
Qed.
(** Every entry of a replayed log is a result of the adapter. *)
Lemma replay_forallb (P : Call E -> bool) reqs w cs w' :
  replay_calls reqs w = (cs, w') ->
  (forall request st,
     P (mkCall request (fst (sendMessage request providerApiIdentifier apiKey st))) = true) ->
  forallb P cs = true.
Proof.
  intros Hrep HP. revert w cs Hrep.
  induction reqs as [|r reqs IH]; intros w cs Hrep; cbn [replay] in Hrep.
  - injection Hrep as <- <-. reflexivity.
  - specialize (HP r w).
    destruct (sendMessage r providerApiIdentifier apiKey w) as [res w1].
    destruct (replay_calls reqs w1) as [cs1 w2] eqn:Hrest.
    injection Hrep as <- <-. cbn [forallb fst] in *.
    rewrite HP. cbn. eapply IH, Hrest.
Qed.

(** The first call of a replayed log. *)
Lemma replay_head r reqs w cs w' :
  replay_calls (r :: reqs) w = (cs, w') ->
  exists rest,
    cs = mkCall r (fst (sendMessage r providerApiIdentifier apiKey w)) :: rest.
Proof.
  cbn [replay]. intros Hrep.
  destruct (sendMessage r providerApiIdentifier apiKey w) as [res w1].
  destruct (replay_calls reqs w1) as [cs1 w2].
  injection Hrep as <- <-. eauto.
Qed.
End TraceFacts.

End ContinueTraceFacts.

(** ** Properties of [handleContinuationLoop] *)

Module ContinueSpec.
Import Continue ContinueFacts ContinueTrace ContinueTraceFacts.

Section Runs.
Context {E St : Type}.
Variable sendMessage :
  ChatApiRequest -> string -> string -> St -> result E AdapterResponsePayload * St.
Variables providerApiIdentifier apiKey : string.

Abbreviation run_loop := (handleContinuationLoop sendMessage providerApiIdentifier apiKey).

(** Every execution ends, and this is what is known at its end. *)
Lemma run_spec (initialApiRequest : ChatApiRequest) (w : St) :
  exists ex new w',
    run_loop initialApiRequest w =
      Some (mkRun (match ex with
                   | Finished s => finalize s
                   | Threw e => Err (AdapterThrew e)
                   end) new w') /\
    (1 <= length new <= S MAX_CONTINUATIONS)%nat /\
    match ex with
    | Finished s' =>
        forallb call_returned new = true /\
        accumulatedContent s' = concat_contents (responses new) /\
        acc_prompt_tokens s' = sum_prompt (responses new) /\
        acc_completion_tokens s' = sum_completion (responses new) /\
        is_Some (lastResponse s') /\
        lastResponse s' = last (responses new) /\
        (forallb call_reports_length new = true ->
         length new = S MAX_CONTINUATIONS)
    | Threw e => exists req, last new = Some (mkCall req (Err e))
    end.
Proof.
  destruct (loop_total sendMessage providerApiIdentifier apiKey
              (S MAX_CONTINUATIONS) (initial_state initialApiRequest) [] w)
    as [[[ex new] w'] Hrun]; [unfold MAX_CONTINUATIONS; lia | cbn; lia |].
  exists ex, new, w'.
  unfold handleContinuationLoop. rewrite Hrun.
  apply loop_inv in Hrun; [|cbn; unfold MAX_CONTINUATIONS; lia].
  destruct Hrun as (new' & Hnew & H1 & H2 & Hex). cbn in Hnew. subst new'.
  cbn [continuationCount initial_state] in *.
  split; [destruct ex; reflexivity|].
  split; [lia|].
  destruct ex as [s'|e]; [|exact Hex].
  destruct Hex as (Hall & Hc & Hp & Hcm & Hsome & Hlast & Hfive).
  cbn [accumulatedContent acc_prompt_tokens acc_completion_tokens initial_state]
    in Hc, Hp, Hcm.
  rewrite Z.add_0_l in Hp, Hcm.
  change (accumulatedContent s' = concat_contents (responses new)) in Hc.
  repeat split; try assumption.
  intros Hl. specialize (Hfive Hl). lia.
Qed.

(** A log in which a call threw is not a log of ["length"] responses. *)
Lemma threw_not_all_length (new : list (Call E)) req e :
  last new = Some (mkCall req (Err e)) ->
  forallb call_reports_length new = false.
Proof.
  intros Hl. apply last_Some in Hl as [l' ->].
  rewrite forallb_app. cbn. now rewrite andb_false_r.
Qed.

(** An execution as a whole: its log is what the adapter answered to the
    requests of the loop, one call after the other from the initial state,
    and its result is what the loop made of these answers. *)
Lemma run_full (initialApiRequest : ChatApiRequest) (w : St) :
  exists ex init lastc w',
    run_loop initialApiRequest w =
      Some (mkRun (match ex with
                   | Finished s => finalize s
                   | Threw e => Err (AdapterThrew e)
                   end) (init ++ [lastc]) w') /\
    map call_request (init ++ [lastc]) =
      take (S (length init))
        (requests_from (initial_request initialApiRequest)
           (map resp_content (responses (init ++ [lastc])))) /\
    replay sendMessage providerApiIdentifier apiKey (map call_request (init ++ [lastc])) w
      = (init ++ [lastc], w') /\
    forallb call_reports_length init = true /\
    (length init <= MAX_CONTINUATIONS)%nat /\
    (call_reports_length lastc = true -> length init = MAX_CONTINUATIONS) /\
    match ex with
    | Finished s' =>
        forallb call_returned (init ++ [lastc]) = true /\
        accumulatedContent s' = concat_contents (responses (init ++ [lastc])) /\
        acc_prompt_tokens s' = sum_prompt (responses (init ++ [lastc])) /\
        acc_completion_tokens s' = sum_completion (responses (init ++ [lastc])) /\
        is_Some (lastResponse s') /\
        lastResponse s' = last (responses (init ++ [lastc]))
    | Threw e => exists req, lastc = mkCall req (Err e)
    end.
Proof.
  destruct (run_trace sendMessage providerApiIdentifier apiKey initialApiRequest w)
    as (run & init & lastc & Hrun & Hcalls & Hreqs & Hrep & Hall & Hcap).
  destruct (run_spec initialApiRequest w) as (ex & new & w' & Hrun' & Hlen & Hex).
  rewrite Hrun in Hrun'. injection Hrun' as ->. cbn [calls world] in *. subst new.
  rewrite length_app in *. cbn [length] in *.
  exists ex, init, lastc, w'. split; [exact Hrun|].
  split; [rewrite Hreqs; f_equal; lia|]. split; [exact Hrep|]. split; [exact Hall|].
  split; [unfold MAX_CONTINUATIONS in *; lia|].
  split; [intros Hl; specialize (Hcap Hl); lia|].
  destruct ex as [s'|e].
  - destruct Hex as (H1 & H2 & H3 & H4 & H5 & H6 & _). repeat split; assumption.
  - destruct Hex as [req Hreq]. rewrite last_snoc in Hreq. injection Hreq as ->. eauto.
Qed.
End Runs.

(** C1. Whatever the adapter and the request, an execution of
    [handleContinuationLoop] ends after at least one and at most
    [MAX_CONTINUATIONS + 1 = 5] calls of [sendMessage].  The calls it
    records are calls it made: handing the recorded requests to
    [sendMessage] one after the other, from the initial state, gives the
    recorded results and the final state.  When every call came back with
    a response whose reason (the [finish_reason] the loop reads, inside
    [token_usage]) is ["length"], the number of calls is exactly
    [MAX_CONTINUATIONS + 1 = 5]; in particular this is so for an adapter
    that answers ["length"] to every request in every state. *)
Theorem all_length_exactly_five_calls {E St : Type}
    (sendMessage : ChatApiRequest -> string -> string -> St ->
                   result E AdapterResponsePayload * St)
    (providerApiIdentifier apiKey : string)
    (initialApiRequest : ChatApiRequest) (w : St) :
  exists run,
    handleContinuationLoop sendMessage providerApiIdentifier apiKey initialApiRequest w
      = Some run /\
    replay sendMessage providerApiIdentifier apiKey (map call_request (calls run)) w
      = (calls run, world run) /\
    (1 <= length (calls run) <= 5)%nat /\
    (forallb call_reports_length (calls run) = true ->
     length (calls run) = S MAX_CONTINUATIONS /\ length (calls run) = 5%nat) /\
    ((forall request st,
        call_reports_length
          (mkCall request (fst (sendMessage request providerApiIdentifier apiKey st)))
        = true) ->
     forallb call_reports_length (calls run) = true /\ length (calls run) = 5%nat).
Proof.
  destruct (run_full sendMessage providerApiIdentifier apiKey initialApiRequest w)
    as (ex & init & lastc & w' & Hrun & _ & Hrep & Hall & Hle & Hcap & _).
  eexists. split; [exact Hrun|]. cbn [calls world].
  split; [exact Hrep|].
  rewrite length_app. cbn [length].
  assert (Hfive : forallb call_reports_length (init ++ [lastc]) = true ->
                  (length init + 1)%nat = 5%nat).
  { intros Hl. rewrite forallb_app in Hl. apply andb_true_iff in Hl as [_ Hl].
    cbn in Hl. rewrite andb_true_r in Hl. specialize (Hcap Hl).
    unfold MAX_CONTINUATIONS in *. lia. }
  unfold MAX_CONTINUATIONS in *.
  split; [lia|]. split; [intros Hl; specialize (Hfive Hl); lia|].
  intros Hadapter.
  assert (Hl : forallb call_reports_length (init ++ [lastc]) = true).
  { eapply replay_forallb; [exact Hrep | exact Hadapter]. }
  split; [exact Hl | exact (Hfive Hl)].
Qed.

(** Witness: an adapter that always answers ["length"] makes
    five calls. *)
Lemma all_length_exactly_five_calls_witness :
  exists run,
    handleContinuationLoop
      (constant (response_of "ab" 10 5 (Some "length") (Some "length")))
      "model" "key" empty_request tt = Some run /\
    forallb call_reports_length (calls run) = true /\
    length (calls run) = 5%nat.
Proof.
  destruct (all_length_exactly_five_calls
              (constant (response_of "ab" 10 5 (Some "length") (Some "length")))
              "model" "key" empty_request tt) as (run & Hrun & _ & _ & _ & Hfive).
  exists run. split; [exact Hrun|].
  apply Hfive. intros request st. reflexivity.
Defined.

(** C2. Every execution ends; when it returns a payload, the
    [finish_reason] it reports in the payload's [token_usage] is
    ["stop"], also when every call, the last one included, came back
    with ["length"] and the loop stopped at the cap.  (The only other
    way to end is that the adapter threw.) *)
Theorem returned_reason_is_stop {E St : Type}
    (sendMessage : ChatApiRequest -> string -> string -> St ->
                   result E AdapterResponsePayload * St)
    (providerApiIdentifier apiKey : string)
    (initialApiRequest : ChatApiRequest) (w : St) :
  exists run,
    handleContinuationLoop sendMessage providerApiIdentifier apiKey initialApiRequest w
      = Some run /\
    match outcome run with
    | Ok payload => finishReason_of payload = Some "stop"
    | Err e => exists e', e = AdapterThrew e'
    end /\
    (forallb call_reports_length (calls run) = true ->
     exists payload last_response,
       outcome run = Ok payload /\
       last (responses (calls run)) = Some last_response /\
       finishReason_of last_response = Some "length" /\
       finishReason_of payload = Some "stop").
Proof.
  destruct (run_spec sendMessage providerApiIdentifier apiKey initialApiRequest w)
    as (ex & new & w' & Hrun & Hlen & Hex).
  eexists. split; [exact Hrun|]. cbn [calls outcome].
  destruct ex as [s'|e].
  - destruct Hex as (Hret & _ & _ & _ & [lr Hsome] & Hlast & _).
    unfold finalize. rewrite Hsome. split; [reflexivity|].
    intros Hall. eexists _, lr. split; [reflexivity|].
    rewrite <- Hlast, Hsome. split; [reflexivity|]. split; [|reflexivity].
    rewrite Hsome in Hlast. symmetry in Hlast.
    clear - Hall Hlast.
    induction new as [|c new IH] using rev_ind; [discriminate|].
    rewrite forallb_app in Hall. apply andb_true_iff in Hall as [_ Hc].
    rewrite responses_app, last_app in Hlast.
    unfold call_reports_length in Hc. cbn in Hc, Hlast.
    destruct (call_result c) as [r|]; [|discriminate]. cbn in Hlast.
    injection Hlast as <-.
    rewrite andb_true_r in Hc. apply negb_true_iff in Hc.
    now apply is_not_length_false.
  - split; [eauto|]. intros Hall. destruct Hex as [req Hreq].
    apply threw_not_all_length in Hreq. congruence.
Qed.

(** The cap scenario, evaluated: five ["length"] answers, a payload
    is returned, its [token_usage] says ["stop"]. *)
Example cap_hit_reports_stop :
  (handleContinuationLoop
     (constant (response_of "ab" 10 5 (Some "length") None))
     "model" "key" empty_request tt)
  ≫= (fun run => match outcome run with
                 | Ok payload => Some (length (calls run), finishReason_of payload)
                 | Err _ => None
                 end)
  = Some (5%nat, Some "stop").
Proof. vm_compute. reflexivity. Qed.

(** The reason the loop inspects is the one inside [token_usage]: a
    response that says ["length"] only in its top-level [finish_reason]
    field ends the loop after the first call. *)
Example top_level_reason_is_not_inspected :
  (handleContinuationLoop
     (constant (response_of "ab" 10 5 None (Some "length")))
     "model" "key" empty_request tt)
  ≫= (fun run => Some (length (calls run)))
  = Some 1%nat.
Proof. vm_compute. reflexivity. Qed.

(** C3. Every execution ends; the responses it consumed are the
    adapter's: the recorded calls are the ones [sendMessage] answered,
    one after the other from the initial state, all of them but the last
    with the reason ["length"], and the last one with another reason
    unless it is the fifth.  When the execution returns a payload, the
    content is the concatenation, in call order, of the contents of these
    responses, [prompt_tokens] and [completion_tokens] are the sums of the
    responses' respective counts (a missing count or a missing
    [token_usage] counts as 0), and [total_tokens] is their sum. *)
Theorem payload_accumulates_content_and_tokens {E St : Type}
    (sendMessage : ChatApiRequest -> string -> string -> St ->
                   result E AdapterResponsePayload * St)
    (providerApiIdentifier apiKey : string)
    (initialApiRequest : ChatApiRequest) (w : St) :
  exists run,
    handleContinuationLoop sendMessage providerApiIdentifier apiKey initialApiRequest w
      = Some run /\
    replay sendMessage providerApiIdentifier apiKey (map call_request (calls run)) w
      = (calls run, world run) /\
    (exists init lastc,
       calls run = init ++ [lastc] /\
       forallb call_reports_length init = true /\
       (call_reports_length lastc = true -> length init = MAX_CONTINUATIONS)) /\
    match outcome run with
    | Ok payload =>
        let rs := responses (calls run) in
        length rs = length (calls run) /\
        resp_content payload = concat_contents rs /\
        match token_usage payload with
        | Some tu =>
            prompt_tokens tu = Some (sum_prompt rs) /\
            completion_tokens tu = Some (sum_completion rs) /\
            total_tokens tu = Some (sum_prompt rs + sum_completion rs) /\
            total_tokens tu =
              Some (or_zero (prompt_tokens tu) + or_zero (completion_tokens tu))
        | None => False
        end
    | Err e => exists e', e = AdapterThrew e'
    end.
Proof.
  destruct (run_full sendMessage providerApiIdentifier apiKey initialApiRequest w)
    as (ex & init & lastc & w' & Hrun & _ & Hrep & Hall & _ & Hcap & Hex).
  eexists. split; [exact Hrun|]. cbn [calls outcome world].
  split; [exact Hrep|]. split; [eauto|].
  destruct ex as [s'|e]; [|eauto].
  destruct Hex as (Hret & Hc & Hp & Hcm & [lr Hsome] & _).
  unfold finalize. rewrite Hsome. cbn zeta.
  split; [exact (responses_length_returned _ Hret)|].
  cbn. rewrite Hc, Hp, Hcm. repeat split.
Qed.

(** The example of the specification, from the theorem: an adapter that
    answers (prompt 10, completion 5, ["length"]) and then (prompt 12,
    completion 7) gives 22, 12 and 34, and the contents in order. *)
Lemma payload_accumulates_content_and_tokens_witness :
  exists run payload tu,
    handleContinuationLoop scripted "model" "key" empty_request
      [Ok (response_of "Hello, " 10 5 (Some "length") None);
       Ok (response_of "world" 12 7 (Some "stop") None)] = Some run /\
    length (calls run) = 2%nat /\
    outcome run = Ok payload /\
    resp_content payload = "Hello, world" /\
    token_usage payload = Some tu /\
    prompt_tokens tu = Some 22 /\
    completion_tokens tu = Some 12 /\
    total_tokens tu = Some 34.
Proof.
  destruct (payload_accumulates_content_and_tokens scripted "model" "key" empty_request
              [Ok (response_of "Hello, " 10 5 (Some "length") None);
               Ok (response_of "world" 12 7 (Some "stop") None)])
    as (run & Hrun & _ & _ & Hpayload).
  exists run.
  vm_compute in Hrun. injection Hrun as <-.
  cbn [outcome calls] in Hpayload.
  destruct Hpayload as (_ & Hcontent & Husage).
  eexists _, _. split; [reflexivity|]. split; [reflexivity|].
  split; [reflexivity|]. split; [exact Hcontent|]. split; [reflexivity|].
  cbn [token_usage] in Husage. destruct Husage as (Hp & Hc & Ht & _).
  split; [exact Hp|]. split; [exact Hc | exact Ht].
Defined.

(** The example of the specification: (prompt 10, completion 5) then
    (prompt 12, completion 7) give 22, 12 and 34, and the contents in
    order. *)
Example two_calls_token_sums :
  (handleContinuationLoop scripted "model" "key" empty_request
     [Ok (response_of "Hello, " 10 5 (Some "length") None);
      Ok (response_of "world" 12 7 (Some "stop") None)])
  ≫= (fun run => match outcome run with
                 | Ok payload => Some (resp_content payload, token_usage payload)
                 | Err _ => None
                 end)
  = Some ("Hello, world",
          Some (mkTokenUsage (Some 22) (Some 12) (Some 34) (Some "stop"))).
Proof. vm_compute. reflexivity. Qed.

(** C7. Every execution makes at least one provider call and never ends
    in the "no response" error: the first thing it does is to hand the
    initial request to [sendMessage] in the initial state, the calls it
    records are calls it made, and it returns a payload, or rethrows what
    the adapter threw.  The error branch itself, taken in a state with no
    response (as the state before the first call is), raises that error
    and returns no payload. *)
Theorem at_least_one_call_and_no_response_unreachable {E St : Type}
    (sendMessage : ChatApiRequest -> string -> string -> St ->
                   result E AdapterResponsePayload * St)
    (providerApiIdentifier apiKey : string)
    (initialApiRequest : ChatApiRequest) (w : St) :
  exists run,
    handleContinuationLoop sendMessage providerApiIdentifier apiKey initialApiRequest w
      = Some run /\
    (exists rest,
       calls run =
         mkCall (initial_request initialApiRequest)
           (fst (sendMessage (initial_request initialApiRequest)
                   providerApiIdentifier apiKey w)) :: rest) /\
    replay sendMessage providerApiIdentifier apiKey (map call_request (calls run)) w
      = (calls run, world run) /\
    (1 <= length (calls run))%nat /\
    outcome run <> Err NoResponseError /\
    match last (calls run) with
    | Some c =>
        match call_result c with
        | Ok _ => exists payload, outcome run = Ok payload
        | Err e => outcome run = Err (AdapterThrew e)
        end
    | None => False
    end /\
    @finalize E (initial_state initialApiRequest) = Err NoResponseError /\
    (forall s : LoopState,
       match lastResponse s with
       | None => @finalize E s = Err NoResponseError
       | Some _ => exists payload, @finalize E s = Ok payload
       end).
Proof.
  destruct (run_full sendMessage providerApiIdentifier apiKey initialApiRequest w)
    as (ex & init & lastc & w' & Hrun & Hreqs & Hrep & _ & _ & _ & Hex).
  eexists. split; [exact Hrun|]. cbn [calls outcome world].
  split.
  { pose proof Hrep as Hhead. rewrite Hreqs in Hhead.
    destruct (map resp_content (responses (init ++ [lastc]))) as [|c cs];
      cbn [requests_from take] in Hhead; eapply replay_head, Hhead. }
  split; [exact Hrep|].
  split; [rewrite length_app; cbn; lia|].
  assert (Hfin : forall s : LoopState,
             match lastResponse s with
             | None => @finalize E s = Err NoResponseError
             | Some _ => exists payload, @finalize E s = Ok payload
             end).
  { intros s. unfold finalize. destruct (lastResponse s); eauto. }
  rewrite last_snoc.
  destruct ex as [s'|e].
  - destruct Hex as (Hret & _ & _ & _ & [lr Hsome] & _).
    specialize (Hfin s') as Hs. rewrite Hsome in Hs. destruct Hs as [payload Hp].
    rewrite Hp. split; [discriminate|]. split; [|split; [reflexivity|exact Hfin]].
    rewrite forallb_app in Hret. apply andb_true_iff in Hret as [_ Hc].
    unfold call_returned in Hc. cbn in Hc.
    destruct (call_result lastc); [eauto|discriminate].
  - destruct Hex as [req ->]. cbn.
    split; [discriminate|]. split; [reflexivity|]. split; [reflexivity|exact Hfin].
Qed.

(** C9. Every execution ends; when it returns a payload, that payload is
    the last response received with [content] and [token_usage]
    replaced: [role], [ai_provider_id], [system_prompt_id] and the
    top-level [finish_reason] are those of the last response, and
    ["stop"] is written only inside the new [token_usage]. *)
Theorem payload_is_last_response_updated {E St : Type}
    (sendMessage : ChatApiRequest -> string -> string -> St ->
                   result E AdapterResponsePayload * St)
    (providerApiIdentifier apiKey : string)
    (initialApiRequest : ChatApiRequest) (w : St) :
  exists run,
    handleContinuationLoop sendMessage providerApiIdentifier apiKey initialApiRequest w
      = Some run /\
    match outcome run with
    | Ok payload =>
        let rs := responses (calls run) in
        exists last_response,
          last rs = Some last_response /\
          payload =
            with_token_usage (with_content last_response (concat_contents rs))
              (Some (combined_usage rs)) /\
          resp_role payload = resp_role last_response /\
          ai_provider_id payload = ai_provider_id last_response /\
          system_prompt_id payload = system_prompt_id last_response /\
          finish_reason payload = finish_reason last_response /\
          finishReason_of payload = Some "stop"
    | Err e => exists e', e = AdapterThrew e'
    end.
Proof.
  destruct (run_spec sendMessage providerApiIdentifier apiKey initialApiRequest w)
    as (ex & new & w' & Hrun & Hlen & Hex).
  eexists. split; [exact Hrun|]. cbn [calls outcome].
  destruct ex as [s'|e]; [|eauto].
  destruct Hex as (_ & Hc & Hp & Hcm & [lr Hsome] & Hlast & _).
  unfold finalize. rewrite Hsome. cbn zeta.
  exists lr. rewrite <- Hlast, Hsome. split; [reflexivity|].
  unfold with_token_usage, with_content, combined_usage. cbn.
  rewrite Hc, Hp, Hcm. repeat split.
Qed.

(** The top-level [finish_reason] passes through: the last response says
    ["length"] at top level, and so does the combined payload, while its
    [token_usage] says ["stop"]. *)
Example top_level_reason_passes_through :
  (handleContinuationLoop scripted "model" "key" empty_request
     [Ok (response_of "a" 1 1 (Some "length") (Some "length"));
      Ok (response_of "b" 1 1 (Some "stop") (Some "length"))])
  ≫= (fun run => match outcome run with
                 | Ok payload => Some (finish_reason payload, finishReason_of payload)
                 | Err _ => None
                 end)
  = Some (Some "length", Some "stop").
Proof. vm_compute. reflexivity. Qed.

End ContinueSpec.

(** ** Facts about the adapter's message filters *)

Module AnthropicFacts.
Import Anthropic.

Lemma chat_message_eta (m : ChatMessage) : mkChatMessage (role m) (content m) = m.
Proof. now destruct m. Qed.

Lemma scan_messages ms sp pre :
  snd (scan ms sp pre) = pre ++ List.filter is_user_or_assistant ms.
Proof.
  revert sp pre. induction ms as [|m ms IH]; intros sp pre; cbn [scan List.filter].
  - now rewrite app_nil_r.
  - unfold is_user_or_assistant at 1.
    destruct (String.eqb (role m) "system") eqn:Hsys.
    + apply String.eqb_eq in Hsys. rewrite Hsys. cbn [String.eqb Ascii.eqb Bool.eqb orb andb].
      destruct (negb (String.eqb (content m) "")); cbn [andb]; apply IH.
    + cbn [andb].
      destruct (String.eqb (role m) "user" || String.eqb (role m) "assistant").
      * rewrite IH, chat_message_eta, <- app_assoc. reflexivity.
      * apply IH.
Qed.

Lemma alternate_acc ms e out : alternate ms e out = out ++ alternate ms e [].
Proof.
  revert e out. induction ms as [|m ms IH]; intros e out; cbn [alternate].
  - now rewrite app_nil_r.
  - destruct (String.eqb (role m) e).
    + rewrite (IH _ (out ++ [m])), (IH _ ([] ++ [m])), <- app_assoc. reflexivity.
    + apply IH.
Qed.

Lemma alternate_cons m ms e :
  alternate (m :: ms) e [] =
  if String.eqb (role m) e then m :: alternate ms (flip_role e) []
  else alternate ms e [].
Proof.
  cbn [alternate]. destruct (String.eqb (role m) e); [|reflexivity].
  now rewrite alternate_acc.
Qed.

Lemma alternate_alternates ms e : alternates_from e (alternate ms e []) = true.
Proof.
  revert e. induction ms as [|m ms IH]; intros e; [reflexivity|].
  rewrite alternate_cons. destruct (String.eqb (role m) e) eqn:He; [|apply IH].
  cbn [alternates_from]. now rewrite He, IH.
Qed.

Lemma flip_role_cases e : flip_role e = "user" \/ flip_role e = "assistant".
Proof. unfold flip_role. destruct (String.eqb e "user"); auto. Qed.

Lemma alternates_roles e ms :
  e = "user" \/ e = "assistant" ->
  alternates_from e ms = true ->
  forallb is_user_or_assistant ms = true.
Proof.
  revert e. induction ms as [|m ms IH]; intros e He Halt; [reflexivity|].
  cbn [alternates_from] in Halt. apply andb_true_iff in Halt as [Hm Halt].
  cbn [forallb]. apply andb_true_iff. split.
  - apply String.eqb_eq in Hm. unfold is_user_or_assistant. rewrite Hm.
    destruct He as [-> | ->]; reflexivity.
  - apply (IH (flip_role e)); [apply flip_role_cases | exact Halt].
Qed.

Lemma filter_sublist {A} (f : A -> bool) (l : list A) : sublist (List.filter f l) l.
Proof.
  induction l as [|a l IH]; cbn; [constructor|].
  destruct (f a); now constructor.
Qed.

Lemma alternate_sublist ms e : sublist (alternate ms e []) ms.
Proof.
  revert e. induction ms as [|m ms IH]; intros e; [constructor|].
  rewrite alternate_cons. destruct (String.eqb (role m) e); constructor; apply IH.
Qed.

Lemma anthropicMessages_of_eq request :
  anthropicMessages_of request =
  alternate (List.filter is_user_or_assistant (combinedMessages request)) "user" [].
Proof. unfold anthropicMessages_of. now rewrite scan_messages. Qed.





Lemma starts_with_user_alternates ms :
  ms <> [] -> alternates_from "user" ms = true -> starts_with_user ms = true.
Proof.
  destruct ms as [|m ms]; [congruence|]. cbn. intros _ H.
  now apply andb_true_iff in H as [H _].
Qed.

(** The code's rule for [max_tokens] is the specification's. *)
Lemma maxTokensForPayload_spec request :
  maxTokensForPayload request = spec_max_tokens (max_tokens_to_generate request).
Proof.
  unfold maxTokensForPayload, spec_max_tokens.
  destruct (max_tokens_to_generate request) as [m|]; [|reflexivity].
  destruct (Z.eqb_spec m 0), (Z.ltb_spec 0 m), (Z.leb_spec m 0); try lia; reflexivity.
Qed.



(** What [sendMessage] does, by the outcome of the request's
    construction. *)
Lemma sendMessage_sent {W : Type} (fetch : FetchInit -> W -> option HttpResponse * W)
    (apiKey : string) request modelIdentifier (w : W) :
  match buildPayload request modelIdentifier with
  | Ok p =>
      sent (sendMessage fetch apiKey request modelIdentifier w) = [fetchInit apiKey p]
  | Err e =>
      sent (sendMessage fetch apiKey request modelIdentifier w) = [] /\
      returned (sendMessage fetch apiKey request modelIdentifier w) = Err e /\
      after (sendMessage fetch apiKey request modelIdentifier w) = w
  end.
Proof.
  unfold sendMessage. destruct (buildPayload request modelIdentifier) as [p|e]; [|auto].
  destruct (fetch _ w) as [[response|] w']; [|reflexivity].
  destruct (negb (ok response)); [reflexivity|].
  destruct (json response); reflexivity.
Qed.

Lemma buildPayload_cases request modelIdentifier :
  match last (anthropicMessages_of request) with
  | None => buildPayload request modelIdentifier = Err NoValidMessages
  | Some m =>
      if String.eqb (role m) "user" then
        exists p, buildPayload request modelIdentifier = Ok p /\
                  payload_messages p = anthropicMessages_of request /\
                  max_tokens p = maxTokensForPayload request
      else buildPayload request modelIdentifier = Err HistoryFormatInvalid
  end.
Proof.
  unfold buildPayload. destruct (last (anthropicMessages_of request)) as [m|]; [|reflexivity].
  destruct (String.eqb (role m) "user"); cbn [negb]; [|reflexivity].
  eexists. split; [reflexivity|]. split; reflexivity.
Qed.

End AnthropicFacts.

(** ** Properties of [AnthropicAdapter.sendMessage] *)

Module AnthropicSpec.
Import Anthropic AnthropicFacts.


(** More generally no way of counting and no budget is enforced, as soon
    as some request that passes the format checks is over it. *)
Lemma no_budget_is_enforced (countTokens : AnthropicPayload -> Z)
    (context_window_tokens : Z) (request : ChatApiRequest) (modelIdentifier : string)
    (p : AnthropicPayload) :
  buildPayload request modelIdentifier = Ok p ->
  countTokens p > context_window_tokens ->
  ~ enforces_input_budget countTokens context_window_tokens.
Proof.
  intros Hp Hover H.
  destruct (H (echo_fetch "fine" None) "key" request modelIdentifier p Hp Hover)
    as [Hsent _].
  pose proof (sendMessage_sent (echo_fetch "fine" None) "key" request modelIdentifier tt)
    as Hs.
  rewrite Hp, Hsent in Hs. discriminate.
Qed.




(** A provider that stops on [max_tokens] yields ["length"], at top
    level, with no reason inside [token_usage]. *)
Example max_tokens_gives_length :
  match returned (sendMessage (echo_fetch " partial " (Some "max_tokens")) "key"
                    (request_of [] (Some "hello") None) "anthropic-claude" tt) with
  | Ok payload =>
      (resp_content payload, finish_reason payload, token_usage payload ≫= tu_finish_reason)
  | Err _ => ("", None, None)
  end = ("partial", Some "length", None).
Proof. vm_compute. reflexivity. Qed.

(** C6. The combined sequence is the history followed by the new message
    as a user message when there is one; the sequence kept is its
    alternation filter.  When that is empty, or its last message is not
    a user message, [sendMessage] throws and sends nothing; otherwise it
    sends exactly one request, whose messages are the kept sequence:
    only user and assistant roles, strictly alternating, starting and
    ending with a user message. *)
Theorem sent_messages_alternate_user_first_user_last {W : Type}
    (fetch : FetchInit -> W -> option HttpResponse * W) (apiKey : string)
    (request : ChatApiRequest) (modelIdentifier : string) (w : W) :
  let x := sendMessage fetch apiKey request modelIdentifier w in
  let ms := anthropicMessages_of request in
  let history := default [] (messages request) in
  match message request with
  | Some m =>
      if String.eqb m "" then combinedMessages request = history
      else combinedMessages request = history ++ [mkChatMessage "user" m]
  | None => combinedMessages request = history
  end /\
  ms = alternate (List.filter is_user_or_assistant (combinedMessages request)) "user" [] /\
  match last ms with
  | None => sent x = [] /\ returned x = Err NoValidMessages
  | Some m =>
      if String.eqb (role m) "user" then
        exists p,
          sent x = [fetchInit apiKey p] /\
          payload_messages p = ms /\
          forallb is_user_or_assistant ms = true /\
          alternates_from "user" ms = true /\
          starts_with_user ms = true /\
          ends_with_user ms = true
      else sent x = [] /\ returned x = Err HistoryFormatInvalid
  end /\
  Forall (fun init =>
            let sent_ms := payload_messages (body init) in
            forallb is_user_or_assistant sent_ms = true /\
            alternates_from "user" sent_ms = true /\
            starts_with_user sent_ms = true /\
            ends_with_user sent_ms = true) (sent x).
Proof.
  cbn zeta.
  assert (Halt : alternates_from "user" (anthropicMessages_of request) = true).
  { rewrite anthropicMessages_of_eq. apply alternate_alternates. }
  assert (Hroles : forallb is_user_or_assistant (anthropicMessages_of request) = true).
  { apply (alternates_roles "user"); [now left | exact Halt]. }
  pose proof (sendMessage_sent fetch apiKey request modelIdentifier w) as Hs.
  pose proof (buildPayload_cases request modelIdentifier) as Hb.
  split.
  { unfold combinedMessages. destruct (message request) as [m|]; [|apply app_nil_r].
    destruct (String.eqb m ""); cbn [negb]; [apply app_nil_r | reflexivity]. }
  split; [apply anthropicMessages_of_eq|].
  destruct (last (anthropicMessages_of request)) as [m|] eqn:Hlast.
  - destruct (String.eqb (role m) "user") eqn:Hm.
    + destruct Hb as (p & Hp & Hms & _). rewrite Hp in Hs.
      assert (Hne : anthropicMessages_of request <> []).
      { intros Hnil. rewrite Hnil in Hlast. discriminate. }
      assert (Hstart : starts_with_user (anthropicMessages_of request) = true)
        by now apply starts_with_user_alternates.
      assert (Hend : ends_with_user (anthropicMessages_of request) = true)
        by (unfold ends_with_user; now rewrite Hlast).
      split.
      * exists p. repeat split; assumption.
      * rewrite Hs. constructor; [|constructor].
        cbn [body fetchInit]. rewrite Hms. repeat split; assumption.
    + rewrite Hb in Hs. destruct Hs as (Hs & Hr & _). rewrite Hs.
      split; [split; [reflexivity | exact Hr] | constructor].
  - rewrite Hb in Hs. destruct Hs as (Hs & Hr & _). rewrite Hs.
    split; [split; [reflexivity | exact Hr] | constructor].
Qed.

(** Out-of-turn messages are dropped, the system message leaves the
    sequence, and the new message closes it. *)
Example alternation_filter_example :
  anthropicMessages_of
    (request_of [mkChatMessage "system" "be brief"; mkChatMessage "assistant" "x";
                 mkChatMessage "user" "a"; mkChatMessage "user" "b";
                 mkChatMessage "assistant" "c"] (Some "hello") None)
  = [mkChatMessage "user" "a"; mkChatMessage "assistant" "c"; mkChatMessage "user" "hello"].
Proof. vm_compute. reflexivity. Qed.

(** A history that ends with an assistant message and no new message:
    nothing is sent. *)
Example history_ending_with_assistant_is_rejected :
  let x := sendMessage (echo_fetch "fine" None) "key"
             (request_of [mkChatMessage "user" "a"; mkChatMessage "assistant" "b"] None None)
             "anthropic-claude" tt in
  (sent x, returned x) = ([], Err HistoryFormatInvalid).
Proof. vm_compute. reflexivity. Qed.

(** The filter applies to the new message too: after a history that ends
    with a user message it is out of turn and is not sent. *)
Example new_message_after_user_message_is_dropped :
  anthropicMessages_of (request_of [mkChatMessage "user" "a"] (Some "b") None)
  = [mkChatMessage "user" "a"].
Proof. vm_compute. reflexivity. Qed.


(** The four cases of [max_tokens_to_generate] on requests that are sent. *)
Example max_tokens_examples :
  map (fun mt =>
         map (fun init => max_tokens (body init))
             (sent (sendMessage (echo_fetch "fine" None) "key"
                      (request_of [] (Some "hello") mt) "anthropic-claude" tt)))
      [None; Some 0; Some (-5); Some 1000]
  = [[4096]; [4096]; [4096]; [1000]].
Proof. vm_compute. reflexivity. Qed.

End AnthropicSpec.

(** ** Properties of [createCanonicalPathParams] *)

Module CanonicalSpec.
Import Canonical.

Lemma slugs_of_elem (sourceDocs : list SourceDocument) (s : string) :
  s ∈ slugs_of sourceDocs <-> s ∈ map model_name sourceDocs.
Proof.
  unfold slugs_of. rewrite merge_sort_Permutation. apply elem_of_remove_dups.
Qed.

Lemma slugs_of_NoDup (sourceDocs : list SourceDocument) : NoDup (slugs_of sourceDocs).
Proof.
  unfold slugs_of. rewrite merge_sort_Permutation. apply NoDup_remove_dups.
Qed.

Lemma slugs_of_sorted (sourceDocs : list SourceDocument) :
  StronglySorted String.le (slugs_of sourceDocs).
Proof. apply StronglySorted_merge_sort; apply _. Qed.

(** Sorted and free of duplicates is strictly ascending. *)
Lemma sorted_nodup_strict (l : list string) :
  StronglySorted String.le l -> NoDup l -> StronglySorted (strict String.le) l.
Proof.
  induction 1 as [|x l Hs IH Hall]; intros Hnd; [constructor|].
  apply NoDup_cons in Hnd as [Hx Hnd].
  constructor; [now apply IH|].
  rewrite Forall_forall in Hall |- *. intros y Hy.
  split; [now apply Hall|].
  intros Hyx. apply Hx.
  assert (x = y) as -> by (apply (anti_symm String.le); [now apply Hall | exact Hyx]).
  exact Hy.
Qed.

(** The order of the input does not matter. *)
Lemma slugs_of_Permutation (docs1 docs2 : list SourceDocument) :
  docs1 ≡ₚ docs2 -> slugs_of docs1 = slugs_of docs2.
Proof.
  intros Hperm.
  apply (Sorted_unique String.le).
  - apply Sorted_merge_sort; apply _.
  - apply Sorted_merge_sort; apply _.
  - apply NoDup_Permutation; [apply slugs_of_NoDup | apply slugs_of_NoDup |].
    intros s. rewrite !slugs_of_elem.
    now rewrite (Permutation_map model_name Hperm).
Qed.

(** C8. For every list of source documents, in whatever order and with
    whatever repetitions, [sourceModelSlugs] is present, sorted
    ascending (each slug is at most every later one, and in fact
    strictly below it), free of duplicates, and holds exactly the slugs
    of the documents. *)
Theorem sourceModelSlugs_sorted_without_duplicates
    (sourceDocs : list SourceDocument) (outputType : string) (anchorDoc : SourceDocument) :
  exists slugs,
    sourceModelSlugs (createCanonicalPathParams sourceDocs outputType anchorDoc)
      = Some slugs /\
    Sorted String.le slugs /\
    StronglySorted String.le slugs /\
    NoDup slugs /\
    StronglySorted (strict String.le) slugs /\
    (forall s, s ∈ slugs <-> s ∈ map model_name sourceDocs) /\
    (forall sourceDocs', sourceDocs' ≡ₚ sourceDocs ->
       sourceModelSlugs (createCanonicalPathParams sourceDocs' outputType anchorDoc)
         = Some slugs).
Proof.
  exists (slugs_of sourceDocs). split; [reflexivity|].
  split; [apply Sorted_merge_sort; apply _|].
  split; [apply slugs_of_sorted|].
  split; [apply slugs_of_NoDup|].
  split; [apply sorted_nodup_strict; [apply slugs_of_sorted | apply slugs_of_NoDup]|].
  split; [apply slugs_of_elem|].
  intros docs' Hperm. cbn. f_equal. now apply slugs_of_Permutation.
Qed.

(** The scenario of the specification: models ["gpt-x"], ["claude-y"] in
    that order, and once more ["gpt-x"]. *)
Example reversed_input_is_sorted :
  sourceModelSlugs
    (createCanonicalPathParams
       [mkSourceDocument "1" "thesis" "gpt-x" [];
        mkSourceDocument "2" "antithesis" "claude-y" [];
        mkSourceDocument "3" "antithesis" "gpt-x" []]
       "synthesis" (mkSourceDocument "1" "thesis" "gpt-x" []))
  = Some ["claude-y"; "gpt-x"].
Proof. vm_compute. reflexivity. Qed.

Example empty_input_gives_empty_slugs :
  sourceModelSlugs
    (createCanonicalPathParams [] "synthesis" (mkSourceDocument "1" "thesis" "gpt-x" []))
  = Some [].
Proof. vm_compute. reflexivity. Qed.

End CanonicalSpec.

(** ** Further properties of [handleContinuationLoop] *)

Module ContinueTraceSpec.
Import Continue ContinueFacts ContinueTrace ContinueTraceFacts.

(** X1. The request of the i-th call (counting from 0) is the initial
    request with the contents of the first i responses appended to its
    history as assistant messages, in order; the first call gets the
    history as given (or the empty one); the other fields of the request
    never change. *)
Theorem continuation_requests_extend_history {E St : Type}
    (sendMessage : ChatApiRequest -> string -> string -> St ->
                   result E AdapterResponsePayload * St)
    (providerApiIdentifier apiKey : string)
    (initialApiRequest : ChatApiRequest) (w : St) :
  exists run,
    handleContinuationLoop sendMessage providerApiIdentifier apiKey initialApiRequest w
      = Some run /\
    forall (i : nat) (c : Call E),
      calls run !! i = Some c ->
      messages (call_request c) =
        Some (default [] (messages initialApiRequest) ++
              map (mkChatMessage "assistant")
                  (take i (map resp_content (responses (calls run))))) /\
      message (call_request c) = message initialApiRequest /\
      providerId (call_request c) = providerId initialApiRequest /\
      promptId (call_request c) = promptId initialApiRequest /\
      max_tokens_to_generate (call_request c) = max_tokens_to_generate initialApiRequest.
Proof.
  destruct (run_trace sendMessage providerApiIdentifier apiKey initialApiRequest w)
    as (run & init & lastc & Hrun & Hcalls & Hreqs & _).
  exists run. split; [exact Hrun|]. intros i c Hi.
  assert (Hlt : (i < length (calls run))%nat) by (eapply lookup_lt_Some; eauto).
  assert (Hreq : map call_request (calls run) !! i = Some (call_request c)).
  { change (map call_request (calls run)) with (call_request <$> calls run).
    now rewrite list_lookup_fmap, Hi. }
  rewrite Hreqs in Hreq. rewrite lookup_take_lt in Hreq by exact Hlt.
  assert (Hresp : (length (responses (calls run)) <= length (calls run))%nat).
  { apply responses_length_le. }
  destruct (decide (i <= length (map resp_content (responses (calls run))))%nat) as [Hle|Hgt].
  - rewrite requests_from_lookup in Hreq by exact Hle.
    injection Hreq as <-.
    destruct (pushed_fields (initial_request initialApiRequest)
                (take i (map resp_content (responses (calls run)))))
      as (H1 & H2 & H3 & H4 & H5).
    rewrite H1, H2, H3, H4, H5. cbn [initial_request message providerId promptId
      max_tokens_to_generate messages default].
    repeat split.
    destruct (take i (map resp_content (responses (calls run)))); [|reflexivity].
    cbn. now rewrite app_nil_r.
  - apply lookup_lt_Some in Hreq. rewrite requests_from_length in Hreq. lia.
Qed.

(** X2. The loop goes on exactly while the answers say ["length"]: in
    every execution the recorded calls are the ones [sendMessage]
    answered, one after the other from the initial state, the first one
    with the initial request; all calls but the last returned a response
    whose reason is ["length"], there are at most [MAX_CONTINUATIONS] of
    them, and a last call that also says ["length"] is the fifth.  When
    the last call threw, the execution throws the same error and nothing
    of what was accumulated is returned. *)
Theorem loop_continues_exactly_on_length {E St : Type}
    (sendMessage : ChatApiRequest -> string -> string -> St ->
                   result E AdapterResponsePayload * St)
    (providerApiIdentifier apiKey : string)
    (initialApiRequest : ChatApiRequest) (w : St) :
  exists run init lastc,
    handleContinuationLoop sendMessage providerApiIdentifier apiKey initialApiRequest w
      = Some run /\
    calls run = init ++ [lastc] /\
    replay sendMessage providerApiIdentifier apiKey (map call_request (calls run)) w
      = (calls run, world run) /\
    head (map call_request (calls run)) = Some (initial_request initialApiRequest) /\
    forallb call_reports_length init = true /\
    (length init <= MAX_CONTINUATIONS)%nat /\
    (if call_reports_length lastc then length init = MAX_CONTINUATIONS else True) /\
    match call_result lastc with
    | Ok _ => exists payload, outcome run = Ok payload
    | Err e => outcome run = Err (AdapterThrew e)
    end.
Proof.
  destruct (ContinueSpec.run_full sendMessage providerApiIdentifier apiKey
              initialApiRequest w)
    as (ex & init & lastc & w' & Hrun & Hreqs & Hrep & Hall & Hle & Hcap & Hex).
  eexists _, init, lastc. split; [exact Hrun|]. cbn [calls world outcome].
  split; [reflexivity|]. split; [exact Hrep|].
  split.
  { rewrite Hreqs.
    destruct (map resp_content (responses (init ++ [lastc]))); reflexivity. }
  split; [exact Hall|]. split; [exact Hle|].
  split; [destruct (call_reports_length lastc); [apply Hcap; reflexivity | exact I]|].
  destruct ex as [s'|e].
  - destruct Hex as (Hret & _ & _ & _ & [lr Hsome] & _).
    rewrite forallb_app in Hret. apply andb_true_iff in Hret as [_ Hret].
    unfold call_returned in Hret. cbn in Hret.
    destruct (call_result lastc); [|discriminate].
    unfold finalize. rewrite Hsome. eauto.
  - destruct Hex as [req ->]. reflexivity.
Qed.

(** The adapter's state is threaded through the calls and touched by
    nothing else: making the same requests by hand, one after the other
    from the initial state, gives the same results and the same final
    state. *)
Theorem adapter_state_is_threaded {E St : Type}
    (sendMessage : ChatApiRequest -> string -> string -> St ->
                   result E AdapterResponsePayload * St)
    (providerApiIdentifier apiKey : string)
    (initialApiRequest : ChatApiRequest) (w : St) :
  exists run,
    handleContinuationLoop sendMessage providerApiIdentifier apiKey initialApiRequest w
      = Some run /\
    replay sendMessage providerApiIdentifier apiKey (map call_request (calls run)) w
      = (calls run, world run).
Proof.
  destruct (run_trace sendMessage providerApiIdentifier apiKey initialApiRequest w)
    as (run & init & lastc & Hrun & _ & _ & Hrep & _).
  exists run. split; [exact Hrun | exact Hrep].
Qed.

(** Three answers, the third one complete: three requests, the history
    growing by one assistant message each time. *)
Example three_calls_history :
  (handleContinuationLoop scripted "model" "key"
     (mkChatApiRequest (Some "hi") None None (Some [mkChatMessage "user" "q"]) None)
     [Ok (response_of "a" 1 1 (Some "length") None);
      Ok (response_of "b" 1 1 (Some "length") None);
      Ok (response_of "c" 1 1 (Some "stop") None);
      Ok (response_of "d" 1 1 (Some "stop") None)])
  ≫= (fun run => Some (map (fun c => default [] (messages (call_request c))) (calls run),
                        length (world run)))
  = Some ([[mkChatMessage "user" "q"];
           [mkChatMessage "user" "q"; mkChatMessage "assistant" "a"];
           [mkChatMessage "user" "q"; mkChatMessage "assistant" "a";
            mkChatMessage "assistant" "b"]], 1%nat).
Proof. vm_compute. reflexivity. Qed.

End ContinueTraceSpec.

(** ** Further properties of the Anthropic adapter *)

Module AnthropicMoreSpec.
Import Anthropic AnthropicFacts AnthropicModels.

(** *** The system prompt *)

Lemma scan_system ms sp pre :
  fst (scan ms sp pre) =
  default sp (last (map content (List.filter is_system_prompt ms))).
Proof.
  revert sp pre. induction ms as [|m ms IH]; intros sp pre; [reflexivity|].
  cbn [scan List.filter]. unfold is_system_prompt at 1.
  destruct (String.eqb (role m) "system" && negb (String.eqb (content m) "")).
  - rewrite IH. cbn [map]. rewrite last_cons.
    now destruct (last (map content (List.filter is_system_prompt ms))).
  - destruct (String.eqb (role m) "user" || String.eqb (role m) "assistant"); apply IH.
Qed.

Lemma filtered_contents_nonempty ms s :
  last (map content (List.filter is_system_prompt ms)) = Some s -> s <> "".
Proof.
  intros Hl. apply last_Some in Hl as [l' Hl].
  assert (Hin : In s (map content (List.filter is_system_prompt ms))).
  { rewrite Hl. apply in_or_app. right. now left. }
  apply in_map_iff in Hin as (m & <- & Hm).
  apply filter_In in Hm as [_ Hm]. unfold is_system_prompt in Hm.
  apply andb_true_iff in Hm as [_ Hm]. apply negb_true_iff in Hm.
  now apply String.eqb_neq.
Qed.

(** X3. The [system] field of a request that is sent is the content of
    the last system message with a non-empty content among the request's
    messages, and is absent when there is none; earlier system messages
    are overridden, not concatenated. *)
Theorem system_is_last_nonempty_system_message {W : Type}
    (fetch : FetchInit -> W -> option HttpResponse * W) (apiKey : string)
    (request : ChatApiRequest) (modelIdentifier : string) (w : W) :
  Forall (fun init =>
            system (body init) =
            last (map content (List.filter is_system_prompt (combinedMessages request))))
         (sent (sendMessage fetch apiKey request modelIdentifier w)) /\
  (if ends_with_user (anthropicMessages_of request) then
     exists init, sent (sendMessage fetch apiKey request modelIdentifier w) = [init]
   else sent (sendMessage fetch apiKey request modelIdentifier w) = []).
Proof.
  pose proof (sendMessage_sent fetch apiKey request modelIdentifier w) as Hs.
  unfold buildPayload in Hs. unfold ends_with_user.
  destruct (last (anthropicMessages_of request)) as [m|].
  - destruct (String.eqb (role m) "user"); cbn [negb] in Hs.
    + rewrite Hs. split; [|eauto]. constructor; [|constructor].
      cbn [body fetchInit system]. rewrite scan_system.
      destruct (last (map content (List.filter is_system_prompt (combinedMessages request))))
        as [s|] eqn:Hl; [|reflexivity].
      change (default "" (Some s)) with s.
      apply filtered_contents_nonempty in Hl. apply String.eqb_neq in Hl.
      now rewrite Hl.
    + destruct Hs as (-> & _). split; [constructor | reflexivity].
  - destruct Hs as (-> & _). split; [constructor | reflexivity].
Qed.

Example later_system_message_wins :
  map (fun init => system (body init))
      (sent (sendMessage (echo_fetch "fine" None) "key"
               (request_of [mkChatMessage "system" "first"; mkChatMessage "user" "a";
                            mkChatMessage "system" "second"; mkChatMessage "system" ""]
                  (Some "hello") None) "claude" tt))
  = [Some "second"].
Proof. vm_compute. reflexivity. Qed.

(** *** A request with a new message is always sent *)





(** *** The alternation filter on sequences that already alternate *)

Lemma alternate_fixpoint ms e :
  alternates_from e ms = true -> alternate ms e [] = ms.
Proof.
  revert e. induction ms as [|m ms IH]; intros e H; [reflexivity|].
  cbn [alternates_from] in H. apply andb_true_iff in H as [Hm H].
  rewrite alternate_cons, Hm. f_equal. now apply IH.
Qed.

Lemma filter_all {A} (f : A -> bool) (l : list A) :
  forallb f l = true -> List.filter f l = l.
Proof.
  induction l as [|a l IH]; [reflexivity|]. cbn. intros H.
  apply andb_true_iff in H as [Ha H]. rewrite Ha. f_equal. now apply IH.
Qed.

(** X5. The filter leaves well-formed conversations alone and is
    idempotent.  When the request's messages (history and new message)
    already alternate between user and assistant starting and ending
    with a user message, they are sent exactly as they are, none dropped
    and in the same order.  And for every request and every sequence,
    well formed or not, filtering a filtered sequence again changes
    nothing: this holds of the alternation loop for any expected role,
    and of the two loops together, when the messages they kept are
    handed back as the history of a request without a new message. *)
Theorem well_formed_conversation_is_sent_unchanged {W : Type}
    (fetch : FetchInit -> W -> option HttpResponse * W) (apiKey : string)
    (request : ChatApiRequest) (modelIdentifier : string) (w : W) :
  (alternates_from "user" (combinedMessages request) = true ->
   ends_with_user (combinedMessages request) = true ->
   exists p,
     sent (sendMessage fetch apiKey request modelIdentifier w) = [fetchInit apiKey p] /\
     payload_messages p = combinedMessages request) /\
  (forall (ms : list ChatMessage) (expectedRole : string),
     alternate (alternate ms expectedRole []) expectedRole [] = alternate ms expectedRole []) /\
  anthropicMessages_of
    (mkChatApiRequest None (providerId request) (promptId request)
       (Some (anthropicMessages_of request)) (max_tokens_to_generate request))
  = anthropicMessages_of request.
Proof.
  split; [|split].
  - intros Halt Hend.
    assert (Hid : anthropicMessages_of request = combinedMessages request).
    { rewrite anthropicMessages_of_eq, filter_all.
      - now apply alternate_fixpoint.
      - apply (alternates_roles "user"); [now left | exact Halt]. }
    pose proof (sendMessage_sent fetch apiKey request modelIdentifier w) as Hs.
    pose proof (buildPayload_cases request modelIdentifier) as Hb.
    rewrite Hid in Hb. unfold ends_with_user in Hend.
    destruct (last (combinedMessages request)) as [m|]; [|discriminate].
    rewrite Hend in Hb. destruct Hb as (p & Hp & Hms & _). rewrite Hp in Hs.
    exists p. split; [exact Hs | exact Hms].
  - intros ms expectedRole. apply alternate_fixpoint, alternate_alternates.
  - rewrite (anthropicMessages_of_eq (mkChatApiRequest _ _ _ _ _)).
    unfold combinedMessages. cbn [messages message default]. rewrite app_nil_r.
    assert (Halt : alternates_from "user" (anthropicMessages_of request) = true).
    { rewrite anthropicMessages_of_eq. apply alternate_alternates. }
    rewrite filter_all.
    + now apply alternate_fixpoint.
    + apply (alternates_roles "user"); [now left | exact Halt].
Qed.

Lemma well_formed_conversation_is_sent_unchanged_witness :
  exists p,
    sent (sendMessage (echo_fetch "fine" None) "key"
            (request_of [mkChatMessage "user" "a"; mkChatMessage "assistant" "b"]
               (Some "c") None) "claude" tt) = [fetchInit "key" p] /\
    payload_messages p =
      [mkChatMessage "user" "a"; mkChatMessage "assistant" "b"; mkChatMessage "user" "c"].
Proof.
  destruct (well_formed_conversation_is_sent_unchanged (echo_fetch "fine" None) "key"
              (request_of [mkChatMessage "user" "a"; mkChatMessage "assistant" "b"]
                 (Some "c") None) "claude" tt)
    as [Hsent _].
  destruct (Hsent eq_refl eq_refl) as (p & Hs & Hms).
  exists p. split; [exact Hs | exact Hms].
Defined.

(** *** The content of the answer *)

Lemma string_app_cons a w r : (String a w +:+ r)%string = String a (w +:+ r).
Proof. reflexivity. Qed.

Lemma string_app_nil_l r : ("" +:+ r)%string = r.
Proof. reflexivity. Qed.

Lemma string_app_empty w r : (w +:+ r)%string = "" -> w = "" /\ r = "".
Proof. destruct w; [intros H; now rewrite string_app_nil_l in H | discriminate]. Qed.

(** Nothing that starts a trimmed-at-start string is white space. *)
Lemma trim_start_no_space n s :
  (String.length s <= n)%nat ->
  forall w r, trim_start s = (w +:+ r)%string -> is_white_space w = false.
Proof.
  revert s. induction n as [|n IH]; intros s Hn w r H.
  - destruct s; [|cbn in Hn; lia]. cbn in H. symmetry in H.
    apply string_app_empty in H as [-> _]. reflexivity.
  - destruct s as [|a s1].
    { cbn in H. symmetry in H. apply string_app_empty in H as [-> _]. reflexivity. }
    cbn [String.length] in Hn. cbn [trim_start] in H.
    destruct (is_space a) eqn:Ha; [eapply (IH s1); [lia | exact H]|].
    destruct s1 as [|b s2].
    { destruct w as [|a' [|b' w]]; [reflexivity| |].
      - rewrite string_app_cons in H. injection H as <- _. exact Ha.
      - rewrite !string_app_cons in H. discriminate. }
    cbn [String.length] in Hn.
    destruct (is_space2 a b) eqn:Hab; [eapply (IH s2); [lia | exact H]|].
    destruct s2 as [|c s3].
    { destruct w as [|a' [|b' [|c' w]]]; [reflexivity| | |].
      - rewrite string_app_cons in H. injection H as <- _. exact Ha.
      - rewrite !string_app_cons in H. injection H as <- <- _. exact Hab.
      - rewrite !string_app_cons in H. discriminate. }
    cbn [String.length] in Hn.
    destruct (is_space3 a b c) eqn:Habc; [eapply (IH s3); [lia | exact H]|].
    destruct w as [|a' [|b' [|c' [|d' w]]]]; [reflexivity| | | |reflexivity].
    + rewrite string_app_cons in H. injection H as <- _. exact Ha.
    + rewrite !string_app_cons in H. injection H as <- <- _. exact Hab.
    + rewrite !string_app_cons in H. injection H as <- <- <- _. exact Habc.
Qed.

Lemma trim_end_prefix s : exists x, s = (trim_end s +:+ x)%string.
Proof.
  induction s as [|c s [x IH]]; [now exists ""|]. cbn [trim_end].
  destruct (is_white_space _).
  - eexists. rewrite string_app_nil_l. reflexivity.
  - exists x. rewrite string_app_cons. now rewrite <- IH.
Qed.

Lemma trim_end_no_space s p w :
  trim_end s = (p +:+ w)%string -> is_white_space w = false.
Proof.
  revert p. induction s as [|c s IH]; intros p H.
  - cbn in H. symmetry in H. apply string_app_empty in H as [_ ->]. reflexivity.
  - cbn [trim_end] in H. destruct (is_white_space (String c (trim_end s))) eqn:Hc.
    + symmetry in H. apply string_app_empty in H as [_ ->]. reflexivity.
    + destruct p as [|c' p].
      * rewrite string_app_nil_l in H. now rewrite <- H.
      * rewrite string_app_cons in H. injection H as _ H. eapply IH, H.
Qed.

Lemma trim_no_outer_space s :
  (forall w r, trim s = (w +:+ r)%string -> is_white_space w = false) /\
  (forall p w, trim s = (p +:+ w)%string -> is_white_space w = false).
Proof.
  unfold trim. split.
  - intros w r H. destruct (trim_end_prefix (trim_start s)) as [x Hx].
    rewrite H, <- string_app_assoc in Hx.
    eapply trim_start_no_space; [reflexivity | exact Hx].
  - intros p w. apply trim_end_no_space.
Qed.

Lemma all_space_trim_start n s :
  (String.length s <= n)%nat -> all_space s = true -> trim_start s = "".
Proof.
  revert s. induction n as [|n IH]; intros s Hn H.
  - destruct s; [reflexivity | cbn in Hn; lia].
  - destruct s as [|a s1]; [reflexivity|].
    cbn [String.length] in Hn. cbn [trim_start all_space] in *.
    destruct (is_space a); [apply IH; [lia | exact H]|].
    destruct s1 as [|b s2]; [discriminate|]. cbn [String.length] in Hn.
    destruct (is_space2 a b); [apply IH; [lia | exact H]|].
    destruct s2 as [|c s3]; [discriminate|]. cbn [String.length] in Hn.
    apply andb_true_iff in H as [-> H]. apply IH; [lia | exact H].
Qed.

Lemma trim_all_space s : all_space s = true -> trim s = "".
Proof.
  intros H. unfold trim. now rewrite (all_space_trim_start _ s (le_n _) H).
Qed.

(** X6. A payload is returned only for an answer whose first content
    block is of type ["text"] with a text that is not all white space;
    the payload's content is that text trimmed: never empty, and with no
    white-space character at its start or at its end (white space being
    that of [String.prototype.trim]: U+00A0, U+2028, U+FEFF and the
    others as well as the ASCII ones); later blocks are not read, and
    the role is always ["assistant"]. *)
Theorem returned_content_is_first_text_block_trimmed {W : Type}
    (fetch : FetchInit -> W -> option HttpResponse * W) (apiKey : string)
    (request : ChatApiRequest) (modelIdentifier : string) (w : W) :
  match returned (sendMessage fetch apiKey request modelIdentifier w) with
  | Ok payload =>
      exists init response jsonResponse block rest,
        sent (sendMessage fetch apiKey request modelIdentifier w) = [init] /\
        fst (fetch init w) = Some response /\
        ok response = true /\
        json response = Some jsonResponse /\
        json_content jsonResponse = Some (block :: rest) /\
        block_type block = Some "text" /\
        all_space (block_text block) = false /\
        resp_content payload = trim (block_text block) /\
        resp_content payload <> "" /\
        (forall first rest',
           resp_content payload = (first +:+ rest')%string -> is_white_space first = false) /\
        (forall front last',
           resp_content payload = (front +:+ last')%string -> is_white_space last' = false) /\
        resp_role payload = "assistant"
  | Err _ => True
  end.
Proof.
  unfold sendMessage.
  destruct (buildPayload request modelIdentifier) as [p|e]; [|exact I].
  destruct (fetch (fetchInit apiKey p) w) as [[response|] w'] eqn:Hf; [|exact I].
  destruct (ok response) eqn:Hok; cbn [negb]; [|exact I].
  destruct (json response) as [j|] eqn:Hj; [|exact I].
  cbn [returned sent]. unfold readResponse.
  destruct (String.eqb_spec (assistantMessageContent j) "") as [|Hne]; [exact I|].
  unfold assistantMessageContent in *.
  destruct (json_content j) as [[|b rest]|] eqn:Hc; try congruence.
  destruct (block_type b) as [t|] eqn:Ht; try congruence.
  destruct (String.eqb_spec t "text") as [->|]; try congruence.
  exists (fetchInit apiKey p), response, j, b, rest. rewrite Hf.
  cbn [fst resp_content resp_role].
  destruct (trim_no_outer_space (block_text b)) as [Hs He].
  repeat split; try assumption; try reflexivity.
  destruct (all_space (block_text b)) eqn:Hall; [|reflexivity].
  apply trim_all_space in Hall. congruence.
Qed.

(** SPACE, U+00A0, ["hi"], U+2028 and LF trim to ["hi"]; white space
    inside the text stays. *)
Example trim_examples :
  trim (String (ascii_of_N 32) (String (ascii_of_N 194) (String (ascii_of_N 160)
         ("hi" +:+ String (ascii_of_N 226) (String (ascii_of_N 128)
                    (String (ascii_of_N 168) (String (ascii_of_N 10) "")))))))
  = "hi" /\
  trim (" a" +:+ String (ascii_of_N 194) (String (ascii_of_N 160) "b "))
  = ("a" +:+ String (ascii_of_N 194) (String (ascii_of_N 160) "b"))%string.
Proof. vm_compute. split; reflexivity. Qed.

(** An answer of U+00A0, U+2028 and U+FEFF only is an empty answer. *)
Example unicode_white_space_answer_is_rejected :
  returned (sendMessage
              (echo_fetch (String (ascii_of_N 194) (String (ascii_of_N 160)
                           (String (ascii_of_N 226) (String (ascii_of_N 128)
                           (String (ascii_of_N 168) (String (ascii_of_N 239)
                           (String (ascii_of_N 187) (String (ascii_of_N 191) ""))))))))
                 (Some "end_turn")) "key"
              (request_of [] (Some "hello") None) "claude" tt)
  = Err EmptyResponse.
Proof. vm_compute. reflexivity. Qed.

Example white_space_answer_is_rejected :
  returned (sendMessage (echo_fetch "  " (Some "end_turn")) "key"
              (request_of [] (Some "hello") None) "claude" tt)
  = Err EmptyResponse.
Proof. vm_compute. reflexivity. Qed.

(** *** The shape of what is sent *)

Lemma flip_flip e : e = "user" \/ e = "assistant" -> flip_role (flip_role e) = e.
Proof. intros [-> | ->]; reflexivity. Qed.

Lemma alternates_last_role ms e m :
  e = "user" \/ e = "assistant" ->
  alternates_from e ms = true ->
  last ms = Some m ->
  role m = if Nat.odd (length ms) then e else flip_role e.
Proof.
  revert e. induction ms as [|m1 ms IH]; intros e He Halt Hlast; [discriminate|].
  cbn [alternates_from] in Halt. apply andb_true_iff in Halt as [Hm1 Halt].
  destruct ms as [|m2 ms].
  - cbn in Hlast. injection Hlast as <-. cbn. now apply String.eqb_eq.
  - rewrite last_cons_cons in Hlast.
    specialize (IH (flip_role e) (flip_role_cases e) Halt Hlast).
    rewrite IH. change (length (m1 :: m2 :: ms)) with (S (length (m2 :: ms))).
    rewrite Nat.odd_succ, <- Nat.negb_odd.
    destruct (Nat.odd (length (m2 :: ms))); cbn [negb]; [reflexivity|].
    now apply flip_flip.
Qed.

Lemma sublist_filter_length {A} (f : A -> bool) (l : list A) :
  (length (List.filter f l) <= length l)%nat.
Proof. induction l as [|a l IH]; cbn; [lia|]. destruct (f a); cbn; lia. Qed.

(** X7. Every request that is sent has an odd number of messages (user,
    assistant, ..., user), no more than the request has user and
    assistant messages, the first one being the first user message of
    the request; and its [max_tokens] is positive. *)
Theorem sent_request_shape {W : Type}
    (fetch : FetchInit -> W -> option HttpResponse * W) (apiKey : string)
    (request : ChatApiRequest) (modelIdentifier : string) (w : W) :
  Forall (fun init =>
            let ms := payload_messages (body init) in
            Nat.odd (length ms) = true /\
            (length ms <=
             length (List.filter is_user_or_assistant (combinedMessages request)))%nat /\
            head ms = head (List.filter is_user (combinedMessages request)) /\
            0 < max_tokens (body init))
         (sent (sendMessage fetch apiKey request modelIdentifier w)).
Proof.
  pose proof (sendMessage_sent fetch apiKey request modelIdentifier w) as Hs.
  pose proof (buildPayload_cases request modelIdentifier) as Hb.
  destruct (last (anthropicMessages_of request)) as [m|] eqn:Hlast.
  - destruct (String.eqb (role m) "user") eqn:Hm.
    + destruct Hb as (p & Hp & Hms & Hmax). rewrite Hp in Hs. rewrite Hs.
      constructor; [|constructor]. cbn [body fetchInit]. cbn zeta. rewrite Hms, Hmax.
      assert (Halt : alternates_from "user" (anthropicMessages_of request) = true).
      { rewrite anthropicMessages_of_eq. apply alternate_alternates. }
      split.
      { pose proof (alternates_last_role _ "user" m (or_introl eq_refl) Halt Hlast) as Hr.
        apply String.eqb_eq in Hm. rewrite Hm in Hr.
        destruct (Nat.odd (length (anthropicMessages_of request))); [reflexivity|].
        discriminate. }
      split.
      { rewrite anthropicMessages_of_eq.
        apply sublist_length, alternate_sublist. }
      split.
      { rewrite anthropicMessages_of_eq.
        generalize (combinedMessages request). intros l.
        induction l as [|a l IH]; [reflexivity|].
        cbn [List.filter]. unfold is_user_or_assistant at 1. unfold is_user at 1.
        destruct (String.eqb (role a) "user") eqn:Ha; cbn [orb].
        - rewrite alternate_cons, Ha. reflexivity.
        - destruct (String.eqb (role a) "assistant"); [|exact IH].
          rewrite alternate_cons, Ha. exact IH. }
      rewrite maxTokensForPayload_spec. unfold spec_max_tokens.
      destruct (max_tokens_to_generate request) as [n|]; [|lia].
      destruct (Z.leb_spec n 0); lia.
    + rewrite Hb in Hs. destruct Hs as (-> & _). constructor.
  - rewrite Hb in Hs. destruct Hs as (-> & _). constructor.
Qed.

(** *** [listModels] *)

Lemma strip_added_prefix (id : string) :
  strip_anthropic_prefix ("anthropic-" +:+ id) = id.
Proof. reflexivity. Qed.

(** X8. [listModels] returns one entry per item of the provider's list,
    in the same order, named after the item (its id when it has no
    name), with the identifier ["anthropic-" + id]; and the identifiers
    it returns are the ones [sendMessage] understands: sent back as the
    model identifier, each gives the provider its own id as [model].
    Without a successful answer carrying a [data] list nothing is
    returned (no fallback list). *)
Theorem listed_identifiers_round_trip {W : Type}
    (fetchModels : FetchModelsInit -> W -> option ModelsResponse * W) (apiKey : string)
    (w : W) :
  match fst (listModels fetchModels apiKey w) with
  | Ok models =>
      exists response jsonResponse items,
        fst (fetchModels (modelsInit apiKey) w) = Some response /\
        models_ok response = true /\
        models_json response = Some jsonResponse /\
        data jsonResponse = Some items /\
        length models = length items /\
        map api_identifier models = map (fun i => ("anthropic-" +:+ item_id i)%string) items /\
        map (fun m => strip_anthropic_prefix (api_identifier m)) models = map item_id items /\
        map name models =
          map (fun i => match item_name i with
                        | Some n => if String.eqb n "" then item_id i else n
                        | None => item_id i
                        end) items /\
        Forall2 (fun m i =>
                   forall request,
                     match buildPayload request (api_identifier m) with
                     | Ok p => model p = item_id i
                     | Err _ => True
                     end) models items
  | Err e =>
      match fst (fetchModels (modelsInit apiKey) w) with
      | None => e = ModelsFetchRejected
      | Some response =>
          if models_ok response then
            (models_json response = None /\ e = ModelsInvalidJson) \/
            (exists j, models_json response = Some j /\ data j = None /\
                       e = ModelsInvalidFormat)
          else e = ModelsRequestFailed (models_status response) (models_statusText response)
      end
  end.
Proof.
  unfold listModels.
  destruct (fetchModels (modelsInit apiKey) w) as [[response|] w']; [|reflexivity].
  cbn [fst]. destruct (models_ok response) eqn:Hok; cbn [negb fst]; [|reflexivity].
  destruct (models_json response) as [j|] eqn:Hj; cbn [fst]; [|now left].
  destruct (data j) as [items|] eqn:Hd; cbn [fst]; [|right; eauto].
  exists response, j, items. rewrite Hok.
  repeat split; try assumption.
  - apply length_map.
  - rewrite map_map. reflexivity.
  - rewrite map_map. apply map_ext. intros i. apply strip_added_prefix.
  - rewrite map_map. apply map_ext. intros i. unfold to_model_info, truthy. cbn [name].
    destruct (item_name i) as [n|]; [|reflexivity].
    destruct (String.eqb n ""); reflexivity.
  - clear Hd. induction items as [|i items IH]; cbn [map]; constructor; [|exact IH].
    intros request. unfold buildPayload.
    destruct (last (anthropicMessages_of request)) as [m|]; [|exact I].
    destruct (negb (String.eqb (role m) "user")); [exact I|].
    cbn [model to_model_info api_identifier]. apply strip_added_prefix.
Qed.

Example listed_model_is_sent_by_its_id :
  match fst (listModels (models_fetch [mkAnthropicModelItem "claude-3-haiku" None]) "key" tt) with
  | Ok [m] =>
      (api_identifier m, name m,
       map (fun init => model (body init))
           (sent (sendMessage (echo_fetch "fine" None) "key"
                    (request_of [] (Some "hello") None) (api_identifier m) tt)))
  | _ => ("", "", [])
  end = ("anthropic-claude-3-haiku", "claude-3-haiku", ["claude-3-haiku"]).
Proof. vm_compute. reflexivity. Qed.

End AnthropicMoreSpec.

(** ** The loop with the Anthropic adapter as its provider *)

Module ComposeSpec.
Import Continue ContinueFacts Anthropic AnthropicFacts Compose.

(** The payloads of the Anthropic adapter carry their reason at top
    level only: the [token_usage] it builds has no [finish_reason]. *)
Lemma anthropic_payload_has_no_inner_reason {W : Type}
    (fetch : FetchInit -> W -> option HttpResponse * W) (apiKey : string)
    (request : ChatApiRequest) (modelIdentifier : string) (w : W)
    (payload : AdapterResponsePayload) :
  returned (sendMessage fetch apiKey request modelIdentifier w) = Ok payload ->
  finishReason_of payload = None.
Proof.
  unfold sendMessage.
  destruct (buildPayload request modelIdentifier) as [p|e]; [|discriminate].
  destruct (fetch (fetchInit apiKey p) w) as [[response|] w']; [|discriminate].
  destruct (negb (ok response)); [discriminate|].
  destruct (json response) as [j|]; [|discriminate].
  cbn [returned]. unfold readResponse.
  destruct (String.eqb (assistantMessageContent j) ""); [discriminate|].
  intros H. injection H as <-. unfold finishReason_of, tokenUsage_of. cbn [token_usage].
  destruct (usage j); reflexivity.
Qed.

(** X9. Driven by the Anthropic adapter, the loop never continues: it
    makes exactly one [sendMessage] call, hence at most one request to
    the provider, whatever the provider's stop reason, ["max_tokens"]
    included.  If the call throws, the loop throws the same error;
    otherwise the payload returned is the adapter's own, with the same
    content and top-level [finish_reason], and a [token_usage] that
    holds the counts with missing ones as 0 and says ["stop"]. *)
Theorem loop_with_anthropic_adapter_calls_once {W : Type}
    (fetch : FetchInit -> W -> option HttpResponse * W) (constructorApiKey : string)
    (providerApiIdentifier apiKey : string)
    (initialApiRequest : ChatApiRequest) (w : W) :
  let x := sendMessage fetch constructorApiKey (initial_request initialApiRequest)
             providerApiIdentifier w in
  exists run,
    handleContinuationLoop (as_adapter fetch constructorApiKey)
      providerApiIdentifier apiKey initialApiRequest (w, []) = Some run /\
    length (calls run) = 1%nat /\
    world run = (after x, sent x) /\
    (length (sent x) <= 1)%nat /\
    match returned x with
    | Ok payload =>
        outcome run =
          Ok (with_token_usage payload
                (Some {| prompt_tokens := Some (prompt_of payload);
                         completion_tokens := Some (completion_of payload);
                         total_tokens := Some (prompt_of payload + completion_of payload);
                         tu_finish_reason := Some "stop" |}))
    | Err e => outcome run = Err (AdapterThrew e)
    end.
Proof.
  cbn zeta. unfold handleContinuationLoop. rewrite loop_S.
  change (continuationCount (initial_state initialApiRequest) <=? MAX_CONTINUATIONS)%nat
    with true. cbn iota.
  change (currentRequest (initial_state initialApiRequest))
    with (initial_request initialApiRequest).
  unfold as_adapter at 1. cbn [fst snd app].
  pose proof (sendMessage_sent fetch constructorApiKey (initial_request initialApiRequest)
                providerApiIdentifier w) as Hsent.
  assert (Hone : (length (sent (sendMessage fetch constructorApiKey
                                  (initial_request initialApiRequest)
                                  providerApiIdentifier w)) <= 1)%nat).
  { destruct (buildPayload _ _); [rewrite Hsent | destruct Hsent as (-> & _)]; cbn; lia. }
  destruct (returned (sendMessage fetch constructorApiKey (initial_request initialApiRequest)
                        providerApiIdentifier w)) as [payload|e] eqn:Hret.
  - apply anthropic_payload_has_no_inner_reason in Hret as Hnone.
    rewrite Hnone. cbn [is_not_length orb].
    eexists. split; [reflexivity|]. cbn [calls world outcome length app].
    split; [reflexivity|]. split; [reflexivity|]. split; [exact Hone|].
    unfold finalize, accumulate, initial_state, with_token_usage.
    cbn [lastResponse accumulatedContent acc_prompt_tokens acc_completion_tokens
         resp_role resp_content ai_provider_id system_prompt_id finish_reason].
    change ("" +:+ resp_content payload)%string with (resp_content payload).
    rewrite !Z.add_0_l. reflexivity.
  - eexists. split; [reflexivity|]. cbn [calls world outcome length app].
    repeat split. exact Hone.
Qed.

(** The provider stops on [max_tokens]: one call, and the truncation is
    visible only in the top-level field. *)
Example truncated_anthropic_answer_is_not_continued :
  (handleContinuationLoop (as_adapter (echo_fetch "partial" (Some "max_tokens")) "key")
     "anthropic-claude" "key" (request_of [] (Some "hello") None) (tt, []))
  ≫= (fun run => match outcome run with
                 | Ok payload =>
                     Some (length (calls run), length (snd (world run)),
                           finish_reason payload, finishReason_of payload)
                 | Err _ => None
                 end)
  = Some (1%nat, 1%nat, Some "length", Some "stop").
Proof. vm_compute. reflexivity. Qed.

End ComposeSpec.

(** ** Properties of the wallet store *)

Module WalletSpec.
Import Wallet.

Lemma dict_get_set_eq {V : Type} (d : Dict V) (k : string) (v : V) :
  dict_get (dict_set d k v) k = Some v.
Proof.
  induction d as [|[k' v'] d IH]; cbn.
  - now rewrite String.eqb_refl.
  - destruct (String.eqb k' k) eqn:Hk; cbn; rewrite Hk; [reflexivity | exact IH].
Qed.

Lemma dict_get_set_ne {V : Type} (d : Dict V) (k k' : string) (v : V) :
  k <> k' -> dict_get (dict_set d k v) k' = dict_get d k'.
Proof.
  intros Hne. induction d as [|[k0 v0] d IH]; cbn.
  - apply String.eqb_neq in Hne. now rewrite Hne.
  - destruct (String.eqb k0 k) eqn:Hk; cbn.
    + apply String.eqb_eq in Hk. subst k0.
      apply String.eqb_neq in Hne. now rewrite Hne.
    + now rewrite IH.
Qed.

Lemma dict_set_keys {V : Type} (d : Dict V) (k : string) (v : V) :
  dict_get d k <> None -> map fst (dict_set d k v) = map fst d.
Proof.
  induction d as [|[k0 v0] d IH]; cbn; [congruence|].
  destruct (String.eqb k0 k) eqn:Hk; cbn; [reflexivity|].
  intros H. now rewrite IH.
Qed.

(** The policy in force for an organization: [member_tokens] unless the
    organization says otherwise. *)
Lemma find_org_id orgs id details :
  find_org orgs id = Some details -> org_id details = id.
Proof.
  unfold find_org. intros H. apply find_some in H as [_ H]. now apply String.eqb_eq.
Qed.

(** X10. Personal tokens are used for an organization's chat only with
    the user's explicit consent: the decision is
    [use_personal_wallet_for_org] exactly when the context is an
    organization of the user's list whose policy is [member_tokens] (or
    unset) and the consent recorded for it is [true]; an undefined,
    null or false consent never gives it. *)
Theorem personal_tokens_for_org_need_consent
    (orgStoreState : OrgStoreState) (st : WalletState)
    (newChatContextOrgId : option string) (orgId : string) :
  determineChatWallet orgStoreState st newChatContextOrgId = use_personal_wallet_for_org orgId
  <->
  newChatContextOrgId = Some orgId /\
  orgId <> "" /\ orgId <> "personal" /\
  (exists details,
     find_org (userOrganizations orgStoreState) orgId = Some details /\
     (token_usage_policy details = Some "member_tokens" \/
      truthy (token_usage_policy details) = false)) /\
  dict_get (userOrgTokenConsent st) orgId = Some (Some true).
Proof.
  unfold determineChatWallet.
  destruct newChatContextOrgId as [ctx|]; [|split; [discriminate | intros [? _]; discriminate]].
  destruct (String.eqb_spec ctx "personal") as [->|Hp]; cbn [orb negb andb].
  { split; [discriminate|]. intros (H & _ & Hne & _). injection H as <-. congruence. }
  destruct (String.eqb_spec ctx "") as [->|He]; cbn [orb negb andb].
  { split; [discriminate|]. intros (H & Hne & _). injection H as <-. congruence. }
  destruct (find_org (userOrganizations orgStoreState) ctx) as [details|] eqn:Hfind.
  - destruct (truthy (token_usage_policy details)) eqn:Ht.
    + unfold truthy in Ht. destruct (token_usage_policy details) as [pol|] eqn:Hpol;
        [|discriminate].
      change (default "" (Some pol)) with pol.
      destruct (String.eqb_spec pol "organization_tokens") as [->|Hno].
      { split; [discriminate|].
        intros (H & _ & _ & (d & Hd & Hpol') & _). injection H as <-.
        rewrite Hfind in Hd. injection Hd as <-. rewrite Hpol in Hpol'.
        destruct Hpol' as [Hpol'|Hpol']; [discriminate|].
        cbn in Hpol'. discriminate. }
      destruct (String.eqb_spec pol "member_tokens") as [->|Hnm].
      * destruct (dict_get (userOrgTokenConsent st) ctx) as [[[|]|]|] eqn:Hc.
        -- split.
           ++ intros H. injection H as <-. repeat split; try assumption.
              exists details. split; [exact Hfind | left; exact Hpol].
           ++ intros (H & _). injection H as <-. reflexivity.
        -- split; [discriminate|]. intros (H & _ & _ & _ & Hc'). injection H as <-.
           congruence.
        -- split; [discriminate|]. intros (H & _ & _ & _ & Hc'). injection H as <-.
           congruence.
        -- split; [discriminate|]. intros (H & _ & _ & _ & Hc'). injection H as <-.
           congruence.
      * cbn [negb andb]. split; [discriminate|].
        intros (H & _ & _ & (d & Hd & Hpol') & _). injection H as <-.
        rewrite Hfind in Hd. injection Hd as <-. rewrite Hpol in Hpol'.
        destruct Hpol' as [Hpol'|Hpol']; [congruence|].
        cbn in Hpol'. rewrite Ht in Hpol'. discriminate.
    + change (String.eqb "member_tokens" "organization_tokens") with false.
      change (String.eqb "member_tokens" "member_tokens") with true. cbn iota.
      destruct (dict_get (userOrgTokenConsent st) ctx) as [[[|]|]|] eqn:Hc.
      * split.
        -- intros H. injection H as <-. repeat split; try assumption.
           exists details. split; [exact Hfind | right; exact Ht].
        -- intros (H & _). injection H as <-. reflexivity.
      * split; [discriminate|]. intros (H & _ & _ & _ & Hc'). injection H as <-. congruence.
      * split; [discriminate|]. intros (H & _ & _ & _ & Hc'). injection H as <-. congruence.
      * split; [discriminate|]. intros (H & _ & _ & _ & Hc'). injection H as <-. congruence.
  - split.
    + destruct (_ && _); discriminate.
    + intros (H & _ & _ & (d & Hd & _) & _). injection H as <-. congruence.
Qed.

Lemma determine_depends_on_own_consent os st1 st2 ctx :
  dict_get (userOrgTokenConsent st1) ctx = dict_get (userOrgTokenConsent st2) ctx ->
  determineChatWallet os st1 (Some ctx) = determineChatWallet os st2 (Some ctx).
Proof. intros H. unfold determineChatWallet. now rewrite H. Qed.

Lemma determine_member_policy os st orgId details :
  orgId <> "" -> orgId <> "personal" ->
  find_org (userOrganizations os) orgId = Some details ->
  token_usage_policy details = Some "member_tokens" \/
  truthy (token_usage_policy details) = false ->
  determineChatWallet os st (Some orgId) =
  match dict_get (userOrgTokenConsent st) orgId with
  | Some (Some true) => use_personal_wallet_for_org orgId
  | Some (Some false) => user_consent_refused orgId
  | _ => user_consent_required orgId
  end.
Proof.
  intros He Hp Hfind Hpol. unfold determineChatWallet.
  apply String.eqb_neq in He, Hp. rewrite He, Hp. cbn [orb negb andb]. rewrite Hfind.
  destruct Hpol as [Hpol|Hpol]; rewrite Hpol; reflexivity.
Qed.

(** X11. Recording a consent decides the wallet for that organization
    and for no other context: for a listed organization under the
    [member_tokens] policy, after [setUserOrgTokenConsent(org, true)] the
    decision is to use the personal wallet for it, after
    [setUserOrgTokenConsent(org, false)] it is a refusal, and after
    [clearUserOrgTokenConsent(org)] consent is required again; the
    decision for every other context is what it was. *)
Theorem consent_decides_its_own_organization
    (os : OrgStoreState) (st : WalletState) (orgId : string) (details : Organization) :
  orgId <> "" -> orgId <> "personal" ->
  find_org (userOrganizations os) orgId = Some details ->
  token_usage_policy details = Some "member_tokens" \/
  truthy (token_usage_policy details) = false ->
  determineChatWallet os (setUserOrgTokenConsent orgId true st) (Some orgId)
    = use_personal_wallet_for_org orgId /\
  determineChatWallet os (setUserOrgTokenConsent orgId false st) (Some orgId)
    = user_consent_refused orgId /\
  determineChatWallet os (clearUserOrgTokenConsent orgId st) (Some orgId)
    = user_consent_required orgId /\
  (forall (other : option string) (consent : bool),
     other <> Some orgId ->
     determineChatWallet os (setUserOrgTokenConsent orgId consent st) other
       = determineChatWallet os st other /\
     determineChatWallet os (clearUserOrgTokenConsent orgId st) other
       = determineChatWallet os st other).
Proof.
  intros He Hp Hfind Hpol.
  repeat split.
  - rewrite (determine_member_policy _ _ _ _ He Hp Hfind Hpol).
    cbn [userOrgTokenConsent setUserOrgTokenConsent]. now rewrite dict_get_set_eq.
  - rewrite (determine_member_policy _ _ _ _ He Hp Hfind Hpol).
    cbn [userOrgTokenConsent setUserOrgTokenConsent]. now rewrite dict_get_set_eq.
  - rewrite (determine_member_policy _ _ _ _ He Hp Hfind Hpol).
    cbn [userOrgTokenConsent clearUserOrgTokenConsent]. now rewrite dict_get_set_eq.
  - destruct other as [ctx|]; [|reflexivity].
    apply determine_depends_on_own_consent.
    cbn [userOrgTokenConsent setUserOrgTokenConsent].
    apply dict_get_set_ne. congruence.
  - destruct other as [ctx|]; [|reflexivity].
    apply determine_depends_on_own_consent.
    cbn [userOrgTokenConsent clearUserOrgTokenConsent].
    apply dict_get_set_ne. congruence.
Qed.

Lemma consent_decides_its_own_organization_witness :
  let os := mkOrgStoreState [mkOrganization "org123" "Acme" None] None false in
  determineChatWallet os (setUserOrgTokenConsent "org123" true initialWalletState)
    (Some "org123") = use_personal_wallet_for_org "org123" /\
  determineChatWallet os (clearUserOrgTokenConsent "org123"
                            (setUserOrgTokenConsent "org123" true initialWalletState))
    (Some "org123") = user_consent_required "org123".
Proof.
  cbn zeta.
  assert (He : "org123" <> "") by discriminate.
  assert (Hp : "org123" <> "personal") by discriminate.
  split.
  - apply (consent_decides_its_own_organization
             (mkOrgStoreState [mkOrganization "org123" "Acme" None] None false)
             initialWalletState "org123" (mkOrganization "org123" "Acme" None)
             He Hp eq_refl (or_intror eq_refl)).
  - apply (consent_decides_its_own_organization
             (mkOrgStoreState [mkOrganization "org123" "Acme" None] None false)
             (setUserOrgTokenConsent "org123" true initialWalletState)
             "org123" (mkOrganization "org123" "Acme" None)
             He Hp eq_refl (or_intror eq_refl)).
Defined.

(** X12. What each decision says about its inputs.  The personal wallet
    is chosen exactly for an absent, empty or ["personal"] context.
    Every decision that names an organization names the context, and
    that organization is in the user's list.  [loading] is given only
    for an unlisted context that is the current organization while the
    organization store loads.  An error is one of two: the context is
    not in the list, or its policy is neither [member_tokens] nor
    [organization_tokens]; the "unhandled case" error never occurs. *)
Theorem decision_explains_its_inputs
    (os : OrgStoreState) (st : WalletState) (newChatContextOrgId : option string) :
  match determineChatWallet os st newChatContextOrgId with
  | use_personal_wallet =>
      newChatContextOrgId = None \/ newChatContextOrgId = Some "" \/
      newChatContextOrgId = Some "personal"
  | loading =>
      exists ctx, newChatContextOrgId = Some ctx /\
                  find_org (userOrganizations os) ctx = None /\
                  currentOrganizationId os = Some ctx /\ org_isLoading os = true
  | error message =>
      exists ctx, newChatContextOrgId = Some ctx /\ ctx <> "" /\ ctx <> "personal" /\
        ((find_org (userOrganizations os) ctx = None /\
          message = ("Organization details for " +:+ ctx +:+
                     " are not available in the current list.")%string) \/
         (exists details policy,
            find_org (userOrganizations os) ctx = Some details /\
            token_usage_policy details = Some policy /\
            policy <> "" /\ policy <> "member_tokens" /\ policy <> "organization_tokens" /\
            message = ("Unexpected token usage policy for " +:+ ctx +:+ ": " +:+ policy)%string))
  | org_wallet_not_available_policy_org orgId =>
      newChatContextOrgId = Some orgId /\
      exists details, find_org (userOrganizations os) orgId = Some details /\
                      token_usage_policy details = Some "organization_tokens"
  | user_consent_required orgId =>
      newChatContextOrgId = Some orgId /\
      find_org (userOrganizations os) orgId <> None /\
      (dict_get (userOrgTokenConsent st) orgId = None \/
       dict_get (userOrgTokenConsent st) orgId = Some None)
  | use_personal_wallet_for_org orgId =>
      newChatContextOrgId = Some orgId /\
      find_org (userOrganizations os) orgId <> None /\
      dict_get (userOrgTokenConsent st) orgId = Some (Some true)
  | user_consent_refused orgId =>
      newChatContextOrgId = Some orgId /\
      find_org (userOrganizations os) orgId <> None /\
      dict_get (userOrgTokenConsent st) orgId = Some (Some false)
  end.
Proof.
  unfold determineChatWallet.
  destruct newChatContextOrgId as [ctx|]; [|now left].
  destruct (String.eqb_spec ctx "personal") as [->|Hp]; cbn [orb negb andb]; [auto|].
  destruct (String.eqb_spec ctx "") as [->|He]; cbn [orb negb andb]; [auto|].
  destruct (find_org (userOrganizations os) ctx) as [details|] eqn:Hfind.
  - destruct (truthy (token_usage_policy details)) eqn:Ht.
    + unfold truthy in Ht.
      destruct (token_usage_policy details) as [pol|] eqn:Hpol; [|discriminate].
      change (default "" (Some pol)) with pol.
      destruct (String.eqb_spec pol "organization_tokens") as [->|Hno]; [eauto|].
      destruct (String.eqb_spec pol "member_tokens") as [->|Hnm].
      * destruct (dict_get (userOrgTokenConsent st) ctx) as [[[|]|]|] eqn:Hc;
          (split; [reflexivity|]); (split; [congruence|]); auto.
      * cbn [negb andb]. exists ctx. repeat split; try assumption.
        right. exists details, pol. repeat split; try assumption.
        apply negb_true_iff in Ht. now apply String.eqb_neq.
    + change (String.eqb "member_tokens" "organization_tokens") with false.
      change (String.eqb "member_tokens" "member_tokens") with true. cbn iota.
      destruct (dict_get (userOrgTokenConsent st) ctx) as [[[|]|]|] eqn:Hc;
        (split; [reflexivity|]); (split; [congruence|]); auto.
  - destruct (currentOrganizationId os) as [cur|] eqn:Hcur.
    + destruct (String.eqb_spec cur ctx) as [->|Hne]; cbn [andb].
      * destruct (org_isLoading os) eqn:Hl.
        -- exists ctx. auto.
        -- exists ctx. repeat split; try assumption. now left.
      * exists ctx. repeat split; try assumption. now left.
    + cbn [andb]. exists ctx. repeat split; try assumption. now left.
Qed.

(** *** Balance notifications *)

Lemma dict_get_in {V : Type} (d : Dict V) (k : string) (v : V) :
  NoDup (map fst d) -> In (k, v) d -> dict_get d k = Some v.
Proof.
  induction d as [|[k0 v0] d IH]; cbn [map fst dict_get In]; [tauto|].
  intros Hnd Hin. apply NoDup_cons in Hnd as [Hk0 Hnd].
  destruct Hin as [Heq|Hin].
  - injection Heq as -> ->. now rewrite String.eqb_refl.
  - destruct (String.eqb_spec k0 k) as [->|Hne]; [|now apply IH].
    exfalso. apply Hk0. apply list_elem_of_In.
    change k with (fst (k, v)). now apply in_map.
Qed.

Lemma dict_get_some_in {V : Type} (d : Dict V) (k : string) (v : V) :
  dict_get d k = Some v -> In (k, v) d.
Proof.
  induction d as [|[k0 v0] d IH]; cbn [dict_get In]; [discriminate|].
  destruct (String.eqb_spec k0 k) as [->|Hne].
  - intros H. injection H as ->. now left.
  - intros H. right. now apply IH.
Qed.

Lemma find_org_wallet_some wallets id entry :
  find_org_wallet wallets id = Some entry ->
  exists wallet, entry = (fst entry, Some wallet) /\ walletId wallet = id /\ In entry wallets.
Proof.
  unfold find_org_wallet. intros H. apply find_some in H as [Hin Hp].
  destruct entry as [k [wallet|]]; [|discriminate]. cbn in Hp.
  exists wallet. split; [reflexivity|]. split; [now apply String.eqb_eq | exact Hin].
Qed.

Lemma find_org_wallet_none wallets id :
  find_org_wallet wallets id = None <-> ~ In id (org_wallet_ids wallets).
Proof.
  unfold find_org_wallet, org_wallet_ids.
  induction wallets as [|[k [wallet|]] wallets IH]; cbn [List.find snd].
  - split; [intros _ []|reflexivity].
  - change (omap (fun entry => walletId <$> snd entry) ((k, Some wallet) :: wallets))
      with (walletId wallet :: omap (fun entry => walletId <$> snd entry) wallets).
    destruct (String.eqb_spec (walletId wallet) id) as [Heq|Hne].
    + split; [discriminate|]. intros H. exfalso. apply H. now left.
    + rewrite IH. cbn [In]. tauto.
  - change (omap (fun entry => walletId <$> snd entry) ((k, None) :: wallets))
      with (omap (fun entry : string * option TokenWallet => walletId <$> snd entry) wallets).
    exact IH.
Qed.

Lemma dict_set_middle {V : Type} (before after : Dict V) (k : string) (v v' : V) :
  NoDup (map fst (before ++ (k, v) :: after)) ->
  dict_set (before ++ (k, v) :: after) k v' = before ++ (k, v') :: after.
Proof.
  induction before as [|[k0 v0] before IH]; cbn [app map fst dict_set]; intros Hnd.
  - now rewrite String.eqb_refl.
  - apply NoDup_cons in Hnd as [Hk0 Hnd].
    destruct (String.eqb_spec k0 k) as [->|Hne].
    + exfalso. apply Hk0. rewrite map_app. apply elem_of_app. right. cbn. left.
    + now rewrite IH.
Qed.

(** X13. A balance notification changes at most one wallet, and only its
    balance and time stamp.  Consents, the modal flag and the current
    decision are untouched, and no organization is added, removed or
    moved.  The personal wallet is updated exactly when it has the
    notified id, and then the organization wallets are all as they were,
    even one with the same id.  Otherwise the personal wallet is as it
    was and, if some organization wallet has the id, the first entry
    with it (in the order of the object's keys) gets the new balance
    while every other entry, be it a wallet with another id, another
    wallet with the same id or a [null], stays in its place with its
    value; a notification for an id that is nowhere in the state leaves
    the state as it is. *)
Theorem balance_notification_updates_one_wallet
    (id newBalance : string) (now : Z) (st : WalletState) :
  NoDup (map fst (organizationWallets st)) ->
  let st' := handleWalletUpdateNotification id newBalance now st in
  userOrgTokenConsent st' = userOrgTokenConsent st /\
  isConsentModalOpen st' = isConsentModalOpen st /\
  currentChatWalletDecision st' = currentChatWalletDecision st /\
  map fst (organizationWallets st') = map fst (organizationWallets st) /\
  (forall k wallet,
     dict_get (organizationWallets st) k = Some (Some wallet) ->
     walletId wallet <> id ->
     dict_get (organizationWallets st') k = Some (Some wallet)) /\
  match personalWallet st with
  | Some wallet =>
      if String.eqb (walletId wallet) id then
        personalWallet st' = Some (with_balance wallet newBalance now) /\
        organizationWallets st' = organizationWallets st
      else personalWallet st' = Some wallet
  | None => personalWallet st' = None
  end /\
  (match personalWallet st with
   | Some wallet => String.eqb (walletId wallet) id
   | None => false
   end = false ->
   if decide (id ∈ org_wallet_ids (organizationWallets st)) then
     exists before k wallet after,
       organizationWallets st = before ++ (k, Some wallet) :: after /\
       Forall (fun entry => match snd entry with
                            | Some other => walletId other <> id
                            | None => True
                            end) before /\
       walletId wallet = id /\
       organizationWallets st' =
         before ++ (k, Some (with_balance wallet newBalance now)) :: after /\
       dict_get (organizationWallets st) k = Some (Some wallet) /\
       dict_get (organizationWallets st') k = Some (Some (with_balance wallet newBalance now)) /\
       (forall k', k' <> k ->
          dict_get (organizationWallets st') k' = dict_get (organizationWallets st) k')
   else st' = st).
Proof.
  intros Hnd. cbn zeta.
  assert (Horg :
    let st' := update_org_wallet id newBalance now st in
    userOrgTokenConsent st' = userOrgTokenConsent st /\
    isConsentModalOpen st' = isConsentModalOpen st /\
    currentChatWalletDecision st' = currentChatWalletDecision st /\
    map fst (organizationWallets st') = map fst (organizationWallets st) /\
    (forall k wallet,
       dict_get (organizationWallets st) k = Some (Some wallet) ->
       walletId wallet <> id ->
       dict_get (organizationWallets st') k = Some (Some wallet)) /\
    personalWallet st' = personalWallet st /\
    (if decide (id ∈ org_wallet_ids (organizationWallets st)) then
       exists before k wallet after,
         organizationWallets st = before ++ (k, Some wallet) :: after /\
         Forall (fun entry => match snd entry with
                              | Some other => walletId other <> id
                              | None => True
                              end) before /\
         walletId wallet = id /\
         organizationWallets st' =
           before ++ (k, Some (with_balance wallet newBalance now)) :: after /\
         dict_get (organizationWallets st) k = Some (Some wallet) /\
         dict_get (organizationWallets st') k
           = Some (Some (with_balance wallet newBalance now)) /\
         (forall k', k' <> k ->
            dict_get (organizationWallets st') k' = dict_get (organizationWallets st) k')
     else st' = st)).
  { cbn zeta. unfold update_org_wallet.
    destruct (find_org_wallet (organizationWallets st) id) as [entry|] eqn:Hfind.
    - apply find_org_wallet_some in Hfind as Hentry.
      destruct Hentry as (ow & Hentry & Hid & Hin).
      destruct entry as [orgId v]. cbn [fst] in Hentry. injection Hentry as ->.
      pose proof (dict_get_in _ _ _ Hnd Hin) as Hget.
      cbn [userOrgTokenConsent isConsentModalOpen currentChatWalletDecision
           organizationWallets personalWallet].
      repeat split.
      + apply dict_set_keys. congruence.
      + intros k wallet Hk Hne.
        destruct (String.eqb_spec orgId k) as [->|Hkne].
        * rewrite Hget in Hk. injection Hk as <-. congruence.
        * now rewrite dict_get_set_ne.
      + destruct (decide (id ∈ org_wallet_ids (organizationWallets st))) as [_|Hnot].
        * unfold find_org_wallet in Hfind.
          apply find_split in Hfind as (before & after & Hsplit & Hbefore & _).
          exists before, orgId, ow, after.
          split; [exact Hsplit|].
          split.
          { eapply Forall_impl; [exact Hbefore|]. intros [k0 [other|]] Hf; [|exact I].
            cbn in *. now apply String.eqb_neq. }
          split; [exact Hid|].
          split; [rewrite Hsplit in Hnd |- *; now apply dict_set_middle|].
          split; [exact Hget|].
          split; [apply dict_get_set_eq|].
          intros k' Hk'. apply dict_get_set_ne. congruence.
        * exfalso. rewrite list_elem_of_In in Hnot.
          apply find_org_wallet_none in Hnot. congruence.
    - repeat split; try (intros; assumption).
      destruct (decide (id ∈ org_wallet_ids (organizationWallets st))) as [Hin|_];
        [|reflexivity].
      exfalso. rewrite list_elem_of_In in Hin. revert Hin.
      now apply find_org_wallet_none. }
  cbn zeta in Horg. destruct Horg as (H1 & H2 & H3 & H4 & H5 & H6 & H7).
  unfold handleWalletUpdateNotification.
  destruct (personalWallet st) as [pw|] eqn:Hpw.
  - destruct (String.eqb (walletId pw) id) eqn:Hmatch.
    + cbn [userOrgTokenConsent isConsentModalOpen currentChatWalletDecision
           organizationWallets personalWallet].
      repeat split; try (intros; assumption). discriminate.
    + repeat split; try assumption. intros _. exact H7.
  - repeat split; try assumption. intros _. exact H7.
Qed.

(** Two organization wallets with the notified id and a [null] entry:
    only the first of the two is updated. *)
Lemma balance_notification_updates_one_wallet_witness :
  let st := mkWalletState (Some (mkTokenWallet "pw" "100" "AI_TOKEN" 1))
              [("org0", None);
               ("org1", Some (mkTokenWallet "ow1" "1000" "AI_TOKEN" 1));
               ("org2", Some (mkTokenWallet "ow2" "2000" "AI_TOKEN" 1));
               ("org3", Some (mkTokenWallet "ow1" "3000" "AI_TOKEN" 1))] [] false None in
  let st' := handleWalletUpdateNotification "ow1" "1500" 2 st in
  dict_get (organizationWallets st') "org2" = Some (Some (mkTokenWallet "ow2" "2000" "AI_TOKEN" 1)) /\
  personalWallet st' = personalWallet st /\
  exists before k wallet after,
    organizationWallets st = before ++ (k, Some wallet) :: after /\
    organizationWallets st' = before ++ (k, Some (with_balance wallet "1500" 2)) :: after.
Proof.
  cbn zeta.
  assert (Hnd : NoDup ["org0"; "org1"; "org2"; "org3"]).
  { repeat (apply NoDup_cons; split; [rewrite ?elem_of_cons, elem_of_nil; intuition discriminate|]).
    apply NoDup_nil_2. }
  pose proof (balance_notification_updates_one_wallet "ow1" "1500" 2
                (mkWalletState (Some (mkTokenWallet "pw" "100" "AI_TOKEN" 1))
                   [("org0", None);
                    ("org1", Some (mkTokenWallet "ow1" "1000" "AI_TOKEN" 1));
                    ("org2", Some (mkTokenWallet "ow2" "2000" "AI_TOKEN" 1));
                    ("org3", Some (mkTokenWallet "ow1" "3000" "AI_TOKEN" 1))] [] false None)
                Hnd) as (_ & _ & _ & _ & Hother & Hpersonal & Hone).
  split; [apply Hother; [reflexivity | discriminate]|].
  split; [exact Hpersonal|].
  specialize (Hone eq_refl).
  destruct (decide _) as [_|Hnot] in Hone.
  - destruct Hone as (before & k & wallet & after & Hst & _ & _ & Hst' & _).
    exists before, k, wallet, after. split; [exact Hst | exact Hst'].
  - exfalso. apply Hnot. vm_compute. constructor.
Defined.

End WalletSpec.

(** ** Properties of the store's [handleSendMessage] *)

Module StoreSpec.
Import Store.

Lemma or_else_nonempty (a : option string) (d : string) : d <> "" -> or_else a d <> "".
Proof.
  intros Hd. unfold or_else. destruct a as [s|]; [|exact Hd].
  destruct (String.eqb_spec s ""); assumption.
Qed.

Lemma truthy_some (o : option string) :
  truthy o = true -> exists s, o = Some s /\ s <> "".
Proof.
  unfold truthy. destruct o as [s|]; [|discriminate].
  intros H. apply negb_true_iff, String.eqb_neq in H. eauto.
Qed.

Lemma cost_of_none (assistant : option StoreMessage) : cost_of assistant = None.
Proof.
  unfold cost_of. destruct assistant as [a|]; [|reflexivity].
  destruct (sm_token_usage a) as [[| | | | |]|]; cbn; rewrite ?andb_false_r; reflexivity.
Qed.

(** X14. [coreMessageProcessing] never throws and its result is either a
    success carrying the API's data or a failure with a non-empty error
    code and no assistant message: an exception of the call gives
    [UNEXPECTED_PROCESSING_ERROR], an error or a missing [data] gives
    the API's code or [API_ERROR].  The actual cost it reports is always
    undefined: the test that would set it asks for a value that is an
    object and a number at once.  In the request it sends, [promptId] is
    never empty and the optional ids are present only when non-empty. *)
Theorem core_processing_outcomes
    (callChatApi : ApiRequest -> string -> result string ApiResponse) (params : CoreParams) :
  let r := coreMessageProcessing callChatApi params in
  let request := build_apiRequest params in
  actualCostWalletTokens r = None /\
  match callChatApi request ("Bearer " +:+ token params)%string with
  | Err thrown =>
      success r = false /\ ipr_error r = Some thrown /\
      errorCode r = Some "UNEXPECTED_PROCESSING_ERROR" /\ ipr_assistantMessage r = None
  | Ok response =>
      match resp_error response, resp_data response with
      | None, Some d =>
          success r = true /\ ipr_error r = None /\
          finalUserMessage r = userMessage d /\
          ipr_assistantMessage r = assistantMessage d /\
          newlyCreatedChatId r = data_chatId d /\ wasRewind r = isRewind d
      | _, _ =>
          success r = false /\ ipr_assistantMessage r = None /\
          (exists code, errorCode r = Some code /\ code <> "") /\
          (exists msg, ipr_error r = Some msg /\ msg <> "")
      end
  end /\
  req_promptId request <> "" /\
  req_chatId request <> Some "" /\
  req_organizationId request <> Some "" /\
  req_rewindFromMessageId request <> Some "" /\
  req_continue_until_complete request <> Some false.
Proof.
  cbn zeta. split.
  { unfold coreMessageProcessing.
    destruct (callChatApi _ _) as [response|thrown]; [|reflexivity].
    destruct (resp_error response), (resp_data response); try reflexivity.
    apply cost_of_none. }
  split.
  { unfold coreMessageProcessing.
    destruct (callChatApi _ _) as [response|thrown]; [|repeat split].
    destruct (resp_error response) as [e|], (resp_data response) as [d|]; cbn.
    - repeat split; eexists; (split; [reflexivity|]); now apply or_else_nonempty.
    - repeat split; eexists; (split; [reflexivity|]); now apply or_else_nonempty.
    - repeat split.
    - repeat split; eexists; (split; [reflexivity|]); discriminate. }
  unfold build_apiRequest. cbn.
  split; [now apply or_else_nonempty|].
  repeat split.
  - destruct (truthy (targetChatId params)) eqn:Ht; [|discriminate].
    apply truthy_some in Ht as (s & -> & Hs). congruence.
  - destruct (truthy (effectiveOrganizationId params)) eqn:Ht; [|discriminate].
    apply truthy_some in Ht as (s & -> & Hs). congruence.
  - destruct (truthy (cp_rewindTargetMessageId params)) eqn:Ht; [|discriminate].
    apply truthy_some in Ht as (s & -> & Hs). congruence.
  - destruct (cp_continueUntilComplete params) as [[|]|]; discriminate.
Qed.

Example numeric_token_usage_gives_no_cost :
  actualCostWalletTokens
    (coreMessageProcessing
       (fun _ _ => Ok (mkApiResponse None
                         (Some (mkChatSuccess None
                                  (Some (mkStoreMessage "a1" (Some "c1") "assistant" "hi" None
                                           (Some (JNumber 42))))
                                  (Some "c1") None))))
       (mkCoreParams "hello" "provider" None None None None "tok" None None))
  = None.
Proof. reflexivity. Qed.

(** *** The context sent along *)

(** X15. The context messages of a send.  A non-empty list given by the
    caller is used as it is.  Otherwise every context message is the
    role and content of a stored message of the chat that is selected,
    has a chat role and is not the message being sent, and they come in
    the order of the chat; a chat without messages gives no context. *)
Theorem context_messages_are_selected_history
    (isChatRole : string -> bool) (st0 : AiState) (provided : option (list ChatMessage))
    (optimisticMessageChatId tempUserMessageId : string) :
  let context :=
    finalContextMessages isChatRole st0 provided optimisticMessageChatId tempUserMessageId in
  match provided with
  | Some (m :: ms) => context = m :: ms
  | _ =>
      let stored := default [] (messagesByChatId st0 !! optimisticMessageChatId) in
      let selections := default ∅ (selectedMessagesMap st0 !! optimisticMessageChatId) in
      exists kept,
        sublist kept stored /\
        context = map (fun msg => mkChatMessage (sm_role msg) (sm_content msg)) kept /\
        Forall (fun msg =>
                  sm_id msg <> tempUserMessageId /\
                  selections !! sm_id msg = Some true /\
                  isChatRole (sm_role msg) = true) kept /\
        (stored = [] -> context = [])
  end.
Proof.
  cbn zeta. unfold finalContextMessages.
  assert (Hgen : forall stored (selections : gmap string bool),
    let kept := List.filter (fun msg => isChatRole (sm_role msg))
                  (List.filter
                     (fun msg => negb (String.eqb (sm_id msg) tempUserMessageId)
                                 && default false (selections !! sm_id msg)) stored) in
    sublist kept stored /\
    Forall (fun msg =>
              sm_id msg <> tempUserMessageId /\
              selections !! sm_id msg = Some true /\
              isChatRole (sm_role msg) = true) kept).
  { intros stored selections. cbn zeta. split.
    - etrans; apply AnthropicFacts.filter_sublist.
    - apply Forall_forall. intros msg Hin.
      apply list_elem_of_In in Hin.
      apply filter_In in Hin as [Hin Hrole]. apply filter_In in Hin as [_ Hsel].
      apply andb_true_iff in Hsel as [Hid Hsel].
      apply negb_true_iff, String.eqb_neq in Hid.
      repeat split; try assumption.
      destruct (selections !! sm_id msg) as [[|]|]; try discriminate. reflexivity. }
  assert (Hnone :
    let stored := default [] (messagesByChatId st0 !! optimisticMessageChatId) in
    let selections := default ∅ (selectedMessagesMap st0 !! optimisticMessageChatId) in
    exists kept,
      sublist kept stored /\
      (if negb (String.eqb optimisticMessageChatId "") then
         match messagesByChatId st0 !! optimisticMessageChatId with
         | Some (m :: ms) =>
             map (fun msg => mkChatMessage (sm_role msg) (sm_content msg))
               (List.filter (fun msg => isChatRole (sm_role msg))
                  (List.filter
                     (fun msg => negb (String.eqb (sm_id msg) tempUserMessageId)
                                 && default false (selections !! sm_id msg)) (m :: ms)))
         | _ => []
         end
       else [])
      = map (fun msg => mkChatMessage (sm_role msg) (sm_content msg)) kept /\
      Forall (fun msg =>
                sm_id msg <> tempUserMessageId /\
                selections !! sm_id msg = Some true /\
                isChatRole (sm_role msg) = true) kept /\
      (stored = [] ->
       (if negb (String.eqb optimisticMessageChatId "") then
          match messagesByChatId st0 !! optimisticMessageChatId with
          | Some (m :: ms) =>
              map (fun msg => mkChatMessage (sm_role msg) (sm_content msg))
                (List.filter (fun msg => isChatRole (sm_role msg))
                   (List.filter
                      (fun msg => negb (String.eqb (sm_id msg) tempUserMessageId)
                                  && default false (selections !! sm_id msg)) (m :: ms)))
          | _ => []
          end
        else []) = [])).
  { cbn zeta.
    destruct (negb (String.eqb optimisticMessageChatId "")).
    - destruct (messagesByChatId st0 !! optimisticMessageChatId) as [[|m ms]|] eqn:Hl.
      + exists []. repeat split; constructor.
      + destruct (Hgen (m :: ms)
                    (default ∅ (selectedMessagesMap st0 !! optimisticMessageChatId)))
          as [Hsub Hall].
        eexists. split; [exact Hsub|]. split; [reflexivity|]. split; [exact Hall|].
        cbn. discriminate.
      + exists []. repeat split; constructor.
    - exists []. repeat split; try constructor. apply sublist_nil_l. }
  destruct provided as [[|m ms]|]; [exact Hnone | reflexivity | exact Hnone].
Qed.

(** *** The gate before the call *)

Section Gate.
Variable callChatApi : ApiRequest -> string -> result string ApiResponse.
Variable addOptimisticUserMessage :
  string -> option string -> AiState -> (string * string) * AiState.
Variable isChatRole : string -> bool.
Variable activeWalletInfo : ActiveWalletInfo.
Variable currentUserId : option (option string).
Variable accessToken : option string.
Variable now : string.
Variable storageWorks : bool.

Abbreviation send :=
  (handleSendMessage callChatApi addOptimisticUserMessage isChatRole activeWalletInfo
     currentUserId accessToken now storageWorks).

Lemma wallet_gate_ok (w : World) :
  wallet_status activeWalletInfo = "ok" ->
  wallet_gate activeWalletInfo currentUserId w = None.
Proof. intros H. unfold wallet_gate. now rewrite H. Qed.

Lemma wallet_gate_blocked (w : World) :
  String.eqb (wallet_status activeWalletInfo) "ok" = false ->
  exists w',
    wallet_gate activeWalletInfo currentUserId w = Some w' /\
    apiCalls w' = apiCalls w /\ localStorage w' = localStorage w /\
    messagesByChatId (aiState w') = messagesByChatId (aiState w) /\
    selectedMessagesMap (aiState w') = selectedMessagesMap (aiState w) /\
    currentChatId (aiState w') = currentChatId (aiState w) /\
    chatsByContext (aiState w') = chatsByContext (aiState w) /\
    isLoadingAiResponse (aiState w') = false /\
    (exists e, aiError (aiState w') = Some e /\ e <> "") /\
    loginNavigations w' =
      (loginNavigations w +
       if String.eqb (wallet_status activeWalletInfo) "loading"
          && bool_decide (currentUserId = None) then 1 else 0)%nat.
Proof.
  intros Hok. unfold wallet_gate. rewrite Hok.
  destruct (String.eqb (wallet_status activeWalletInfo) "loading").
  { destruct currentUserId as [u|]; eexists; (split; [reflexivity|]); cbn;
      repeat split; try lia;
      eexists; (split; [reflexivity|]); try discriminate.
    now apply or_else_nonempty. }
  cbn [andb].
  repeat match goal with
         | |- context [if String.eqb ?a ?b then _ else _] => destruct (String.eqb a b)
         end;
    eexists; (split; [reflexivity|]); cbn; repeat split; try lia;
    eexists; (split; [reflexivity|]); try discriminate;
    now apply or_else_nonempty.
Qed.

(** X16. [handleSendMessage] calls the chat API only when the wallet
    status is ["ok"], the session has an access token and a provider is
    selected; then it calls it exactly once.  Otherwise it returns
    [null] without calling the API, without adding the optimistic
    message and without touching messages, selections, chats or local
    storage; it clears the loading flag and sets a non-empty error; and
    it asks for the login page exactly when the user is missing (wallet
    still loading and nobody logged in, or wallet fine and no token). *)
Theorem send_is_gated (data : SendData) (w : World) :
  let res := send data w in
  let st0 := aiState w in
  if String.eqb (wallet_status activeWalletInfo) "ok" && truthy accessToken
     && truthy (selectedProviderId st0)
  then length (apiCalls (snd res)) = S (length (apiCalls w))
  else
    fst res = None /\
    apiCalls (snd res) = apiCalls w /\
    localStorage (snd res) = localStorage w /\
    messagesByChatId (aiState (snd res)) = messagesByChatId st0 /\
    selectedMessagesMap (aiState (snd res)) = selectedMessagesMap st0 /\
    currentChatId (aiState (snd res)) = currentChatId st0 /\
    chatsByContext (aiState (snd res)) = chatsByContext st0 /\
    isLoadingAiResponse (aiState (snd res)) = false /\
    (exists e, aiError (aiState (snd res)) = Some e /\ e <> "") /\
    loginNavigations (snd res) =
      (loginNavigations w +
       if (String.eqb (wallet_status activeWalletInfo) "loading"
           && bool_decide (currentUserId = None))
          || (String.eqb (wallet_status activeWalletInfo) "ok" && negb (truthy accessToken))
       then 1 else 0)%nat.
Proof.
  cbn zeta. unfold handleSendMessage.
  destruct (String.eqb (wallet_status activeWalletInfo) "ok") eqn:Hok.
  - apply String.eqb_eq in Hok as Hok'. rewrite (wallet_gate_ok w Hok').
    rewrite Hok'. change (String.eqb "ok" "loading") with false.
    cbn [andb orb].
    destruct (truthy accessToken) eqn:Htok; cbn [negb andb].
    + unfold truthy at 1.
      destruct (selectedProviderId (aiState w)) as [provider|] eqn:Hprov.
      * destruct (String.eqb provider "") eqn:Hp; cbn [negb].
        -- cbn. repeat split; try lia. eexists. split; [reflexivity | discriminate].
        -- destruct (addOptimisticUserMessage _ _ _) as [[tempId optChatId] st1].
           match goal with
           | |- context [match ?r with Some _ => _ | None => _ end] => destruct r
           end.
           ++ cbn. rewrite length_app. cbn. lia.
           ++ match goal with
              | |- context [if ?c then _ else _] => destruct c
              end; cbn; rewrite length_app; cbn; lia.
      * cbn. repeat split; try lia. eexists. split; [reflexivity | discriminate].
    + cbn. repeat split; try lia. eexists. split; [reflexivity | discriminate].
  - cbn [andb orb]. destruct (wallet_gate_blocked w Hok) as (w' & Hgate & H).
    rewrite Hgate. cbn [fst snd]. rewrite orb_false_r.
    split; [reflexivity | exact H].
Qed.
End Gate.

(** *** A call that fails *)

Lemma core_failure_has_no_assistant
    (callChatApi : ApiRequest -> string -> result string ApiResponse) (params : CoreParams) :
  (forall req auth,
     match callChatApi req auth with
     | Err _ => True
     | Ok response =>
         resp_error response <> None \/ resp_data response = None \/
         exists d, resp_data response = Some d /\ assistantMessage d = None
     end) ->
  (if success (coreMessageProcessing callChatApi params)
   then ipr_assistantMessage (coreMessageProcessing callChatApi params)
   else None) = None.
Proof.
  intros Hfail. unfold coreMessageProcessing.
  specialize (Hfail (build_apiRequest params) ("Bearer " +:+ token params)%string).
  destruct (callChatApi _ _) as [response|thrown]; [|reflexivity].
  destruct (resp_error response) as [e|], (resp_data response) as [d|]; try reflexivity.
  cbn. destruct Hfail as [H|[H|(d' & Hd & Ha)]]; try congruence.
Qed.

Section Failure.
Variable callChatApi : ApiRequest -> string -> result string ApiResponse.
Variable addOptimisticUserMessage :
  string -> option string -> AiState -> (string * string) * AiState.
Variable isChatRole : string -> bool.
Variable activeWalletInfo : ActiveWalletInfo.
Variable currentUserId : option (option string).
Variable accessToken : option string.
Variable now : string.
Variable storageWorks : bool.

(** X17. When the call goes out and does not bring back an assistant
    message (it throws, answers with an error, or answers without data
    or without message), [handleSendMessage] returns [null] after that
    one call; the optimistic message is taken out of its chat again and
    no message with its id is left there; every other chat, the
    selections, the current chat and the chat lists are as the
    optimistic insertion left them; the loading flag is cleared and a
    non-empty error is set.  The login page is asked for at most once,
    and then a pending [SEND_MESSAGE] is recorded. *)
Theorem failed_send_takes_back_optimistic_message
    (data : SendData) (w : World) (tempId optChatId : string) (st1 : AiState) :
  wallet_status activeWalletInfo = "ok" ->
  truthy accessToken = true ->
  truthy (selectedProviderId (aiState w)) = true ->
  addOptimisticUserMessage (sd_message data) (sd_chatId data) (aiState w)
    = ((tempId, optChatId), st1) ->
  (forall req auth,
     match callChatApi req auth with
     | Err _ => True
     | Ok response =>
         resp_error response <> None \/ resp_data response = None \/
         exists d, resp_data response = Some d /\ assistantMessage d = None
     end) ->
  let res := handleSendMessage callChatApi addOptimisticUserMessage isChatRole
               activeWalletInfo currentUserId accessToken now storageWorks data w in
  let st' := aiState (snd res) in
  fst res = None /\
  length (apiCalls (snd res)) = S (length (apiCalls w)) /\
  messagesByChatId st' !! optChatId =
    Some (List.filter (fun m => negb (String.eqb (sm_id m) tempId))
            (default [] (messagesByChatId st1 !! optChatId))) /\
  Forall (fun m => sm_id m <> tempId) (default [] (messagesByChatId st' !! optChatId)) /\
  (forall c, c <> optChatId -> messagesByChatId st' !! c = messagesByChatId st1 !! c) /\
  selectedMessagesMap st' = selectedMessagesMap st1 /\
  currentChatId st' = currentChatId st1 /\
  chatsByContext st' = chatsByContext st1 /\
  isLoadingAiResponse st' = false /\
  (exists e, aiError st' = Some e /\ e <> "") /\
  (loginNavigations (snd res) = loginNavigations w \/
   (loginNavigations (snd res) = S (loginNavigations w) /\
    pendingAction st' = Some "SEND_MESSAGE")).
Proof.
  intros Hok Htok Hprov Hopt Hfail. cbn zeta.
  unfold handleSendMessage. rewrite (wallet_gate_ok _ _ w Hok), Htok. cbn [negb].
  apply truthy_some in Hprov as (provider & Hprov & Hne). rewrite Hprov.
  apply String.eqb_neq in Hne. rewrite Hne. rewrite Hopt.
  rewrite core_failure_has_no_assistant by exact Hfail.
  assert (Hfilter : forall l : list StoreMessage,
            Forall (fun m => sm_id m <> tempId)
              (List.filter (fun m => negb (String.eqb (sm_id m) tempId)) l)).
  { intros l. apply Forall_forall. intros m Hin. apply list_elem_of_In in Hin.
    apply filter_In in Hin as [_ Hin]. now apply negb_true_iff, String.eqb_neq in Hin. }
  match goal with
  | |- context [if ?c then _ else _] => destruct c
  end; unfold remove_temp, update_state;
       cbn [fst snd aiState apiCalls loginNavigations set_status with_messages
            messagesByChatId selectedMessagesMap currentChatId chatsByContext
            isLoadingAiResponse aiError pendingAction].
  - split; [reflexivity|]. split; [rewrite length_app; cbn; lia|].
    rewrite lookup_insert_eq. split; [reflexivity|]. split; [apply Hfilter|].
    split; [intros c Hc; now rewrite lookup_insert_ne|].
    repeat split.
    + eexists. split; [reflexivity|]. now apply or_else_nonempty.
    + right. split; reflexivity.
  - split; [reflexivity|]. split; [rewrite length_app; cbn; lia|].
    rewrite lookup_insert_eq. split; [reflexivity|]. split; [apply Hfilter|].
    split; [intros c Hc; now rewrite lookup_insert_ne|].
    repeat split.
    + eexists. split; [reflexivity|]. now apply or_else_nonempty.
    + now left.
Qed.
End Failure.

Lemma failed_send_takes_back_optimistic_message_witness :
  let res := handleSendMessage (fun _ _ => Err "network down") append_optimistic
               (fun _ => true) (mkActiveWalletInfo "ok" None None None)
               (Some (Some "u1")) (Some "token") "2024-01-01" true
               (mkSendData "hello" (Some "c1") None) emptyWorld in
  fst res = None /\
  messagesByChatId (aiState (snd res)) !! "c1" = Some [] /\
  isLoadingAiResponse (aiState (snd res)) = false.
Proof.
  cbn zeta.
  assert (Hfail : forall (req : ApiRequest) (auth : string),
            match (fun _ _ => Err "network down") req auth
                  : result string ApiResponse with
            | Err _ => True
            | Ok response =>
                resp_error response <> None \/ resp_data response = None \/
                exists d, resp_data response = Some d /\ assistantMessage d = None
            end) by (intros; exact I).
  pose proof (failed_send_takes_back_optimistic_message
                (fun _ _ => Err "network down") append_optimistic (fun _ => true)
                (mkActiveWalletInfo "ok" None None None) (Some (Some "u1")) (Some "token")
                "2024-01-01" true (mkSendData "hello" (Some "c1") None) emptyWorld
                "temp-1" "c1" _ eq_refl eq_refl eq_refl eq_refl Hfail)
    as (Hres & _ & Hmsgs & _ & _ & _ & _ & _ & Hload & _).
  split; [exact Hres|]. split; [|exact Hload].
  rewrite Hmsgs. reflexivity.
Defined.

(** *** The state after an answer *)

Lemma moved_lookup {V : Type} (m : gmap string V) (opt : string) :
  let m' := if bool_decide (is_Some (m !! opt)) then delete opt m else m in
  m' !! opt = None /\ (forall c, c <> opt -> m' !! c = m !! c).
Proof.
  cbn zeta. case_bool_decide as Hp.
  - split; [apply lookup_delete_eq|]. intros c Hc. now apply lookup_delete_ne.
  - split; [|reflexivity]. destruct (m !! opt) eqn:Hl; [|reflexivity].
    exfalso. apply Hp. eauto.
Qed.

Lemma moved_insert_lookup {V : Type} (m : gmap string V) (opt actual : string) (v : V) :
  opt <> actual ->
  let m' := if bool_decide (is_Some (m !! opt))
            then delete opt (<[actual := v]> m) else <[actual := v]> m in
  m' !! actual = Some v /\ m' !! opt = None /\
  (forall c, c <> opt -> c <> actual -> m' !! c = m !! c).
Proof.
  intros Hne. cbn zeta. case_bool_decide as Hp.
  - split; [rewrite lookup_delete_ne by congruence; apply lookup_insert_eq|].
    split; [apply lookup_delete_eq|].
    intros c Hc1 Hc2. rewrite lookup_delete_ne by congruence.
    now rewrite lookup_insert_ne by congruence.
  - split; [apply lookup_insert_eq|].
    split.
    + rewrite lookup_insert_ne by congruence.
      destruct (m !! opt) eqn:Hl; [|reflexivity]. exfalso. apply Hp. eauto.
    + intros c Hc1 Hc2. now rewrite lookup_insert_ne by congruence.
Qed.

Lemma replaced_map (finalUser : option StoreMessage) (tempId actual : string)
    (current : list StoreMessage) :
  match finalUser with
  | Some fu => map (fun msg => if String.eqb (sm_id msg) tempId then as_sent fu else msg) current
  | None =>
      map (fun msg => if String.eqb (sm_id msg) tempId
                      then as_sent_in msg actual else msg) current
  end = map (processed_message finalUser tempId actual) current.
Proof. destruct finalUser; reflexivity. Qed.

Lemma filter_none {A : Type} (f : A -> bool) (l : list A) :
  existsb f l = false -> List.filter f l = [].
Proof.
  induction l as [|a l IH]; [reflexivity|]. cbn. intros H.
  apply orb_false_iff in H as [-> H]. now apply IH.
Qed.

Lemma messagesForChat_plain ctx state finalUser assistant actual :
  let current := default [] (messagesByChatId state !! sc_optimisticMessageChatId ctx) in
  let processed :=
    map (processed_message finalUser (sc_tempUserMessageId ctx) actual) current in
  let has_answer_id := fun msg => String.eqb (sm_id msg) (sm_id assistant) in
  let msgs := messagesForChat ctx state finalUser assistant false actual in
  msgs = (if existsb has_answer_id processed then processed else processed ++ [assistant]) /\
  existsb has_answer_id msgs = true /\
  (existsb has_answer_id processed = false ->
   length (List.filter has_answer_id msgs) = 1%nat) /\
  (length current <= length msgs <= S (length current))%nat.
Proof.
  cbn zeta. unfold messagesForChat. cbn zeta. rewrite replaced_map.
  set (processed := map _ _).
  assert (Hlen : length processed =
                 length (default [] (messagesByChatId state !! sc_optimisticMessageChatId ctx))).
  { subst processed. apply length_map. }
  cbn iota.
  destruct (existsb (fun msg => String.eqb (sm_id msg) (sm_id assistant)) processed) eqn:Hex.
  - split; [reflexivity|]. split; [exact Hex|]. split; [discriminate | lia].
  - split; [reflexivity|].
    rewrite existsb_app, length_app, List.filter_app, (filter_none _ _ Hex).
    cbn. rewrite String.eqb_refl, orb_true_r.
    split; [reflexivity|]. split; [reflexivity | lia].
Qed.

(** X18. The state after an answer that is not a rewind, with a chat id
    [actual] from the API or the answer: [actual] is the current chat,
    loading is over and the error is cleared.  The chat [actual] holds
    the messages of the optimistic chat, in their order, the temporary
    one replaced by the user message of the API (or marked as sent in
    the new chat when the API gave none); the answer is appended at the
    end if and only if none of these has its id, so that it is never
    there twice, and otherwise the list is left as it is.  The answer's
    id is selected in [actual].  When [actual] differs from the
    optimistic chat id, that id is gone from messages and selections and
    the new-chat context is reset; when it is the same, context and chat
    lists stay.  Every other chat keeps its messages and selections, and
    the rewind target is kept. *)
Theorem answer_is_recorded_in_its_chat
    (ctx : SendContext) (finalUser : option StoreMessage) (assistant : StoreMessage)
    (newlyCreated : option string) (wasRewind : option bool) (state : AiState)
    (actual : string) :
  first_truthy newlyCreated (sm_chat_id assistant) = Some actual ->
  match wasRewind with
  | Some b => b
  | None => truthy (sc_inputChatId ctx) && truthy (sc_currentRewindTargetId ctx)
  end = false ->
  let st' := success_update ctx finalUser assistant newlyCreated wasRewind state in
  let opt := sc_optimisticMessageChatId ctx in
  let processed :=
    map (processed_message finalUser (sc_tempUserMessageId ctx) actual)
      (default [] (messagesByChatId state !! opt)) in
  let has_answer_id := fun msg => String.eqb (sm_id msg) (sm_id assistant) in
  currentChatId st' = Some actual /\
  isLoadingAiResponse st' = false /\
  aiError st' = None /\
  rewindTargetMessageId st' = rewindTargetMessageId state /\
  (exists msgs,
     messagesByChatId st' !! actual = Some msgs /\
     msgs = (if existsb has_answer_id processed then processed
             else processed ++ [assistant]) /\
     existsb has_answer_id msgs = true /\
     (existsb has_answer_id processed = false ->
      length (List.filter has_answer_id msgs) = 1%nat) /\
     (length (default [] (messagesByChatId state !! opt)) <= length msgs
      <= S (length (default [] (messagesByChatId state !! opt))))%nat) /\
  (exists sel,
     selectedMessagesMap st' !! actual = Some sel /\ sel !! sm_id assistant = Some true) /\
  (if String.eqb opt actual then
     newChatContext st' = newChatContext state /\
     chatsByContext st' = chatsByContext state
   else
     messagesByChatId st' !! opt = None /\
     selectedMessagesMap st' !! opt = None /\
     newChatContext st' = None) /\
  (forall c, c <> opt -> c <> actual ->
     messagesByChatId st' !! c = messagesByChatId state !! c /\
     selectedMessagesMap st' !! c = selectedMessagesMap state !! c).
Proof.
  intros Hactual Hrw. cbn zeta. unfold success_update. rewrite Hactual. cbn zeta.
  rewrite !Hrw. cbn iota.
  cbn [currentChatId isLoadingAiResponse aiError rewindTargetMessageId messagesByChatId
       selectedMessagesMap newChatContext chatsByContext].
  pose proof (messagesForChat_plain ctx state finalUser assistant actual) as Hmsgs.
  cbn zeta in Hmsgs.
  set (msgs := messagesForChat ctx state finalUser assistant false actual) in *.
  split; [reflexivity|]. split; [reflexivity|]. split; [reflexivity|].
  split; [reflexivity|].
  destruct (String.eqb_spec (sc_optimisticMessageChatId ctx) actual) as [Heq|Hne];
    cbn [negb andb].
  - split; [exists msgs; split; [apply lookup_insert_eq | exact Hmsgs]|].
    split; [eexists; split; [apply lookup_insert_eq | apply lookup_insert_eq]|].
    split; [split; reflexivity|].
    intros c Hc1 Hc2. rewrite !lookup_insert_ne by congruence. split; reflexivity.
  - destruct (moved_insert_lookup (messagesByChatId state)
                (sc_optimisticMessageChatId ctx) actual msgs Hne) as (Hm1 & Hm2 & Hm3).
    destruct (moved_lookup (selectedMessagesMap state) (sc_optimisticMessageChatId ctx))
      as (Hs1 & Hs2).
    split; [exists msgs; split; [exact Hm1 | exact Hmsgs]|].
    split; [eexists; split; apply lookup_insert_eq|].
    split.
    { split; [exact Hm2|]. split; [|reflexivity].
      rewrite lookup_insert_ne by congruence. exact Hs1. }
    intros c Hc1 Hc2. split; [now apply Hm3|].
    rewrite lookup_insert_ne by congruence. now apply Hs2.
Qed.

(** A new chat: the temporary message moves to the chat of the answer,
    marked as sent, and the answer comes after it. *)
Lemma answer_is_recorded_in_its_chat_witness :
  let ctx := mkSendContext "hello" None None "temp-1" "temp-chat" None "__none__" None "now" in
  let state := with_messages emptyAiState
                 {["temp-chat" := [mkStoreMessage "temp-1" None "user" "hello" None None]]} in
  let assistant := mkStoreMessage "a1" (Some "c9") "assistant" "hi" None None in
  let st' := success_update ctx None assistant None None state in
  currentChatId st' = Some "c9" /\ messagesByChatId st' !! "temp-chat" = None /\
  messagesByChatId st' !! "c9" =
    Some [mkStoreMessage "temp-1" (Some "c9") "user" "hello" (Some "sent") None; assistant].
Proof.
  cbn zeta.
  pose proof (answer_is_recorded_in_its_chat
                (mkSendContext "hello" None None "temp-1" "temp-chat" None "__none__" None "now")
                None (mkStoreMessage "a1" (Some "c9") "assistant" "hi" None None) None None
                (with_messages emptyAiState
                   {["temp-chat" := [mkStoreMessage "temp-1" None "user" "hello" None None]]})
                "c9" eq_refl eq_refl) as (Hcur & _ & _ & _ & Hmsgs & _ & Hmoved & _).
  cbn zeta in Hmoved, Hmsgs.
  change (String.eqb "temp-chat" "c9") with false in Hmoved. cbn iota in Hmoved.
  destruct Hmoved as (Hgone & _).
  destruct Hmsgs as (msgs & Hlook & Hval & _).
  split; [exact Hcur|]. split; [exact Hgone|].
  rewrite Hlook, Hval. reflexivity.
Defined.

(** *** Rewinds *)

Lemma select_all_lookup (msgs : list StoreMessage) (acc : gmap string bool) (k : string) :
  foldl (fun sel msg => <[sm_id msg := true]> sel) acc msgs !! k =
  if existsb (fun msg => String.eqb (sm_id msg) k) msgs then Some true else acc !! k.
Proof.
  revert acc. induction msgs as [|m msgs IH]; intros acc; [reflexivity|].
  cbn [foldl existsb]. rewrite IH.
  destruct (existsb (fun msg => String.eqb (sm_id msg) k) msgs).
  - now rewrite orb_true_r.
  - rewrite orb_false_r. destruct (String.eqb_spec (sm_id m) k) as [->|Hne].
    + apply lookup_insert_eq.
    + now apply lookup_insert_ne.
Qed.

Lemma before_first_split {A : Type} (p : A -> bool) (pre post : list A) (t : A) :
  forallb (fun a => negb (p a)) pre = true -> p t = true ->
  before_first p (pre ++ t :: post) = Some pre.
Proof.
  intros Hpre Ht. induction pre as [|a pre IH]; cbn [app before_first].
  - now rewrite Ht.
  - cbn [forallb] in Hpre. apply andb_true_iff in Hpre as [Ha Hpre].
    apply negb_true_iff in Ha. rewrite Ha, (IH Hpre). reflexivity.
Qed.

(** X19. The state after an answer that is a rewind: the rewind target is
    cleared and [actual] is the current chat; its messages end with the
    answer; exactly the messages of the chat are selected, all of them;
    and when the chat held the rewind target, everything from the target
    on is dropped: what is kept are the messages before the target,
    without any that has the temporary id or the id of the API's user
    message, followed by the new branch.  The new branch is the answer
    alone, when the optimistic chat holds no new user message, or else
    the new user message and the answer; the new user message is the
    first message of the optimistic chat (the temporary one replaced as
    the update replaces it) that has the role ["user"] and the id of the
    API's user message or the temporary id. *)
Theorem rewind_replaces_the_branch
    (ctx : SendContext) (finalUser : option StoreMessage) (assistant : StoreMessage)
    (newlyCreated : option string) (wasRewind : option bool) (state : AiState)
    (actual : string) :
  first_truthy newlyCreated (sm_chat_id assistant) = Some actual ->
  match wasRewind with
  | Some b => b
  | None => truthy (sc_inputChatId ctx) && truthy (sc_currentRewindTargetId ctx)
  end = true ->
  let st' := success_update ctx finalUser assistant newlyCreated wasRewind state in
  let tempId := sc_tempUserMessageId ctx in
  let processed :=
    map (processed_message finalUser tempId actual)
      (default [] (messagesByChatId state !! sc_optimisticMessageChatId ctx)) in
  let is_new_user := fun m =>
    String.eqb (sm_role m) "user" && (has_id_of m finalUser || String.eqb (sm_id m) tempId) in
  rewindTargetMessageId st' = None /\
  currentChatId st' = Some actual /\
  exists msgs,
    messagesByChatId st' !! actual = Some msgs /\
    last msgs = Some assistant /\
    (exists sel,
       selectedMessagesMap st' !! actual = Some sel /\
       forall k, sel !! k =
                 if existsb (fun msg => String.eqb (sm_id msg) k) msgs
                 then Some true else None) /\
    (forall pre target post rewindTarget,
       sc_currentRewindTargetId ctx = Some rewindTarget ->
       default [] (messagesByChatId state !! actual) = pre ++ target :: post ->
       sm_id target = rewindTarget ->
       forallb (fun m => negb (String.eqb (sm_id m) rewindTarget)) pre = true ->
       exists base branch,
         msgs = base ++ branch /\
         base = List.filter (fun m => negb (String.eqb (sm_id m) tempId)
                                      && negb (has_id_of m finalUser)) pre /\
         sublist base pre /\
         ((branch = [assistant] /\ forallb (fun m => negb (is_new_user m)) processed = true) \/
          (exists before u after,
             branch = [u; assistant] /\
             processed = before ++ u :: after /\
             forallb (fun m => negb (is_new_user m)) before = true /\
             sm_role u = "user" /\
             (has_id_of u finalUser = true \/ sm_id u = tempId)))).
Proof.
  intros Hactual Hrw. cbn zeta. unfold success_update. rewrite Hactual. cbn zeta.
  rewrite !Hrw. cbn iota.
  cbn [currentChatId rewindTargetMessageId messagesByChatId selectedMessagesMap].
  split; [reflexivity|]. split; [reflexivity|].
  set (msgs := messagesForChat ctx state finalUser assistant true actual).
  exists msgs.
  assert (Hlook : (if negb (String.eqb (sc_optimisticMessageChatId ctx) actual)
                      && bool_decide (is_Some (messagesByChatId state
                                                 !! sc_optimisticMessageChatId ctx))
                   then delete (sc_optimisticMessageChatId ctx)
                          (<[actual := msgs]> (messagesByChatId state))
                   else <[actual := msgs]> (messagesByChatId state)) !! actual = Some msgs).
  { destruct (String.eqb_spec (sc_optimisticMessageChatId ctx) actual) as [Heq|Hne];
      cbn [negb andb]; [apply lookup_insert_eq|].
    apply (moved_insert_lookup _ _ _ _ Hne). }
  split; [exact Hlook|].
  set (processed := map (processed_message finalUser (sc_tempUserMessageId ctx) actual)
                      (default [] (messagesByChatId state !! sc_optimisticMessageChatId ctx))).
  set (is_new_user := fun m : StoreMessage =>
         String.eqb (sm_role m) "user"
         && (has_id_of m finalUser || String.eqb (sm_id m) (sc_tempUserMessageId ctx))).
  assert (Hshape : exists base branch,
            msgs = base ++ branch /\
            ((branch = [assistant] /\
              forallb (fun m => negb (is_new_user m)) processed = true) \/
             (exists before u after,
                branch = [u; assistant] /\
                processed = before ++ u :: after /\
                forallb (fun m => negb (is_new_user m)) before = true /\
                sm_role u = "user" /\
                (has_id_of u finalUser = true \/ sm_id u = sc_tempUserMessageId ctx))) /\
            forall pre target post rewindTarget,
              sc_currentRewindTargetId ctx = Some rewindTarget ->
              default [] (messagesByChatId state !! actual) = pre ++ target :: post ->
              sm_id target = rewindTarget ->
              forallb (fun m => negb (String.eqb (sm_id m) rewindTarget)) pre = true ->
              base = List.filter (fun m => negb (String.eqb (sm_id m) (sc_tempUserMessageId ctx))
                                           && negb (has_id_of m finalUser)) pre).
  { subst msgs. unfold messagesForChat. cbn zeta iota. rewrite replaced_map.
    fold processed. fold is_new_user.
    eexists _, _. split; [reflexivity|]. split.
    - destruct (List.find is_new_user processed) as [u|] eqn:Hfind.
      + right. apply find_split in Hfind as (before & after & Hsplit & Hbefore & Hu).
        exists before, u, after. split; [reflexivity|]. split; [exact Hsplit|].
        split.
        { apply forallb_forall. intros m Hm.
          rewrite List.Forall_forall in Hbefore. now rewrite (Hbefore m Hm). }
        unfold is_new_user in Hu. apply andb_true_iff in Hu as [Hrole Hid].
        split; [now apply String.eqb_eq|].
        apply orb_true_iff in Hid as [Hid|Hid]; [now left | right; now apply String.eqb_eq].
      + left. split; [reflexivity|].
        apply forallb_forall. intros m Hm.
        apply negb_true_iff. eapply find_none; eassumption.
    - intros pre target post rewindTarget Ht Hl Hid Hpre.
      rewrite Ht, Hl.
      rewrite (before_first_split _ pre post target Hpre)
        by (rewrite Hid; apply String.eqb_refl).
      reflexivity. }
  destruct Hshape as (base & branch & Hmsgs & Hbranch & Hbase).
  split.
  { rewrite Hmsgs. destruct Hbranch as [[-> _] | (before & u & after & -> & _)].
    - apply last_snoc.
    - change [u; assistant] with ([u] ++ [assistant]).
      rewrite app_assoc. apply last_snoc. }
  split.
  { eexists. split; [apply lookup_insert_eq|].
    intros k. rewrite select_all_lookup. now rewrite lookup_empty. }
  intros pre target post rewindTarget Ht Hl Hid Hpre.
  exists base, branch. split; [exact Hmsgs|].
  specialize (Hbase pre target post rewindTarget Ht Hl Hid Hpre).
  split; [exact Hbase|]. split; [rewrite Hbase; apply AnthropicFacts.filter_sublist|].
  exact Hbranch.
Qed.

(** A rewind to the second of three messages: the first is kept, the
    target and what followed are dropped, the temporary message and the
    answer make the new branch. *)
Lemma rewind_replaces_the_branch_witness :
  let ctx := mkSendContext "again" (Some "c1") (Some "m2") "temp-1" "c1" None "__none__"
               None "now" in
  let state := with_messages emptyAiState
                 {["c1" := [mkStoreMessage "m1" (Some "c1") "user" "q1" None None;
                            mkStoreMessage "m2" (Some "c1") "user" "q2" None None;
                            mkStoreMessage "m3" (Some "c1") "assistant" "a2" None None;
                            mkStoreMessage "temp-1" (Some "c1") "user" "again" None None]]} in
  let assistant := mkStoreMessage "m5" (Some "c1") "assistant" "a3" None None in
  let st' := success_update ctx None assistant None (Some true) state in
  rewindTargetMessageId st' = None /\ currentChatId st' = Some "c1" /\
  exists msgs branch,
    messagesByChatId st' !! "c1" = Some msgs /\
    msgs = [mkStoreMessage "m1" (Some "c1") "user" "q1" None None] ++ branch.
Proof.
  cbn zeta.
  pose proof (rewind_replaces_the_branch
                (mkSendContext "again" (Some "c1") (Some "m2") "temp-1" "c1" None "__none__"
                   None "now")
                None (mkStoreMessage "m5" (Some "c1") "assistant" "a3" None None) None
                (Some true)
                (with_messages emptyAiState
                   {["c1" := [mkStoreMessage "m1" (Some "c1") "user" "q1" None None;
                              mkStoreMessage "m2" (Some "c1") "user" "q2" None None;
                              mkStoreMessage "m3" (Some "c1") "assistant" "a2" None None;
                              mkStoreMessage "temp-1" (Some "c1") "user" "again" None None]]})
                "c1" eq_refl eq_refl) as (Hrw & Hcur & msgs & Hlook & _ & _ & Hdrop).
  split; [exact Hrw|]. split; [exact Hcur|].
  cbn zeta in Hdrop.
  destruct (Hdrop [mkStoreMessage "m1" (Some "c1") "user" "q1" None None]
              (mkStoreMessage "m2" (Some "c1") "user" "q2" None None)
              [mkStoreMessage "m3" (Some "c1") "assistant" "a2" None None;
               mkStoreMessage "temp-1" (Some "c1") "user" "again" None None]
              "m2" eq_refl eq_refl eq_refl eq_refl)
    as (base & branch & Hmsgs & Hbase & _).
  exists msgs, branch. split; [exact Hlook|].
  rewrite Hmsgs, Hbase. reflexivity.
Defined.

Example rewind_example :
  let ctx := mkSendContext "again" (Some "c1") (Some "m2") "temp-1" "c1" None "__none__"
               None "now" in
  let state := with_messages emptyAiState
                 {["c1" := [mkStoreMessage "m1" (Some "c1") "user" "q1" None None;
                            mkStoreMessage "m2" (Some "c1") "user" "q2" None None;
                            mkStoreMessage "m3" (Some "c1") "assistant" "a2" None None;
                            mkStoreMessage "temp-1" (Some "c1") "user" "again" None None]]} in
  let assistant := mkStoreMessage "m5" (Some "c1") "assistant" "a3" None None in
  map sm_id (default [] (messagesByChatId
                           (success_update ctx None assistant None (Some true) state)
                         !! "c1"))
  = ["m1"; "temp-1"; "m5"].
Proof. vm_compute. reflexivity. Qed.

(** *** A new chat in the chat lists *)

Lemma chat_title_short (message : string) :
  (length (chat_title message) <= 53)%nat /\
  ((length (utf16 message) <= 50)%nat -> chat_title message = utf16 message) /\
  ((50 < length (utf16 message))%nat ->
   chat_title message = take 50 (utf16 message) ++ [46; 46; 46]%N /\
   length (chat_title message) = 53%nat).
Proof.
  unfold chat_title. rewrite length_app, length_take.
  destruct (Nat.ltb_spec 50 (length (utf16 message))) as [Hlong|Hshort].
  - change (utf16 "...") with [46; 46; 46]%N. cbn [length].
    split; [lia|]. split; [lia|]. intros _. split; [reflexivity | lia].
  - cbn [length]. split; [lia|]. split; [|lia].
    intros _. rewrite app_nil_r. now apply take_ge.
Qed.

(** The code units of an ASCII string are its bytes. *)
Lemma utf16_ascii (s : string) :
  forallb (fun a => (N_of_ascii a <? 128)%N) (list_ascii_of_string s) = true ->
  utf16 s = map N_of_ascii (list_ascii_of_string s).
Proof.
  induction s as [|a s IH]; [reflexivity|].
  cbn [list_ascii_of_string forallb utf16 map]. intros H.
  apply andb_true_iff in H as [Ha H]. rewrite Ha. f_equal. now apply IH.
Qed.

(** U+00E9 (two bytes) and U+20AC (three bytes) are one code unit each,
    U+1F600 (four bytes) is the surrogate pair D83D DE00. *)
Example utf16_examples :
  utf16 (String (ascii_of_N 195) (String (ascii_of_N 169) "")) = [233%N] /\
  utf16 (String (ascii_of_N 226) (String (ascii_of_N 130) (String (ascii_of_N 172) "")))
    = [8364%N] /\
  utf16 (String (ascii_of_N 240) (String (ascii_of_N 159)
          (String (ascii_of_N 152) (String (ascii_of_N 128) ""))))
    = [55357%N; 56832%N].
Proof. vm_compute. repeat split. Qed.

(** X20. When the answer belongs to a chat other than the optimistic
    one, exactly one chat entry is added to the chat lists, at the end
    of one list: the list of the organization the call was made for, or
    the personal list when there is none; the other lists are
    untouched.  The entry has the new chat's id, and as title the
    message itself when it has at most 50 UTF-16 code units (what
    [length] counts), else its first 50 code units followed by ["..."],
    53 code units in all. *)
Theorem new_chat_is_listed_once
    (ctx : SendContext) (finalUser : option StoreMessage) (assistant : StoreMessage)
    (newlyCreated : option string) (wasRewind : option bool) (state : AiState)
    (actual : string) :
  first_truthy newlyCreated (sm_chat_id assistant) = Some actual ->
  sc_optimisticMessageChatId ctx <> actual ->
  let st' := success_update ctx finalUser assistant newlyCreated wasRewind state in
  let old := chatsByContext state in
  exists entry,
    chat_id entry = actual /\
    organization_id entry = sc_organizationIdForApi ctx /\
    title entry = chat_title (sc_message ctx) /\
    (length (title entry) <= 53)%nat /\
    ((length (utf16 (sc_message ctx)) <= 50)%nat -> title entry = utf16 (sc_message ctx)) /\
    ((50 < length (utf16 (sc_message ctx)))%nat ->
     title entry = take 50 (utf16 (sc_message ctx)) ++ [46; 46; 46]%N /\
     length (title entry) = 53%nat) /\
    match sc_organizationIdForApi ctx with
    | Some org =>
        if negb (String.eqb org "") && negb (String.eqb org "personal") then
          orgs (chatsByContext st') !! org = Some (default [] (orgs old !! org) ++ [entry]) /\
          (forall o, o <> org -> orgs (chatsByContext st') !! o = orgs old !! o) /\
          personal (chatsByContext st') = personal old
        else
          personal (chatsByContext st') = Some (default [] (personal old) ++ [entry]) /\
          orgs (chatsByContext st') = orgs old
    | None =>
        personal (chatsByContext st') = Some (default [] (personal old) ++ [entry]) /\
        orgs (chatsByContext st') = orgs old
    end.
Proof.
  intros Hactual Hne. cbn zeta. unfold success_update. rewrite Hactual. cbn zeta.
  apply String.eqb_neq in Hne. rewrite !Hne. cbn [negb]. cbn iota.
  cbn [chatsByContext].
  destruct (chat_title_short (sc_message ctx)) as (Hlen & Hshort & Hlong).
  exists {| chat_id := actual;
            title := chat_title (sc_message ctx);
            user_id := sc_currentUserId ctx;
            organization_id := sc_organizationIdForApi ctx;
            created_at := sc_now ctx;
            updated_at := sc_now ctx;
            chat_system_prompt_id :=
              if String.eqb (sc_apiPromptId ctx) "__none__" then None
              else Some (sc_apiPromptId ctx) |}.
  split; [reflexivity|]. split; [reflexivity|]. split; [reflexivity|].
  cbn [title]. split; [exact Hlen|]. split; [exact Hshort|]. split; [exact Hlong|].
  destruct (sc_organizationIdForApi ctx) as [org|]; [|split; reflexivity].
  destruct (negb (String.eqb org "") && negb (String.eqb org "personal"));
    cbn [orgs personal].
  - split; [apply lookup_insert_eq|]. split; [|reflexivity].
    intros o Ho. now rewrite lookup_insert_ne by congruence.
  - split; reflexivity.
Qed.

(** A message of thirty times U+00E9: sixty bytes but thirty code units,
    so the title is the whole message. *)
Lemma new_chat_is_listed_once_witness :
  let e_acute := String (ascii_of_N 195) (String (ascii_of_N 169) "") in
  let ten := (e_acute +:+ e_acute +:+ e_acute +:+ e_acute +:+ e_acute +:+
              e_acute +:+ e_acute +:+ e_acute +:+ e_acute +:+ e_acute)%string in
  let ctx := mkSendContext (ten +:+ ten +:+ ten)%string None None "temp-1" "temp-chat" None
               "__none__" None "now" in
  let assistant := mkStoreMessage "a1" (Some "c9") "assistant" "hi" None None in
  exists entry,
    personal (chatsByContext (success_update ctx None assistant None None emptyAiState))
      = Some [entry] /\
    chat_id entry = "c9" /\ title entry = repeat 233%N 30.
Proof.
  cbn zeta.
  assert (Hne : "temp-chat" <> "c9") by discriminate.
  destruct (new_chat_is_listed_once
              (mkSendContext
                 (let e_acute := String (ascii_of_N 195) (String (ascii_of_N 169) "") in
                  let ten := (e_acute +:+ e_acute +:+ e_acute +:+ e_acute +:+ e_acute +:+
                              e_acute +:+ e_acute +:+ e_acute +:+ e_acute +:+ e_acute)%string in
                  (ten +:+ ten +:+ ten)%string)
                 None None "temp-1" "temp-chat" None "__none__" None "now")
              None (mkStoreMessage "a1" (Some "c9") "assistant" "hi" None None) None None
              emptyAiState "c9" eq_refl Hne)
    as (entry & Hid & _ & _ & _ & Hshort & _ & Hlist).
  cbn zeta in Hlist. cbn iota in Hlist. destruct Hlist as [Hp _].
  exists entry. split; [exact Hp|]. split; [exact Hid|].
  rewrite Hshort; [vm_compute; reflexivity | vm_compute; lia].
Defined.

(** *** A call that succeeds *)

Section Success.
Variable callChatApi : ApiRequest -> string -> result string ApiResponse.
Variable addOptimisticUserMessage :
  string -> option string -> AiState -> (string * string) * AiState.
Variable isChatRole : string -> bool.
Variable activeWalletInfo : ActiveWalletInfo.
Variable currentUserId : option (option string).
Variable accessToken : option string.
Variable now : string.
Variable storageWorks : bool.

End Success.


End StoreSpec.

(** ** The properties above at concrete inputs *)

Module Witnesses.
Import Continue ContinueTrace Wallet.

(** Two answers, the second one complete: the second call is handed the
    history with the first answer appended. *)
Lemma continuation_requests_extend_history_witness :
  exists run c,
    handleContinuationLoop scripted "model" "key"
      (mkChatApiRequest (Some "hi") None None (Some [mkChatMessage "user" "q"]) None)
      [Ok (response_of "a" 1 1 (Some "length") None);
       Ok (response_of "b" 1 1 (Some "stop") None)] = Some run /\
    calls run !! 1%nat = Some c /\
    messages (call_request c) =
      Some [mkChatMessage "user" "q"; mkChatMessage "assistant" "a"].
Proof.
  destruct (ContinueTraceSpec.continuation_requests_extend_history scripted "model" "key"
              (mkChatApiRequest (Some "hi") None None (Some [mkChatMessage "user" "q"]) None)
              [Ok (response_of "a" 1 1 (Some "length") None);
               Ok (response_of "b" 1 1 (Some "stop") None)]) as (run & Hrun & Hreq).
  exists run.
  assert (Hcall : exists c, calls run !! 1%nat = Some c /\
                            responses (calls run) =
                              [response_of "a" 1 1 (Some "length") None;
                               response_of "b" 1 1 (Some "stop") None]).
  { vm_compute in Hrun. injection Hrun as <-. eexists. split; reflexivity. }
  destruct Hcall as (c & Hc & Hresp). exists c.
  split; [exact Hrun|]. split; [exact Hc|].
  destruct (Hreq 1%nat c Hc) as (Hm & _). rewrite Hm, Hresp. reflexivity.
Defined.

(** A listed organization under the default policy, consent given. *)
Lemma personal_tokens_for_org_need_consent_witness :
  determineChatWallet
    (mkOrgStoreState [mkOrganization "org123" "Acme" None] None false)
    (mkWalletState None [] [("org123", Some true)] false None)
    (Some "org123")
  = use_personal_wallet_for_org "org123".
Proof.
  apply (proj2 (WalletSpec.personal_tokens_for_org_need_consent
                  (mkOrgStoreState [mkOrganization "org123" "Acme" None] None false)
                  (mkWalletState None [] [("org123", Some true)] false None)
                  (Some "org123") "org123")).
  split; [reflexivity|]. split; [discriminate|]. split; [discriminate|].
  split; [|reflexivity].
  exists (mkOrganization "org123" "Acme" None). split; [reflexivity | now right].
Defined.

End Witnesses.
